(** * Audio analysis and vibration synchronisation: a shallow embedding

    The development follows [js/audio-analyzer.js] (class [AudioAnalyzer])
    and [js/vibration-controller.js] (class [VibrationController]).

    Modelling conventions.
    - A JavaScript number whose value may be non-finite is a [num]: an exact
      rational, [+Infinity], [-Infinity] or [NaN].  Finite arithmetic is
      exact (the sign of zero is not represented), except where an integer
      or a boolean result depends on binary rounding: the tempo formula of
      [estimateBPM] and the tests of [detectFrequencyChange] and
      [detectVolumeChange] round every operation to binary64 ([rounded]),
      and read their decimal literals as the nearest doubles ([lit]).
    - [Date.now()] yields integer milliseconds: times are [Z], and each
      clock read is an explicit argument of the function that performs it.
    - A [Uint8Array] is a [list Z] of values in 0..255.
    - The sample rate of the audio context is a positive integer, so the
      bin indices derived from it are finite; they are computed in [Q] and
      [Z].
    - [Math.sqrt] is a parameter of the functions that reach it.
    - Methods that mutate [this] are state transformers; methods that may
      raise are computations in the monad [M] (state plus exception, the
      state written before the exception is kept, as in JavaScript). *)

From Stdlib Require Import ZArith QArith Qabs Qround Qminmax List Bool Lia.
From Stdlib Require Import Permutation Sorted.
Import ListNotations.

Open Scope Z_scope.

(** ** JavaScript numbers *)

Module JS.

Inductive num : Type :=
| Fin (q : Q)
| PInf
| NInf
| NaN.

(** Finite results are kept in lowest terms. *)
Definition fin (q : Q) : num := Fin (Qred q).

Definition of_Z (z : Z) : num := Fin (inject_Z z).
Definition of_nat (n : nat) : num := of_Z (Z.of_nat n).

Definition Qltb (x y : Q) : bool := negb (Qle_bool y x).

Definition neg (a : num) : num :=
  match a with
  | Fin x => fin (- x)
  | PInf => NInf
  | NInf => PInf
  | NaN => NaN
  end.

Definition add (a b : num) : num :=
  match a, b with
  | NaN, _ | _, NaN => NaN
  | Fin x, Fin y => fin (x + y)
  | PInf, NInf | NInf, PInf => NaN
  | PInf, _ | _, PInf => PInf
  | NInf, _ | _, NInf => NInf
  end.

Definition sub (a b : num) : num := add a (neg b).

(** The infinity whose sign is the sign of [x]; [NaN] for [x = 0]. *)
Definition signed_inf (x : Q) (pos : bool) : num :=
  match Qcompare x 0 with
  | Eq => NaN
  | Gt => if pos then PInf else NInf
  | Lt => if pos then NInf else PInf
  end.

Definition mul (a b : num) : num :=
  match a, b with
  | NaN, _ | _, NaN => NaN
  | Fin x, Fin y => fin (x * y)
  | Fin x, PInf | PInf, Fin x => signed_inf x true
  | Fin x, NInf | NInf, Fin x => signed_inf x false
  | PInf, PInf | NInf, NInf => PInf
  | PInf, NInf | NInf, PInf => NInf
  end.

Definition div (a b : num) : num :=
  match a, b with
  | NaN, _ | _, NaN => NaN
  | Fin x, Fin y =>
      if Qeq_bool y 0 then signed_inf x true else fin (x / y)
  | Fin _, (PInf | NInf) => Fin 0
  | PInf, Fin y => if Qltb y 0 then NInf else PInf
  | NInf, Fin y => if Qltb y 0 then PInf else NInf
  | (PInf | NInf), (PInf | NInf) => NaN
  end.

(** Comparisons: every comparison with [NaN] is false. *)
Definition ltb (a b : num) : bool :=
  match a, b with
  | NaN, _ | _, NaN => false
  | Fin x, Fin y => Qltb x y
  | NInf, (Fin _ | PInf) => true
  | Fin _, PInf => true
  | _, _ => false
  end.

Definition leb (a b : num) : bool :=
  match a, b with
  | NaN, _ | _, NaN => false
  | Fin x, Fin y => Qle_bool x y
  | NInf, _ => true
  | _, PInf => true
  | _, _ => false
  end.

Definition gtb (a b : num) : bool := ltb b a.
Definition geb (a b : num) : bool := leb b a.

(** [Math.min], [Math.max]: [NaN] if either argument is [NaN]. *)
Definition min (a b : num) : num :=
  match a, b with
  | NaN, _ | _, NaN => NaN
  | _, _ => if leb a b then a else b
  end.

Definition max (a b : num) : num :=
  match a, b with
  | NaN, _ | _, NaN => NaN
  | _, _ => if leb a b then b else a
  end.

Definition abs (a : num) : num :=
  match a with
  | Fin x => fin (Qabs x)
  | PInf | NInf => PInf
  | NaN => NaN
  end.

Definition floor (a : num) : num :=
  match a with
  | Fin x => of_Z (Qfloor x)
  | _ => a
  end.

(** [Math.round]: the nearest integer, ties towards [+Infinity]. *)
Definition round (a : num) : num :=
  match a with
  | Fin x => of_Z (Qfloor (x + (1 # 2)))
  | _ => a
  end.

(** Truthiness of a number: [0] and [NaN] are falsy. *)
Definition truthy (a : num) : bool :=
  match a with
  | Fin x => negb (Qeq_bool x 0)
  | PInf | NInf => true
  | NaN => false
  end.

(** [a === 0] *)
Definition is_zero (a : num) : bool :=
  match a with
  | Fin x => Qeq_bool x 0
  | _ => false
  end.

(** [a || b] on numbers. *)
Definition or_else (a b : num) : num := if truthy a then a else b.

(** [l.reduce((sum, val) => sum + val, 0)] *)
Definition sum (l : list num) : num := fold_left add l (of_Z 0).

(** *** binary64

    [binary64 q] is the double nearest to [q], ties to the even
    significand: 53 significant bits, less below [2^-1022] (gradual
    underflow, least exponent [-1074]).  Magnitudes beyond the range of
    doubles are kept (no overflow to [Infinity]). *)
Definition roundHalfEven (s : Q) : Z :=
  let f := Qfloor s in
  match Qcompare (s - inject_Z f) (1 # 2) with
  | Lt => f
  | Gt => f + 1
  | Eq => if Z.even f then f else f + 1
  end.

(** [floor(log2 a)] for a positive [a]. *)
Definition Qlog2 (a : Q) : Z :=
  let k := Z.log2 (Qnum a) - Z.log2 (Zpos (Qden a)) in
  if Qle_bool (Qpower 2 k) a then k else k - 1.

Definition binary64 (q : Q) : Q :=
  if Qeq_bool q 0 then 0%Q
  else
    let a := Qabs q in
    let e := Z.max (Qlog2 a - 52) (-1074) in
    let m := roundHalfEven (a / Qpower 2 e) in
    let r := (inject_Z m * Qpower 2 e)%Q in
    Qred (if Qle_bool 0 q then r else - r).
Arguments binary64 : simpl never.

(** A number as the double it denotes: the result of an operation of the
    source on doubles is the rounding of the exact result; on a double
    [rounded] is the identity. *)
Definition rounded (a : num) : num :=
  match a with
  | Fin q => Fin (binary64 q)
  | _ => a
  end.

End JS.

Import JS.

Declare Scope num_scope.
Delimit Scope num_scope with num.
Bind Scope num_scope with num.
Infix "+" := JS.add : num_scope.
Infix "-" := JS.sub : num_scope.
Infix "*" := JS.mul : num_scope.
Infix "/" := JS.div : num_scope.
Infix "<?" := JS.ltb : num_scope.
Infix "<=?" := JS.leb : num_scope.
Infix ">?" := JS.gtb : num_scope.
Infix ">=?" := JS.geb : num_scope.

(** Decimal literals of the source. *)
Definition dec (n : Z) (d : positive) : num := fin (n # d).
Coercion of_Z : Z >-> num.

(** A decimal literal as the source reads it: the nearest double. *)
Definition lit (n : Z) (d : positive) : num := rounded (dec n d).

(** ** Ranges of numbers *)

Definition is_finite (a : num) : bool :=
  match a with
  | Fin _ => true
  | _ => false
  end.

(** [lo <= a && a <= hi] *)
Definition within (lo hi a : num) : bool :=
  (lo <=? a)%num && (a <=? hi)%num.

(** ** Sequences of calls

    A method called once per input on the same object: the state reached
    after a list of calls.  ([fold_left] threads the object through the
    calls in order.) *)

Section Calls.

Context {S I O : Type}.
Variable step : I -> S -> O * S.

Definition after (inputs : list I) (s : S) : S :=
  fold_left (fun s i => snd (step i s)) inputs s.

(** What the successive calls return. *)
Fixpoint results (inputs : list I) (s : S) : list O :=
  match inputs with
  | [] => []
  | i :: rest => fst (step i s) :: results rest (snd (step i s))
  end.

End Calls.

(** ** The analysis result exchanged between the two classes *)

Inductive BeatType : Type := Kick | Energy.

Record VolumeData : Type := mkVolume {
  v_average : num;
  v_max : num;
  v_rms : num;
  v_level : num
}.

Record FrequencyData : Type := mkFrequency {
  f_bass : num;
  f_mid : num;
  f_treble : num;
  f_peak : num;
  f_peakValue : num;
  f_totalEnergy : num;
  f_spectralCentroid : num;
  f_brightness : num
}.

(** The object returned by [detectBeat].  The early return taken during the
    minimum-interval pause carries no [energy], [kickEnergy] or [type]
    property, and only a detected beat carries a [type]. *)
Record BeatEvent : Type := mkBeat {
  b_detected : bool;
  b_strength : num;
  b_bpm : num;
  b_confidence : num;
  b_energy : option num;
  b_kickEnergy : option num;
  b_type : option BeatType
}.

Record AnalysisResult : Type := mkResult {
  r_volume : VolumeData;
  r_frequency : FrequencyData;
  r_beat : BeatEvent;
  r_timestamp : Z
}.

(** ** js/vibration-controller.js *)

Module VC.

(** A vibration pattern is a number or an array of numbers.  Reading an
    array past its end gives [undefined], which the arithmetic of the source
    turns into [NaN]. *)
Inductive Pattern : Type :=
| PNum (n : num)
| PArr (l : list num).

Definition at_index (l : list num) (i : nat) : num := nth i l NaN.

Record Config : Type := mkConfig {
  minInterval : Z;
  maxDuration : num;
  beatVibrationDuration : num;
  intensityMultiplier : num;
  frequencyThreshold : num;
  syncDelay : num;
  adaptiveSync : bool;
  latencyCompensation : num
}.

Record SyncState : Type := mkSync {
  avgLatency : num;
  latencyHistory : list num
}.

Record Patterns : Type := mkPatterns {
  p_beat : list num;
  p_strongBeat : list num;
  p_bass : list num;
  p_continuous : list num;
  p_pulse : list num
}.

Record Controller : Type := mkController {
  isSupported : bool;
  isEnabled : bool;
  lastVibrationTime : Z;
  isVibrating : bool;
  config : Config;
  syncState : SyncState;
  patterns : Patterns;
  lastSyncTime : option Z;
  lastFrequencyData : option FrequencyData;
  lastVolumeData : option VolumeData
}.

Definition defaultConfig : Config :=
  {| minInterval := 20;
     maxDuration := 800;
     beatVibrationDuration := 200;
     intensityMultiplier := 4;
     frequencyThreshold := dec 15 100;
     syncDelay := 0;
     adaptiveSync := true;
     latencyCompensation := 20 |}.

Definition defaultPatterns : Patterns :=
  {| p_beat := [of_Z 200; of_Z 50];
     p_strongBeat := [of_Z 350; of_Z 50];
     p_bass := [of_Z 400; of_Z 80];
     p_continuous := [of_Z 100; of_Z 30];
     p_pulse := [of_Z 150; of_Z 80; of_Z 150; of_Z 120] |}.

(** The object built by the constructor; [supported] is
    ['vibrate' in navigator]. *)
Definition construct (supported : bool) : Controller :=
  {| isSupported := supported;
     isEnabled := false;
     lastVibrationTime := 0;
     isVibrating := false;
     config := defaultConfig;
     syncState := {| avgLatency := 0; latencyHistory := [] |};
     patterns := defaultPatterns;
     lastSyncTime := None;
     lastFrequencyData := None;
     lastVolumeData := None |}.

Definition set_lastVibrationTime (x : Z) (c : Controller) : Controller :=
  mkController (isSupported c) (isEnabled c) x (isVibrating c) (config c)
    (syncState c) (patterns c) (lastSyncTime c) (lastFrequencyData c)
    (lastVolumeData c).

Definition set_isVibrating (x : bool) (c : Controller) : Controller :=
  mkController (isSupported c) (isEnabled c) (lastVibrationTime c) x
    (config c) (syncState c) (patterns c) (lastSyncTime c)
    (lastFrequencyData c) (lastVolumeData c).

Definition set_isEnabled (x : bool) (c : Controller) : Controller :=
  mkController (isSupported c) x (lastVibrationTime c) (isVibrating c)
    (config c) (syncState c) (patterns c) (lastSyncTime c)
    (lastFrequencyData c) (lastVolumeData c).

Definition set_config (x : Config) (c : Controller) : Controller :=
  mkController (isSupported c) (isEnabled c) (lastVibrationTime c)
    (isVibrating c) x (syncState c) (patterns c) (lastSyncTime c)
    (lastFrequencyData c) (lastVolumeData c).

Definition set_syncState (x : SyncState) (c : Controller) : Controller :=
  mkController (isSupported c) (isEnabled c) (lastVibrationTime c)
    (isVibrating c) (config c) x (patterns c) (lastSyncTime c)
    (lastFrequencyData c) (lastVolumeData c).

Definition set_lastSyncTime (x : option Z) (c : Controller) : Controller :=
  mkController (isSupported c) (isEnabled c) (lastVibrationTime c)
    (isVibrating c) (config c) (syncState c) (patterns c) x
    (lastFrequencyData c) (lastVolumeData c).

Definition set_lastFrequencyData (x : option FrequencyData) (c : Controller)
  : Controller :=
  mkController (isSupported c) (isEnabled c) (lastVibrationTime c)
    (isVibrating c) (config c) (syncState c) (patterns c) (lastSyncTime c) x
    (lastVolumeData c).

Definition set_lastVolumeData (x : option VolumeData) (c : Controller)
  : Controller :=
  mkController (isSupported c) (isEnabled c) (lastVibrationTime c)
    (isVibrating c) (config c) (syncState c) (patterns c) (lastSyncTime c)
    (lastFrequencyData c) x.

Definition set_latencyCompensation (x : num) (g : Config) : Config :=
  mkConfig (minInterval g) (maxDuration g) (beatVibrationDuration g)
           (intensityMultiplier g) (frequencyThreshold g) (syncDelay g)
           (adaptiveSync g) x.

(** *** The actuator and the clocks

    [navigator.vibrate] returns a boolean or raises.  What one call of
    [vibrate] reads from outside the object: [Date.now()], the two
    [performance.now()] reads around the actuator call, and the actuator's
    answer. *)
Inductive Reply : Type :=
| Returned (ok : bool)
| Raised.

Record Call : Type := mkCall {
  e_now : Z;
  e_perfStart : num;
  e_perfEnd : num;
  e_reply : Reply
}.

(** What leaves the object: calls of [navigator.vibrate] (with the value of
    [Date.now()] read by the calling [vibrate], and the actuator's answer)
    and the timers armed with [setTimeout]. *)
Inductive Effect : Type :=
| NavigatorVibrate (at_time : Z) (p : Pattern) (r : Reply)
| SetTimeout (delay : num).

(** [applyLatencyCompensation] *)
Definition applyLatencyCompensation (c : Controller) (pattern : Pattern)
  : Pattern :=
  if negb (adaptiveSync (config c))
     || is_zero (latencyCompensation (config c))
  then pattern
  else
    match pattern with
    | PArr l =>
        match l with
        | [] => PArr []
        | d :: rest =>
            PArr (JS.max 10 (d - latencyCompensation (config c))%num :: rest)
        end
    | PNum n => PNum (JS.max 10 (n - latencyCompensation (config c))%num)
    end.

(** [updateSyncStats]: [latency] is the difference of the two
    [performance.now()] reads.  [pushBounded] is [push] followed by the
    [shift] taken when the array has grown past [cap]. *)
Definition pushBounded (cap : nat) (x : num) (l : list num) : list num :=
  let l' := l ++ [x] in
  if (cap <? length l')%nat then tl l' else l'.

Definition updateSyncStats (e : Call) (c : Controller) : Controller :=
  let latency := (e_perfEnd e - e_perfStart e)%num in
  let hist := pushBounded 20 latency (latencyHistory (syncState c)) in
  let avg := (sum hist / of_nat (length hist))%num in
  let c1 := set_syncState {| avgLatency := avg; latencyHistory := hist |} c in
  if adaptiveSync (config c1) && (10 <=? length hist)%nat
  then set_config
         (set_latencyCompensation (JS.min 50 (JS.max 0 avg)) (config c1)) c1
  else c1.

(** The [reduce] of [vibrate]: the sum of the entries at even indices. *)
Fixpoint sumEven (l : list num) (acc : num) : num :=
  match l with
  | [] => acc
  | x :: [] => (acc + x)%num
  | x :: _ :: rest => sumEven rest (acc + x)%num
  end.

Definition totalDuration (p : Pattern) : num :=
  match p with
  | PArr l => sumEven l 0
  | PNum n => n
  end.

(** [vibrate]: the result, the new object and what was sent outside. *)
Definition vibrate (e : Call) (pattern : Pattern) (c : Controller)
  : bool * Controller * list Effect :=
  if negb (isSupported c) || negb (isEnabled c) then (false, c, [])
  else
    let now := e_now e in
    if now - lastVibrationTime c <? minInterval (config c)
    then (false, c, [])
    else
      let compensatedPattern := applyLatencyCompensation c pattern in
      match e_reply e with
      | Raised =>
          (false, c, [NavigatorVibrate now compensatedPattern Raised])
      | Returned false =>
          (false, c,
           [NavigatorVibrate now compensatedPattern (Returned false)])
      | Returned true =>
          let c1 := set_isVibrating true (set_lastVibrationTime now c) in
          let c2 := updateSyncStats e c1 in
          (true, c2,
           [NavigatorVibrate now compensatedPattern (Returned true);
            SetTimeout (totalDuration compensatedPattern)])
      end.

(** The callback armed by [vibrate] with [setTimeout]. *)
Definition vibrationEnded (c : Controller) : Controller :=
  set_isVibrating false c.

(** [detectFrequencyChange]; [now] is its [Date.now()].  Which branch is
    taken depends on the last bit of the differences: the levels are read
    as the doubles they denote, the subtractions are rounded and the
    thresholds are the doubles nearest to the literals, so that on doubles
    the tests decide as the source does. *)
Definition detectFrequencyChange (now : Z)
    (frequencyData : option FrequencyData) (c : Controller)
  : bool * Controller :=
  match frequencyData, lastFrequencyData c with
  | Some fd, Some last =>
      if now - lastVibrationTime c <? 150 then (false, c)
      else
        let bass := rounded (f_bass fd) in
        let treble := rounded (f_treble fd) in
        let bassChange :=
          JS.abs (rounded (bass - rounded (f_bass last))%num) in
        let trebleChange :=
          JS.abs (rounded (treble - rounded (f_treble last))%num) in
        let c1 := set_lastFrequencyData (Some fd) c in
        if (bassChange >? lit 3 10)%num && (bass >? lit 5 10)%num
        then (true, c1)
        else if (trebleChange >? lit 4 10)%num && (treble >? lit 6 10)%num
        then (true, c1)
        else (false, c1)
  | _, _ => (false, set_lastFrequencyData frequencyData c)
  end.

(** [detectVolumeChange]; [now] is its [Date.now()].  The test is made on
    doubles, as in [detectFrequencyChange]. *)
Definition detectVolumeChange (now : Z) (volumeData : option VolumeData)
    (c : Controller) : bool * Controller :=
  match volumeData, lastVolumeData c with
  | Some vd, Some last =>
      if now - lastVibrationTime c <? 200 then (false, c)
      else
        let level := rounded (v_level vd) in
        let volumeChange :=
          JS.abs (rounded (level - rounded (v_level last))%num) in
        let c1 := set_lastVolumeData (Some vd) c in
        ((volumeChange >? lit 3 10)%num && (level >? lit 7 10)%num, c1)
  | _, _ => (false, set_lastVolumeData volumeData c)
  end.

(** The pattern computed by [handleBeatVibration] before it calls
    [vibrate]. *)
Definition beatPattern (c : Controller) (beatData : BeatEvent) : list num :=
  let intensity := or_else (b_strength beatData) (dec 5 10) in
  let beatType :=
    match b_type beatData with Some ty => ty | None => Energy end in
  let pattern :=
    match beatType with
    | Kick =>
        if (intensity >? dec 8 10)%num then [of_Z 300; of_Z 50]
        else [of_Z 200; of_Z 50]
    | Energy =>
        if (intensity >? dec 8 10)%num then p_strongBeat (patterns c)
        else if (intensity >? dec 5 10)%num then p_beat (patterns c)
        else [of_Z 120; of_Z 30]
    end in
  if truthy (b_bpm beatData) && (b_bpm beatData >? 0)%num
  then
    let beatInterval := (60000 / b_bpm beatData)%num in
    if (beatInterval <? 400)%num
    then [JS.min (at_index pattern 0) 80; at_index pattern 1]
    else pattern
  else pattern.

Definition handleBeatVibration (e : Call) (beatData : BeatEvent)
    (c : Controller) : Controller * list Effect :=
  if negb (b_detected beatData) then (c, [])
  else
    let '(_, c', out) := vibrate e (PArr (beatPattern c beatData)) c in
    (c', out).

Definition frequencyPattern (c : Controller) (frequencyData : FrequencyData)
  : option (list num) :=
  if (f_bass frequencyData >? frequencyThreshold (config c))%num
  then
    let intensity :=
      JS.min (f_bass frequencyData * intensityMultiplier (config c))%num 1 in
    let duration := JS.floor (intensity * maxDuration (config c))%num in
    if (duration >? 50)%num then Some [duration; of_Z 100] else None
  else None.

Definition handleFrequencyVibration (e : Call) (frequencyData : FrequencyData)
    (c : Controller) : Controller * list Effect :=
  match frequencyPattern c frequencyData with
  | Some p => let '(_, c', out) := vibrate e (PArr p) c in (c', out)
  | None => (c, [])
  end.

Definition volumePattern (c : Controller) (volume : num) : option (list num) :=
  if (volume >? dec 8 10)%num && negb (isVibrating c)
  then Some [JS.floor (volume * 150)%num; of_Z 50]
  else None.

Definition handleVolumeVibration (e : Call) (volume : num) (c : Controller)
  : Controller * list Effect :=
  match volumePattern c volume with
  | Some p => let '(_, c', out) := vibrate e (PArr p) c in (c', out)
  | None => (c, [])
  end.

(** The argument of [processAudioData]: any of the three properties may be
    missing. *)
Record AudioData : Type := mkAudio {
  a_beat : option BeatEvent;
  a_frequency : option FrequencyData;
  a_volume : option VolumeData
}.

Definition of_result (r : AnalysisResult) : AudioData :=
  {| a_beat := Some (r_beat r);
     a_frequency := Some (r_frequency r);
     a_volume := Some (r_volume r) |}.

(** The clock reads of one call of [syncVibrationWithAudio] (its own, and
    those of the two detectors) and the environment of the one [vibrate] it
    may reach. *)
Record TickEnv : Type := mkTickEnv {
  t_now : Z;
  t_nowFrequency : Z;
  t_nowVolume : Z;
  t_vibrate : Call
}.

(** [syncVibrationWithAudio].  [syncWithoutBeat] is the part of its body
    that follows the beat branch (steps 2 and 3 of the source). *)
Definition syncWithoutBeat (k : TickEnv) (audioData : AudioData)
    (c : Controller) : Controller * list Effect :=
  let now := t_now k in
  let '(changed, c1) :=
    detectFrequencyChange (t_nowFrequency k) (a_frequency audioData) c in
  if changed
  then
    match a_frequency audioData with
    | Some fd =>
        let '(c2, out) := handleFrequencyVibration (t_vibrate k) fd c1 in
        (set_lastSyncTime (Some now) c2, out)
    | None => (c1, [])
    end
  else
    let '(swell, c2) :=
      detectVolumeChange (t_nowVolume k) (a_volume audioData) c1 in
    if swell
    then
      match a_volume audioData with
      | Some vd =>
          let '(c3, out) :=
            handleVolumeVibration (t_vibrate k) (v_level vd) c2 in
          (set_lastSyncTime (Some now) c3, out)
      | None => (c2, [])
      end
    else (c2, []).

Definition syncVibrationWithAudio (k : TickEnv) (audioData : AudioData)
    (c : Controller) : Controller * list Effect :=
  let now := t_now k in
  match a_beat audioData with
  | Some beat =>
      if b_detected beat
      then
        let '(c1, out) := handleBeatVibration (t_vibrate k) beat c in
        (set_lastSyncTime (Some now) c1, out)
      else syncWithoutBeat k audioData c
  | None => syncWithoutBeat k audioData c
  end.

(** [processAudioData]: nothing in [syncVibrationWithAudio] raises, so the
    [try] block is its body. *)
Definition processAudioData (k : TickEnv) (audioData : option AudioData)
    (c : Controller) : Controller * list Effect :=
  match audioData with
  | Some d => if isEnabled c then syncVibrationWithAudio k d c else (c, [])
  | None => (c, [])
  end.

(** [enable] *)
Definition enable (c : Controller) : bool * Controller :=
  if isSupported c then (true, set_isEnabled true c) else (false, c).

(** *** Observations used in the statements *)

(** The patterns handed to [navigator.vibrate], in order. *)
Definition actuatorCalls (out : list Effect) : list Pattern :=
  flat_map (fun x => match x with
                     | NavigatorVibrate _ p _ => [p]
                     | SetTimeout _ => []
                     end) out.

(** The guards of [vibrate] pass: the device is supported, the controller
    enabled, and [minInterval] has elapsed since the last accepted
    vibration.  [navigator.vibrate] is called exactly then. *)
Definition reachesActuator (e : Call) (c : Controller) : bool :=
  isSupported c && isEnabled c
  && negb (e_now e - lastVibrationTime c <? minInterval (config c)).

(** What reaches the actuator when a handler has computed [pattern]
    ([None]: it does not call [vibrate]) on the object [c]. *)
Definition sent (e : Call) (c : Controller) (pattern : option (list num))
  : list Pattern :=
  match pattern with
  | Some p =>
      if reachesActuator e c then [applyLatencyCompensation c (PArr p)]
      else []
  | None => []
  end.

(** The beat of a tick, when there is one with [detected] set. *)
Definition beatPresent (d : AudioData) : option BeatEvent :=
  match a_beat d with
  | Some b => if b_detected b then Some b else None
  | None => None
  end.

(** One candidate command: [vibrate] with its environment and pattern,
    returning what the caller sees and what was sent outside. *)
Definition command (x : Call * Pattern) (c : Controller)
  : (bool * list Effect) * Controller :=
  let '(r, c', out) := vibrate (fst x) (snd x) c in ((r, out), c').

Definition accepted (o : bool * list Effect) : bool := fst o.

(** *** Inputs for examples *)

(** An enabled controller on a device that supports vibration. *)
Definition enabledController : Controller := snd (enable (construct true)).

(** The environment of a [vibrate] whose actuator call succeeds. *)
Definition actuatorAccepts (now : Z) : Call :=
  {| e_now := now; e_perfStart := 0; e_perfEnd := 1;
     e_reply := Returned true |}.

Definition tickAt (now : Z) : TickEnv :=
  {| t_now := now; t_nowFrequency := now; t_nowVolume := now;
     t_vibrate := actuatorAccepts now |}.

Definition bandWithBass (bass : num) : FrequencyData :=
  {| f_bass := bass; f_mid := 0; f_treble := 0; f_peak := 0;
     f_peakValue := 0; f_totalEnergy := 0; f_spectralCentroid := 0;
     f_brightness := 0 |}.

Definition volumeAt (level : num) : VolumeData :=
  {| v_average := level; v_max := level; v_rms := level; v_level := level |}.

Definition quietBand : FrequencyData := bandWithBass (dec 2 10).
Definition loudBand : FrequencyData := bandWithBass (dec 9 10).
Definition quietVolume : VolumeData := volumeAt (dec 2 10).
Definition loudVolume : VolumeData := volumeAt (dec 9 10).

(** A controller that last saw a quiet tick and has never actuated. *)
Definition quietController : Controller :=
  set_lastVolumeData (Some quietVolume)
    (set_lastFrequencyData (Some quietBand) enabledController).

(** The same controller 100 ms after an actuation. *)
Definition justActuated : Controller :=
  set_lastVibrationTime 1700000000000 quietController.

Definition kickBeatEvent : BeatEvent :=
  {| b_detected := true; b_strength := 1; b_bpm := 0; b_confidence := 0;
     b_energy := Some (dec 1 185); b_kickEnergy := Some (dec 1 3);
     b_type := Some Kick |}.

(** A tick with a detected beat, a bass transient and a volume swell. *)
Definition loudTick : AudioData :=
  {| a_beat := Some kickBeatEvent;
     a_frequency := Some loudBand;
     a_volume := Some loudVolume |}.

(** *** Further methods *)

(** [stopVibration]: the actuator call is outside any [try], so that an
    exception leaves the method; [now] only stamps the recorded call. *)
Inductive Completion : Type :=
| Completed
| Threw.

Definition stopVibration (now : Z) (r : Reply) (c : Controller)
  : Completion * Controller * list Effect :=
  if isSupported c
  then
    match r with
    | Raised => (Threw, c, [NavigatorVibrate now (PNum 0) Raised])
    | Returned ok =>
        (Completed, set_isVibrating false c,
         [NavigatorVibrate now (PNum 0) (Returned ok)])
    end
  else (Completed, c, []).

(** [disable] *)
Definition disable (now : Z) (r : Reply) (c : Controller)
  : Completion * Controller * list Effect :=
  stopVibration now r (set_isEnabled false c).

(** [customVibration]: a number is wrapped into an array, and every entry
    is limited to [maxDuration]. *)
Definition limitPattern (c : Controller) (pattern : Pattern) : list num :=
  map (fun duration => JS.min duration (maxDuration (config c)))
      (match pattern with
       | PArr l => l
       | PNum n => [n]
       end).

Definition customVibration (e : Call) (pattern : Pattern) (c : Controller)
  : bool * Controller * list Effect :=
  vibrate e (PArr (limitPattern c pattern)) c.

(** [continuousVibration] for a finite [duration] ([None] is the default
    argument): [cycles] pairs of a pulse and a pause of 50 ms. *)
Definition continuousPattern (duration : Q) : list num :=
  concat (repeat [of_Z 50; of_Z 50] (Z.to_nat (Qfloor (duration / 100)))).

Definition continuousVibration (e : Call) (duration : option Q)
    (c : Controller) : bool * Controller * list Effect :=
  vibrate e
    (PArr (continuousPattern
             (match duration with
              | Some d => d
              | None => 1000
              end))) c.

(** [generateMusicVibration] *)
Record MusicFeatures : Type := mkFeatures {
  m_tempo : num;
  m_energy : num;
  m_valence : num;
  m_danceability : num
}.

Definition generateMusicVibration (musicFeatures : MusicFeatures)
  : list num :=
  let baseIntensity :=
    (m_energy musicFeatures * dec 8 10
     + m_danceability musicFeatures * dec 2 10)%num in
  let vibrationDuration := JS.floor (baseIntensity * 150)%num in
  let pauseDuration := JS.floor (60000 / m_tempo musicFeatures / 4)%num in
  [vibrationDuration; pauseDuration].

(** The calls a client can make on the object, each with what it reads
    from outside; [ReqTimer] is the timer armed by [vibrate] firing. *)
Inductive Request : Type :=
| ReqEnable
| ReqDisable (now : Z) (r : Reply)
| ReqVibrate (e : Call) (p : Pattern)
| ReqCustom (e : Call) (p : Pattern)
| ReqContinuous (e : Call) (duration : option Q)
| ReqProcess (k : TickEnv) (d : option AudioData)
| ReqTimer.

Definition serve (r : Request) (c : Controller) : list Effect * Controller :=
  match r with
  | ReqEnable => ([], snd (enable c))
  | ReqDisable now r => let '(_, c', out) := disable now r c in (out, c')
  | ReqVibrate e p => let '(_, c', out) := vibrate e p c in (out, c')
  | ReqCustom e p => let '(_, c', out) := customVibration e p c in (out, c')
  | ReqContinuous e d =>
      let '(_, c', out) := continuousVibration e d c in (out, c')
  | ReqProcess k d => let '(c', out) := processAudioData k d c in (out, c')
  | ReqTimer => ([], vibrationEnded c)
  end.

Definition isEnableRequest (r : Request) : bool :=
  match r with
  | ReqEnable => true
  | _ => false
  end.

(** A call [navigator.vibrate(0)]. *)
Definition isStopCall (x : Effect) : bool :=
  match x with
  | NavigatorVibrate _ (PNum n) _ => is_zero n
  | _ => false
  end.

(** The two [performance.now()] reads of a call are finite numbers. *)
Definition finiteClock (x : Call * Pattern) : bool :=
  is_finite (e_perfStart (fst x)) && is_finite (e_perfEnd (fst x)).

(** The latency record is within its bounds. *)
Definition latencyBounded (c : Controller) : bool :=
  (length (latencyHistory (syncState c)) <=? 20)%nat
  && forallb is_finite (latencyHistory (syncState c))
  && within 0 50 (latencyCompensation (config c)).

(** Requests for examples. *)
Definition sessionOfRequests : list Request :=
  [ReqVibrate (actuatorAccepts 1700000000000) (PNum 200);
   ReqProcess (tickAt 1700000000100) (Some loudTick);
   ReqCustom (actuatorAccepts 1700000000200) (PArr [of_Z 900; of_Z 50]);
   ReqContinuous (actuatorAccepts 1700000000300) None;
   ReqDisable 1700000000400 (Returned true);
   ReqTimer].

End VC.

(** ** js/audio-analyzer.js *)

Module AA.

Record Buffers : Type := mkBuffers {
  frequencyData : option (list Z);
  timeData : option (list Z);
  previousFrequencyData : option (list Z)
}.

Record BeatDetection : Type := mkBeatDetection {
  threshold : num;
  minInterval : Z;
  lastBeatTime : Z;
  energyHistory : list num;
  historySize : nat;
  variance : num;
  average : num
}.

Record FrequencyAnalysis : Type := mkFrequencyAnalysis {
  bassRange : num * num;
  midRange : num * num;
  trebleRange : num * num;
  bassLevel : num;
  midLevel : num;
  trebleLevel : num
}.

(** Of the Web Audio objects only what the analysis reads is kept: the
    sample rate of the context (positive) and the bin count of the analyser
    node. *)
Record AudioContext : Type := mkContext { sampleRate : positive }.
Record AnalyserNode : Type := mkAnalyser { frequencyBinCount : nat }.

Record Analyzer : Type := mkAnalyzer {
  audioContext : option AudioContext;
  analyserNode : option AnalyserNode;
  isInitialized : bool;
  buffers : Buffers;
  beatDetection : BeatDetection;
  frequencyAnalysis : FrequencyAnalysis;
  beatIntervals : option (list Z);
  lastBeatTimestamp : option Z
}.

Definition defaultBeatDetection : BeatDetection :=
  {| threshold := dec 13 10;
     minInterval := 300;
     lastBeatTime := 0;
     energyHistory := [];
     historySize := 43;
     variance := 0;
     average := 0 |}.

Definition defaultFrequencyAnalysis : FrequencyAnalysis :=
  {| bassRange := (of_Z 20, of_Z 250);
     midRange := (of_Z 250, of_Z 4000);
     trebleRange := (of_Z 4000, of_Z 20000);
     bassLevel := 0;
     midLevel := 0;
     trebleLevel := 0 |}.

(** The object built by the constructor. *)
Definition create : Analyzer :=
  {| audioContext := None;
     analyserNode := None;
     isInitialized := false;
     buffers := {| frequencyData := None; timeData := None;
                   previousFrequencyData := None |};
     beatDetection := defaultBeatDetection;
     frequencyAnalysis := defaultFrequencyAnalysis;
     beatIntervals := None;
     lastBeatTimestamp := None |}.

(** The object after a successful [init] (with [initBuffers]) on a context
    of sample rate [rate] and an analyser of [bins] bins. *)
Definition initialized (rate : positive) (bins : nat) : Analyzer :=
  {| audioContext := Some {| sampleRate := rate |};
     analyserNode := Some {| frequencyBinCount := bins |};
     isInitialized := true;
     buffers := {| frequencyData := Some (repeat 0 bins);
                   timeData := Some (repeat 0 bins);
                   previousFrequencyData := Some (repeat 0 bins) |};
     beatDetection := defaultBeatDetection;
     frequencyAnalysis := defaultFrequencyAnalysis;
     beatIntervals := None;
     lastBeatTimestamp := None |}.

Definition set_buffers (x : Buffers) (a : Analyzer) : Analyzer :=
  mkAnalyzer (audioContext a) (analyserNode a) (isInitialized a) x
    (beatDetection a) (frequencyAnalysis a) (beatIntervals a)
    (lastBeatTimestamp a).

Definition set_beatDetection (x : BeatDetection) (a : Analyzer) : Analyzer :=
  mkAnalyzer (audioContext a) (analyserNode a) (isInitialized a) (buffers a) x
    (frequencyAnalysis a) (beatIntervals a) (lastBeatTimestamp a).

Definition set_frequencyAnalysis (x : FrequencyAnalysis) (a : Analyzer)
  : Analyzer :=
  mkAnalyzer (audioContext a) (analyserNode a) (isInitialized a) (buffers a)
    (beatDetection a) x (beatIntervals a) (lastBeatTimestamp a).

Definition set_beatIntervals (x : option (list Z)) (a : Analyzer)
  : Analyzer :=
  mkAnalyzer (audioContext a) (analyserNode a) (isInitialized a) (buffers a)
    (beatDetection a) (frequencyAnalysis a) x (lastBeatTimestamp a).

Definition set_lastBeatTimestamp (x : option Z) (a : Analyzer) : Analyzer :=
  mkAnalyzer (audioContext a) (analyserNode a) (isInitialized a) (buffers a)
    (beatDetection a) (frequencyAnalysis a) (beatIntervals a) x.

Definition set_frequencyData (x : option (list Z)) (b : Buffers) : Buffers :=
  mkBuffers x (timeData b) (previousFrequencyData b).

Definition set_timeData (x : option (list Z)) (b : Buffers) : Buffers :=
  mkBuffers (frequencyData b) x (previousFrequencyData b).

Definition set_previousFrequencyData (x : option (list Z)) (b : Buffers)
  : Buffers :=
  mkBuffers (frequencyData b) (timeData b) x.

Definition set_lastBeatTime (x : Z) (d : BeatDetection) : BeatDetection :=
  mkBeatDetection (threshold d) (minInterval d) x (energyHistory d)
                  (historySize d) (variance d) (average d).

Definition set_energyHistory (x : list num) (d : BeatDetection)
  : BeatDetection :=
  mkBeatDetection (threshold d) (minInterval d) (lastBeatTime d) x
                  (historySize d) (variance d) (average d).

Definition set_statistics (avg var : num) (d : BeatDetection)
  : BeatDetection :=
  mkBeatDetection (threshold d) (minInterval d) (lastBeatTime d)
                  (energyHistory d) (historySize d) var avg.

Definition set_levels (b m tr : num) (f : FrequencyAnalysis)
  : FrequencyAnalysis :=
  mkFrequencyAnalysis (bassRange f) (midRange f) (trebleRange f) b m tr.

(** *** Computations on the object: state and exception *)

Inductive Outcome (A : Type) : Type :=
| Normal (a : A)
| Thrown.
Arguments Normal {A} a.
Arguments Thrown {A}.

Definition M (A : Type) : Type := Analyzer -> Outcome A * Analyzer.

Definition ret {A} (a : A) : M A := fun s => (Normal a, s).
Definition throw {A} : M A := fun s => (Thrown, s).
Definition bind {A B} (m : M A) (f : A -> M B) : M B :=
  fun s =>
    match m s with
    | (Normal a, s') => f a s'
    | (Thrown, s') => (Thrown, s')
    end.
Definition get : M Analyzer := fun s => (Normal s, s).
Definition modify (f : Analyzer -> Analyzer) : M unit :=
  fun s => (Normal tt, f s).

(** Reading a property of a value that may be [null]. *)
Definition deref {A} (o : option A) : M A :=
  match o with
  | Some a => ret a
  | None => throw
  end.

Declare Scope analyzer_scope.
Delimit Scope analyzer_scope with analyzer.
Notation "x <- c1 ;; c2" := (bind c1 (fun x => c2))
  (at level 61, c1 at next level, right associativity) : analyzer_scope.
Notation "c1 ;;; c2" := (bind c1 (fun _ => c2))
  (at level 61, right associativity) : analyzer_scope.
Open Scope analyzer_scope.

(** *** Arrays and loops *)

(** [data[i] / 255]; reading outside the array gives [undefined], and
    [undefined / 255] is [NaN]. *)
Definition magnitude (data : list Z) (i : Z) : num :=
  if i <? 0 then NaN
  else match nth_error data (Z.to_nat i) with
       | Some b => (of_Z b / 255)%num
       | None => NaN
       end.

(** The indices visited by [for (i = lo; i < hi; i++)]. *)
Definition range (lo hi : Z) : list Z :=
  map (fun k => lo + Z.of_nat k) (seq 0 (Z.to_nat (hi - lo))).

(** [Math.floor(hz * binCount / (sampleRate / 2))]: finite, since the sample
    rate is positive. *)
Definition binOf (hz : Q) (binCount : nat) (rate : positive) : Z :=
  Qfloor (hz * inject_Z (Z.of_nat binCount) / (inject_Z (Zpos rate) / 2)).

(** What [getByteFrequencyData] and [getByteTimeDomainData] leave in the
    array they are given, when the node holds [frame]: excess elements of
    the frame are dropped, excess elements of the array are kept. *)
Definition fill (array frame : list Z) : list Z :=
  firstn (length array) frame ++ skipn (length frame) array.

(** [getByteFrequencyData(this.buffers.frequencyData)] and
    [getByteTimeDomainData(this.buffers.timeData)]: passing [null] raises a
    TypeError. *)
Definition getByteFrequencyData (frame : list Z) : M unit :=
  s <- get ;;
  array <- deref (frequencyData (buffers s)) ;;
  modify (set_buffers
            (set_frequencyData (Some (fill array frame)) (buffers s))).

Definition getByteTimeDomainData (frame : list Z) : M unit :=
  s <- get ;;
  array <- deref (timeData (buffers s)) ;;
  modify (set_buffers (set_timeData (Some (fill array frame)) (buffers s))).

(** *** [calculateVolume] *)

Section Volume.

(** [Math.sqrt], which has no exact rational model, is left abstract. *)
Variable sqrt : num -> num.

Definition volumeStep (acc : num * num) (b : Z) : num * num :=
  let value := (JS.abs (of_Z b - 128) / 128)%num in
  ((fst acc + value)%num, JS.max (snd acc) value).

Definition calculateVolume : M VolumeData :=
  s <- get ;;
  data <- deref (timeData (buffers s)) ;;
  let acc := fold_left volumeStep data (of_Z 0, of_Z 0) in
  let sum := fst acc in
  let max := snd acc in
  let average := (sum / of_nat (length data))%num in
  let rms := sqrt (sum / of_nat (length data))%num in
  ret {| v_average := average;
         v_max := max;
         v_rms := rms;
         v_level := JS.min (rms * 2)%num 1 |}.

End Volume.

(** *** [analyzeFrequency] *)

Record BandSums : Type := mkSums {
  bassSum : num; bassCount : nat;
  midSum : num; midCount : nat;
  trebleSum : num; trebleCount : nat;
  peakFrequency : num; peakValue : num;
  totalEnergy : num
}.

Definition noSums : BandSums := mkSums 0 0 0 0 0 0 0 0 0.

Definition inRange (frequency : num) (r : num * num) : bool :=
  (frequency >=? fst r)%num && (frequency <=? snd r)%num.

(** The body of the first loop of [analyzeFrequency] at bin [i]. *)
Definition bandStep (fa : FrequencyAnalysis) (data : list Z) (binSize : num)
    (a : BandSums) (i : Z) : BandSums :=
  let frequency := (of_Z i * binSize)%num in
  let value := magnitude data i in
  let total := (totalEnergy a + value * value)%num in
  let a1 :=
    if inRange frequency (bassRange fa)
    then mkSums (bassSum a + value)%num (S (bassCount a)) (midSum a)
                (midCount a) (trebleSum a) (trebleCount a)
                (peakFrequency a) (peakValue a) total
    else if inRange frequency (midRange fa)
    then mkSums (bassSum a) (bassCount a) (midSum a + value)%num
                (S (midCount a)) (trebleSum a) (trebleCount a)
                (peakFrequency a) (peakValue a) total
    else if inRange frequency (trebleRange fa)
    then mkSums (bassSum a) (bassCount a) (midSum a) (midCount a)
                (trebleSum a + value)%num (S (trebleCount a))
                (peakFrequency a) (peakValue a) total
    else mkSums (bassSum a) (bassCount a) (midSum a) (midCount a)
                (trebleSum a) (trebleCount a)
                (peakFrequency a) (peakValue a) total in
  if (value >? peakValue a1)%num
  then mkSums (bassSum a1) (bassCount a1) (midSum a1) (midCount a1)
              (trebleSum a1) (trebleCount a1) frequency value
              (totalEnergy a1)
  else a1.

(** The body of the second loop (spectral centroid). *)
Definition centroidStep (data : list Z) (binSize : num) (a : num * num)
    (i : Z) : num * num :=
  let frequency := (of_Z i * binSize)%num in
  let magnitude := magnitude data i in
  ((fst a + frequency * magnitude)%num, (snd a + magnitude)%num).

(** [maxBin]: [Math.floor(Math.min(5000, sampleRate / 2) * binCount /
    (sampleRate / 2))]. *)
Definition maxBinOf (binCount : nat) (rate : positive) : Z :=
  binOf (Qmin 5000 (inject_Z (Zpos rate) / 2)) binCount rate.

Definition meanOrZero (sum : num) (count : nat) : num :=
  if (0 <? count)%nat then (sum / of_nat count)%num else 0.

Definition analyzeFrequency : M FrequencyData :=
  s <- get ;;
  ctx <- deref (audioContext s) ;;
  data <- deref (frequencyData (buffers s)) ;;
  let rate := sampleRate ctx in
  let binCount := length data in
  let binSize := (of_Z (Zpos rate) / (2 * of_nat binCount))%num in
  let maxBin := maxBinOf binCount rate in
  let fa := frequencyAnalysis s in
  let a := fold_left (bandStep fa data binSize) (range 1 maxBin) noSums in
  let bass := meanOrZero (bassSum a) (bassCount a) in
  let mid := meanOrZero (midSum a) (midCount a) in
  let treble := meanOrZero (trebleSum a) (trebleCount a) in
  modify (set_frequencyAnalysis (set_levels bass mid treble fa)) ;;;
  let c := fold_left (centroidStep data binSize) (range 1 maxBin)
                     (of_Z 0, of_Z 0) in
  let spectralCentroid :=
    if (snd c >? 0)%num then (fst c / snd c)%num else of_Z 0 in
  ret {| f_bass := bass;
         f_mid := mid;
         f_treble := treble;
         f_peak := peakFrequency a;
         f_peakValue := peakValue a;
         f_totalEnergy := (totalEnergy a / of_Z maxBin)%num;
         f_spectralCentroid := spectralCentroid;
         f_brightness := (treble / (bass + dec 1 1000))%num |}.

(** *** [calculateEnergy] *)

Record EnergyData : Type := mkEnergy {
  en_total : num;
  en_bass : num;
  en_kick : num
}.

Definition energyStep (data : list Z) (kickStartBin kickEndBin bassStartBin
    bassEndBin : Z) (a : EnergyData) (i : Z) : EnergyData :=
  let value := magnitude data i in
  let energyValue := (value * value)%num in
  {| en_total := (en_total a + energyValue)%num;
     en_bass := if (bassStartBin <=? i) && (i <=? bassEndBin)
                then (en_bass a + energyValue)%num else en_bass a;
     en_kick := if (kickStartBin <=? i) && (i <=? kickEndBin)
                then (en_kick a + energyValue)%num else en_kick a |}.

Definition calculateEnergy : M EnergyData :=
  s <- get ;;
  data <- deref (frequencyData (buffers s)) ;;
  ctx <- deref (audioContext s) ;;
  let rate := sampleRate ctx in
  let binCount := length data in
  let startBin := binOf 20 binCount rate in
  let endBin := binOf 4000 binCount rate in
  let kickStartBin := binOf 60 binCount rate in
  let kickEndBin := binOf 120 binCount rate in
  let bassStartBin := binOf 20 binCount rate in
  let bassEndBin := binOf 250 binCount rate in
  let a := fold_left
             (energyStep data kickStartBin kickEndBin bassStartBin bassEndBin)
             (range startBin (Z.min endBin (Z.of_nat binCount)))
             (mkEnergy 0 0 0) in
  ret {| en_total := (en_total a / of_Z (endBin - startBin))%num;
         en_bass := (en_bass a / of_Z (bassEndBin - bassStartBin))%num;
         en_kick := (en_kick a / of_Z (kickEndBin - kickStartBin))%num |}.

(** *** [estimateBPM] *)

(** [[...xs].sort((a, b) => a - b)] on integers. *)
Fixpoint insertSorted (x : Z) (l : list Z) : list Z :=
  match l with
  | [] => [x]
  | y :: l' => if x <=? y then x :: l else y :: insertSorted x l'
  end.

Definition sortAscending (l : list Z) : list Z :=
  fold_right insertSorted [] l.

Definition sumIntervals (l : list Z) : num :=
  fold_left (fun sum interval => rounded (sum + of_Z interval)%num)
            l (of_Z 0).

(** The interval list after the recording step; [last] is
    [this.lastBeatTimestamp], which is tested for truthiness. *)
Definition recordInterval (minInterval currentTime : Z) (last : option Z)
    (intervals : list Z) : list Z :=
  match last with
  | Some lastBeatTimestamp =>
      if lastBeatTimestamp =? 0 then intervals
      else
        let interval := currentTime - lastBeatTimestamp in
        if (minInterval <=? interval) && (interval <=? 2000)
        then
          let pushed := intervals ++ [interval] in
          if (20 <? length pushed)%nat then tl pushed else pushed
        else intervals
  | None => intervals
  end.

(** The value computed from the stored intervals.  [Math.round] is applied
    to a double, and the result depends on its last bit when the quotient
    is near a half: every operation of the formula is rounded to binary64
    and [0.7], [0.3] are the nearest doubles.  (The intervals are integers,
    hence doubles.) *)
Definition bpmOf (intervals : list Z) : num :=
  if (4 <=? length intervals)%nat
  then
    let sortedIntervals := sortAscending intervals in
    let medianInterval :=
      match nth_error sortedIntervals (length sortedIntervals / 2) with
      | Some m => of_Z m
      | None => NaN
      end in
    let avgInterval :=
      rounded (sumIntervals intervals / of_nat (length intervals))%num in
    let finalInterval :=
      rounded (rounded (medianInterval * lit 7 10)
               + rounded (avgInterval * lit 3 10))%num in
    let bpm := JS.round (rounded (60000 / finalInterval)%num) in
    JS.max 60 (JS.min 200 bpm)
  else 0.

(** [estimateBPM]; [currentTime] is its [Date.now()]. *)
Definition estimateBPM (currentTime : Z) : M num :=
  s <- get ;;
  let intervals0 :=
    match beatIntervals s with Some l => l | None => [] end in
  let intervals :=
    recordInterval (minInterval (beatDetection s)) currentTime
                   (lastBeatTimestamp s) intervals0 in
  modify (fun s => set_lastBeatTimestamp (Some currentTime)
                     (set_beatIntervals (Some intervals) s)) ;;;
  ret (bpmOf intervals).

(** *** [detectBeat] *)

(** The object returned while the minimum interval has not elapsed. *)
Definition pausedEvent : BeatEvent :=
  {| b_detected := false; b_strength := 0; b_bpm := 0; b_confidence := 0;
     b_energy := None; b_kickEnergy := None; b_type := None |}.

(** [push] followed by the [shift] taken when the history has grown past
    [historySize]. *)
Definition pushEnergy (size : nat) (e : num) (h : list num) : list num :=
  let h' := h ++ [e] in
  if (size <? length h')%nat then tl h' else h'.

Definition sumSquares (avg : num) (h : list num) : num :=
  fold_left (fun sum value => (sum + (value - avg) * (value - avg))%num)
            h (of_Z 0).

(** The statistics step: recomputed only once the history is full. *)
Definition updateStatistics (d : BeatDetection) : BeatDetection :=
  if (historySize d <=? length (energyHistory d))%nat
  then
    let avg := (JS.sum (energyHistory d)
                / of_nat (length (energyHistory d)))%num in
    let var := (sumSquares avg (energyHistory d)
                / of_nat (length (energyHistory d)))%num in
    set_statistics avg var d
  else d.

(** The history and statistics after the energy of the current frame has
    been recorded. *)
Definition recordEnergy (currentEnergy : num) (d : BeatDetection)
  : BeatDetection :=
  updateStatistics
    (set_energyHistory
       (pushEnergy (historySize d) currentEnergy (energyHistory d)) d).

(** The two detection paths, on the updated statistics. *)
Definition energyThreshold (d : BeatDetection) : num :=
  (average d * threshold d)%num.

Definition kickThreshold (d : BeatDetection) : num :=
  (average d * dec 8 10)%num.

Definition energyBeat (d : BeatDetection) (currentEnergy : num) : bool :=
  (currentEnergy >? energyThreshold d)%num && (variance d >? dec 1 100)%num.

Definition kickBeat (d : BeatDetection) (kickEnergy : num) : bool :=
  (kickEnergy >? kickThreshold d)%num.

(** The object returned for a detected beat. *)
Definition detectedEvent (d : BeatDetection) (currentEnergy kickEnergy bpm
    : num) : BeatEvent :=
  let energyStrength :=
    if energyBeat d currentEnergy
    then ((currentEnergy - energyThreshold d) / energyThreshold d)%num
    else of_Z 0 in
  let kickStrength :=
    if kickBeat d kickEnergy
    then ((kickEnergy - kickThreshold d) / kickThreshold d)%num
    else of_Z 0 in
  let strength := JS.min (JS.max energyStrength kickStrength) 1 in
  {| b_detected := true;
     b_strength := strength;
     b_bpm := bpm;
     b_confidence := JS.min (variance d * 10)%num 1;
     b_energy := Some currentEnergy;
     b_kickEnergy := Some kickEnergy;
     b_type := Some (if kickBeat d kickEnergy then Kick else Energy) |}.

(** The object returned when neither path fires. *)
Definition quietEvent (currentEnergy kickEnergy : num) : BeatEvent :=
  {| b_detected := false; b_strength := 0; b_bpm := 0; b_confidence := 0;
     b_energy := Some currentEnergy;
     b_kickEnergy := Some kickEnergy;
     b_type := None |}.

(** [detectBeat]; [currentTime] is its [Date.now()] and [bpmTime] the one
    read by [estimateBPM]. *)
Definition detectBeat (currentTime bpmTime : Z) : M BeatEvent :=
  s <- get ;;
  if currentTime - lastBeatTime (beatDetection s)
     <? minInterval (beatDetection s)
  then ret pausedEvent
  else
    energyData <- calculateEnergy ;;
    let currentEnergy := en_total energyData in
    let kickEnergy := en_kick energyData in
    let d := recordEnergy currentEnergy (beatDetection s) in
    modify (set_beatDetection d) ;;;
    if energyBeat d currentEnergy || kickBeat d kickEnergy
    then
      modify (set_beatDetection (set_lastBeatTime currentTime d)) ;;;
      bpm <- estimateBPM bpmTime ;;
      ret (detectedEvent d currentEnergy kickEnergy bpm)
    else
      ret (quietEvent currentEnergy kickEnergy).

(** *** [updateHistory] and [calculateSpectralFlux] *)

(** [previousFrequencyData.set(frequencyData)]: a TypeError on [null], a
    RangeError when the source is longer than the target. *)
Definition updateHistory : M unit :=
  s <- get ;;
  previous <- deref (previousFrequencyData (buffers s)) ;;
  current <- deref (frequencyData (buffers s)) ;;
  if (length previous <? length current)%nat then throw
  else
    modify (set_buffers
              (set_previousFrequencyData
                 (Some (current ++ skipn (length current) previous))
                 (buffers s))).

Definition fluxStep (current previous : list Z) (flux : num) (i : Z) : num :=
  let currentMagnitude := magnitude current i in
  let previousMagnitude := magnitude previous i in
  let diff := (currentMagnitude - previousMagnitude)%num in
  if (diff >? 0)%num then (flux + diff)%num else flux.

(** The flux of frame [current] against frame [previous], as the body of
    [calculateSpectralFlux] computes it. *)
Definition spectralFluxOf (rate : positive) (current previous : list Z)
  : num :=
  let startBin := binOf 20 (length current) rate in
  let endBin := binOf 4000 (length current) rate in
  let flux :=
    fold_left (fluxStep current previous)
              (range startBin (Z.min endBin (Z.of_nat (length current))))
              (of_Z 0) in
  (flux / of_Z (endBin - startBin))%num.

Definition calculateSpectralFlux : M num :=
  s <- get ;;
  match previousFrequencyData (buffers s) with
  | None => ret (of_Z 0)
  | Some previous =>
      current <- deref (frequencyData (buffers s)) ;;
      ctx <- deref (audioContext s) ;;
      ret (spectralFluxOf (sampleRate ctx) current previous)
  end.

(** *** [getAnalysisData] *)

(** [try { body } catch (error) { handler }] *)
Definition tryCatch {A} (body handler : M A) : M A :=
  fun s =>
    match body s with
    | (Normal a, s') => (Normal a, s')
    | (Thrown, s') => handler s'
    end.

(** What one call of [getAnalysisData] reads from outside the object: the
    two frames held by the analyser node and three clock reads (in
    [detectBeat], in [estimateBPM], and for the [timestamp] property). *)
Record Tick : Type := mkTick {
  e_frequencyFrame : list Z;
  e_timeFrame : list Z;
  e_nowBeat : Z;
  e_nowBpm : Z;
  e_nowStamp : Z
}.

Section Analysis.

Variable sqrt : num -> num.

(** The [try] block of [getAnalysisData].  The local [spectralFlux] is not
    part of the returned object; it is returned here next to it. *)
Definition analysisPass (e : Tick) : M (AnalysisResult * num) :=
  getByteFrequencyData (e_frequencyFrame e) ;;;
  getByteTimeDomainData (e_timeFrame e) ;;;
  volume <- calculateVolume sqrt ;;
  frequency <- analyzeFrequency ;;
  beat <- detectBeat (e_nowBeat e) (e_nowBpm e) ;;
  updateHistory ;;;
  spectralFlux <- calculateSpectralFlux ;;
  ret ({| r_volume := volume;
          r_frequency := frequency;
          r_beat := beat;
          r_timestamp := e_nowStamp e |}, spectralFlux).

(** [getAnalysisData]: [None] is the [null] of the source. *)
Definition getAnalysisData (e : Tick) : M (option AnalysisResult) :=
  s <- get ;;
  if negb (isInitialized s)
     || match analyserNode s with None => true | Some _ => false end
  then ret None
  else
    tryCatch (r <- analysisPass e ;; ret (Some (fst r))) (ret None).

(** The value of the local [spectralFlux] of one call, when the [try] block
    reaches it. *)
Definition tickSpectralFlux (e : Tick) (s : Analyzer) : option num :=
  match analysisPass e s with
  | (Normal r, _) => Some (snd r)
  | (Thrown, _) => None
  end.

End Analysis.

(** *** Observations and reference definitions used in the statements *)

Definition beatOf (o : Outcome (option AnalysisResult)) : option BeatEvent :=
  match o with
  | Normal (Some r) => Some (r_beat r)
  | _ => None
  end.

Definition beatDetected (o : Outcome (option AnalysisResult)) : bool :=
  match beatOf o with
  | Some b => b_detected b
  | None => false
  end.

Definition storedIntervals (s : Analyzer) : list Z :=
  match beatIntervals s with Some l => l | None => [] end.

(** The statistics named by the tempo formula.  The median is the element
    at index [floor(n / 2)] of the sorted list: for an even [n], the upper
    of the two middle elements. *)
Definition upperMedian (l : list Z) : num :=
  match nth_error (sortAscending l) (length l / 2) with
  | Some m => of_Z m
  | None => NaN
  end.

(** The mean and the blend [0.7 * median + 0.3 * mean] in binary64
    arithmetic. *)
Definition meanInterval (l : list Z) : num :=
  rounded (sumIntervals l / of_nat (length l))%num.

Definition blendedInterval (l : list Z) : num :=
  rounded (rounded (upperMedian l * lit 7 10)
           + rounded (meanInterval l * lit 3 10))%num.

Definition clamp (lo hi x : num) : num := JS.max lo (JS.min hi x).

(** The tempo as the specification words it: the formula in exact
    arithmetic, not rounded to an integer. *)
Definition claimedBPM (l : list Z) : num :=
  clamp 60 200
    (60000 / (upperMedian l * dec 7 10
              + JS.sum (map of_Z l) / of_nat (length l) * dec 3 10))%num.

(** The tempo with the roundings of the source: the double quotient, then
    [Math.round]. *)
Definition roundedBPM (l : list Z) : num :=
  clamp 60 200 (JS.round (rounded (60000 / blendedInterval l)%num)).

(** [binIndex * sampleRate / (2 * binCount)] *)
Definition binFrequency (rate : positive) (binCount : nat) (i : Z) : num :=
  (of_Z i * (of_Z (Zpos rate) / (2 * of_nat binCount)))%num.

(** The arithmetic mean of the magnitudes of the listed bins ([0] for no
    bin). *)
Definition meanMagnitude (data : list Z) (bins : list Z) : num :=
  meanOrZero (JS.sum (map (magnitude data) bins)) (length bins).

Definition allBins (data : list Z) : list Z :=
  range 0 (Z.of_nat (length data)).

(** The bins the first loop of [analyzeFrequency] visits. *)
Definition visitedBins (rate : positive) (data : list Z) : list Z :=
  range 1 (maxBinOf (length data) rate).

(** A band energy as the specification words it: the mean over every bin of
    the frame whose frequency lies in the band. *)
Definition claimedBand (rate : positive) (data : list Z) (r : num * num)
  : num :=
  meanMagnitude data
    (filter (fun i => inRange (binFrequency rate (length data) i) r)
            (allBins data)).

(** The three branches of the band statistics: a bin is counted in the
    first band, in the order bass, mid, treble, that contains its
    frequency. *)
Definition isBass (fa : FrequencyAnalysis) (rate : positive)
    (data : list Z) (i : Z) : bool :=
  inRange (binFrequency rate (length data) i) (bassRange fa).

Definition isMid (fa : FrequencyAnalysis) (rate : positive)
    (data : list Z) (i : Z) : bool :=
  negb (inRange (binFrequency rate (length data) i) (bassRange fa))
  && inRange (binFrequency rate (length data) i) (midRange fa).

Definition isTreble (fa : FrequencyAnalysis) (rate : positive)
    (data : list Z) (i : Z) : bool :=
  negb (inRange (binFrequency rate (length data) i) (bassRange fa))
  && negb (inRange (binFrequency rate (length data) i) (midRange fa))
  && inRange (binFrequency rate (length data) i) (trebleRange fa).

(** An object on which no step of [getAnalysisData] can raise: initialised,
    with its context, its node and its three buffers, the history buffer at
    least as long as the frequency buffer. *)
Definition ready (s : Analyzer) : bool :=
  isInitialized s
  && match analyserNode s, audioContext s with
     | Some _, Some _ =>
         match frequencyData (buffers s), timeData (buffers s),
               previousFrequencyData (buffers s) with
         | Some f, Some _, Some p => (length f <=? length p)%nat
         | _, _, _ => false
         end
     | _, _ => false
     end.

(** Relations between the object before and after a computation. *)
Definition relates (R : Analyzer -> Analyzer -> Prop) {A} (m : M A) : Prop :=
  forall s, R s (snd (m s)).

Definition sameBeat (s s' : Analyzer) : Prop :=
  beatDetection s' = beatDetection s.

Definition pauseGrows (s s' : Analyzer) : Prop :=
  minInterval (beatDetection s') = minInterval (beatDetection s)
  /\ (0 <= minInterval (beatDetection s) ->
      lastBeatTime (beatDetection s) <= lastBeatTime (beatDetection s')).

Definition sameDevice (s s' : Analyzer) : Prop :=
  isInitialized s' = isInitialized s
  /\ analyserNode s' = analyserNode s
  /\ audioContext s' = audioContext s
  /\ buffers s' = buffers s.

(** *** Inputs for examples *)

(** A frame of [bins] bytes, all [0] but the byte [v] at index [i]. *)
Definition frameWith (bins : nat) (i : nat) (v : Z) : list Z :=
  repeat 0 i ++ [v] ++ repeat 0 (bins - i - 1).

(** A tick at time [now] whose analyser holds [frame] and a silent
    time-domain signal. *)
Definition tickWith (frame : list Z) (now : Z) : Tick :=
  {| e_frequencyFrame := frame;
     e_timeFrame := repeat 128 (length frame);
     e_nowBeat := now; e_nowBpm := now; e_nowStamp := now |}.

(** Frames of 1024 bins (transform size 2048) at 44100 Hz: silence, one
    full-scale bin in the kick band (bin 3, 64.6 Hz), one in the bass band
    (bin 10, 215 Hz), one far above 5000 Hz (bin 500, 10.8 kHz). *)
Definition quietFrame : list Z := repeat 0 1024.
Definition kickFrame : list Z := frameWith 1024 3 255.
Definition onsetFrame : list Z := frameWith 1024 10 255.
Definition highFrame : list Z := frameWith 1024 500 255.

(** A stand-in for [Math.sqrt] to run examples: the root rounded down to
    six decimals.  No statement below depends on it. *)
Definition sqrtLower (a : num) : num :=
  match a with
  | Fin q =>
      if Qltb q 0 then NaN
      else fin (Z.sqrt (Qfloor (q * 1000000000000)) # 1000000)
  | PInf => PInf
  | NInf | NaN => NaN
  end.

(** *** Further methods *)

(** The elements of a [Uint8Array]. *)
Definition isByte (b : Z) : bool := (0 <=? b) && (b <=? 255).

Definition bytes (data : list Z) : bool := forallb isByte data.

(** [getFrequencyData] and [getTimeData]: [None] is the [null] of the
    source; the node is read without a test, so that a missing node raises
    a TypeError. *)
Definition getFrequencyData (frame : list Z) : M (option (list Z)) :=
  s <- get ;;
  if negb (isInitialized s) then ret None
  else
    deref (analyserNode s) ;;;
    getByteFrequencyData frame ;;;
    s' <- get ;;
    ret (frequencyData (buffers s')).

Definition getTimeData (frame : list Z) : M (option (list Z)) :=
  s <- get ;;
  if negb (isInitialized s) then ret None
  else
    deref (analyserNode s) ;;;
    getByteTimeDomainData frame ;;;
    s' <- get ;;
    ret (timeData (buffers s')).

(** [cleanup]; [contextClosed] is [this.audioContext.state === 'closed'],
    read when there is a context. *)
Definition cleanup (contextClosed : bool) (s : Analyzer) : Analyzer :=
  mkAnalyzer
    (match audioContext s with
     | Some ctx => if contextClosed then Some ctx else None
     | None => None
     end)
    None false (buffers s) (beatDetection s) (frequencyAnalysis s)
    (beatIntervals s) (lastBeatTimestamp s).

(** [detectBeatWithSpectralFlux].  The method keeps its history in a
    property the constructor does not create; the object is extended with
    it, [None] while it is undefined.  The method returns [false] until ten
    values are known, and an object afterwards. *)
Record FluxAnalyzer : Type := mkFluxAnalyzer {
  analyzer : Analyzer;
  spectralFluxHistory : option (list num)
}.

Inductive FluxBeat : Type :=
| FluxFalse
| FluxReport (detected : bool) (strength flux fluxThreshold : num).

(** [currentTime] is the [Date.now()] read after the warm-up test. *)
Definition detectBeatWithSpectralFlux (currentTime : Z) (x : FluxAnalyzer)
  : Outcome FluxBeat * FluxAnalyzer :=
  match calculateSpectralFlux (analyzer x) with
  | (Thrown, s) => (Thrown, mkFluxAnalyzer s (spectralFluxHistory x))
  | (Normal flux, s) =>
      let history :=
        pushEnergy 43 flux
          (match spectralFluxHistory x with
           | Some h => h
           | None => []
           end) in
      if (length history <? 10)%nat
      then (Normal FluxFalse, mkFluxAnalyzer s (Some history))
      else
        let recentFlux := skipn (length history - 10) history in
        let avgFlux := (JS.sum recentFlux / of_nat (length recentFlux))%num in
        let fluxThreshold := (avgFlux * dec 15 10)%num in
        if (flux >? fluxThreshold)%num
           && (minInterval (beatDetection s)
               <? currentTime - lastBeatTime (beatDetection s))
        then
          (Normal (FluxReport true (JS.min (flux / fluxThreshold) 2) flux
                              fluxThreshold),
           mkFluxAnalyzer
             (set_beatDetection
                (set_lastBeatTime currentTime (beatDetection s)) s)
             (Some history))
        else
          (Normal (FluxReport false 0 flux fluxThreshold),
           mkFluxAnalyzer s (Some history))
  end.

Definition fluxDetected (o : Outcome FluxBeat) : bool :=
  match o with
  | Normal (FluxReport detected _ _ _) => detected
  | _ => false
  end.

Definition fluxHistory (x : FluxAnalyzer) : list num :=
  match spectralFluxHistory x with
  | Some h => h
  | None => []
  end.

(** *** Further observations *)

(** The two histories of the beat detector are within their bounds: at
    most [historySize] energies, at most 20 intervals, each between
    [minInterval] and 2000 ms. *)
Definition historiesBounded (s : Analyzer) : bool :=
  (length (energyHistory (beatDetection s))
   <=? historySize (beatDetection s))%nat
  && (length (storedIntervals s) <=? 20)%nat
  && forallb (fun i => (minInterval (beatDetection s) <=? i) && (i <=? 2000))
             (storedIntervals s).

(** A computation preserves [P]. *)
Definition keeps (P : Analyzer -> bool) (s s' : Analyzer) : Prop :=
  P s = true -> P s' = true.

(** A computation leaves the whole state of the beat detector alone. *)
Definition sameRhythm (s s' : Analyzer) : Prop :=
  beatDetection s' = beatDetection s
  /\ beatIntervals s' = beatIntervals s
  /\ lastBeatTimestamp s' = lastBeatTimestamp s.

(** No byte of [current] is above the byte of [previous] at the same
    index. *)
Definition noIncrease (current previous : list Z) : bool :=
  (length current =? length previous)%nat
  && forallb (fun p => fst p <=? snd p) (combine current previous).

(** The method returned [false] or raised. *)
Definition noFluxReport (o : Outcome FluxBeat) : bool :=
  match o with
  | Normal FluxFalse => true
  | Normal (FluxReport _ _ _ _) => false
  | Thrown => true
  end.

(** *** Further inputs for examples *)

(** An initialised object whose analyser has just delivered the onset
    frame, the previous frame being silence. *)
Definition onsetAnalyzer : Analyzer :=
  snd (getByteFrequencyData onsetFrame (initialized 44100 1024)).

(** The same with nine silent values in the flux history. *)
Definition warmFluxAnalyzer : FluxAnalyzer :=
  {| analyzer := onsetAnalyzer;
     spectralFluxHistory := Some (repeat (of_Z 0) 9) |}.

End AA.

(** * Properties *)

(** ** Facts about numbers *)

Lemma leb_of_Z (a b : Z) : JS.leb (of_Z a) (of_Z b) = (a <=? b).
Proof.
  unfold JS.leb, of_Z, Qle_bool, inject_Z. simpl.
  rewrite !Z.mul_1_r. reflexivity.
Qed.

Lemma min_of_Z (a b : Z) : JS.min (of_Z a) (of_Z b) = of_Z (Z.min a b).
Proof.
  pose proof (leb_of_Z a b) as H. unfold JS.min, of_Z in *.
  cbv beta iota. rewrite H.
  destruct (Z.leb_spec a b); do 2 f_equal; lia.
Qed.

Lemma max_of_Z (a b : Z) : JS.max (of_Z a) (of_Z b) = of_Z (Z.max a b).
Proof.
  pose proof (leb_of_Z a b) as H. unfold JS.max, of_Z in *.
  cbv beta iota. rewrite H.
  destruct (Z.leb_spec a b); do 2 f_equal; lia.
Qed.

(** Rounding then clamping any number but [NaN] gives an integer of the
    clamp range. *)
Lemma clamp_round_range (a : num) :
  a <> NaN ->
  exists z, 60 <= z <= 200 /\ JS.max 60 (JS.min 200 (JS.round a)) = of_Z z.
Proof.
  intros Ha. destruct a as [x| | |].
  - unfold round. rewrite min_of_Z, max_of_Z.
    eexists; split; [|reflexivity]. lia.
  - exists 200. split; [lia|reflexivity].
  - exists 60. split; [lia|reflexivity].
  - congruence.
Qed.

Lemma sub_self_not_positive (a : num) : (a - a >? 0)%num = false.
Proof.
  destruct a as [q| | |]; try reflexivity.
  unfold JS.sub, JS.neg, JS.add, fin, JS.gtb, JS.ltb, of_Z, Qltb.
  apply negb_false_iff, Qle_bool_iff.
  rewrite !Qred_correct. rewrite Qplus_opp_r. apply Qle_refl.
Qed.

Lemma zero_div (y : Q) :
  (of_Z 0 / Fin y)%num = of_Z 0 \/ (of_Z 0 / Fin y)%num = NaN.
Proof.
  unfold JS.div, of_Z. destruct (Qeq_bool y 0); [right; reflexivity|left].
  reflexivity.
Qed.

Lemma div_fin_of_nat (q : Q) (n : nat) :
  (0 < n)%nat -> exists r, (Fin q / of_nat n)%num = Fin r.
Proof.
  intros Hn. unfold JS.div, of_nat, of_Z.
  destruct (Qeq_bool (inject_Z (Z.of_nat n)) 0) eqn:E; [|unfold fin; eauto].
  apply Qeq_bool_eq in E. unfold Qeq in E. simpl in E. lia.
Qed.

Lemma fold_left_unchanged {A B} (f : A -> B -> A) (l : list B) (a : A) :
  (forall x b, In b l -> f x b = x) -> fold_left f l a = a.
Proof.
  induction l as [|b l IH]; intros H; simpl; [reflexivity|].
  rewrite H by (left; reflexivity). apply IH.
  intros x b' Hb. apply H. right; exact Hb.
Qed.

(** ** Facts about ranges *)

Lemma is_finite_spec (a : num) : is_finite a = true <-> exists q, a = Fin q.
Proof.
  destruct a as [q| | |]; simpl; split; intros H; eauto;
    try discriminate; destruct H as [q H]; discriminate.
Qed.

Lemma within_spec (lo hi : Z) (a : num) :
  within (of_Z lo) (of_Z hi) a = true
  <-> exists q, a = Fin q /\ (inject_Z lo <= q)%Q /\ (q <= inject_Z hi)%Q.
Proof.
  unfold within, JS.leb, of_Z. destruct a as [q| | |].
  - rewrite andb_true_iff, !Qle_bool_iff. split.
    + intros [H1 H2]. eauto.
    + intros (q' & E & H1 & H2). inversion E; subst. auto.
  - split; [rewrite andb_false_r; discriminate|].
    intros (q' & E & _); discriminate.
  - split; [discriminate|]. intros (q' & E & _); discriminate.
  - split; [discriminate|]. intros (q' & E & _); discriminate.
Qed.

Lemma leb_refl (a : num) : a <> NaN -> JS.leb a a = true.
Proof.
  destruct a; try reflexivity; [|congruence].
  intros _. simpl. apply Qle_bool_iff. apply Qle_refl.
Qed.

Lemma Qltb_false (x y : Q) : Qltb x y = false <-> (y <= x)%Q.
Proof.
  unfold Qltb. rewrite negb_false_iff. apply Qle_bool_iff.
Qed.

Lemma Qltb_true (x y : Q) : Qltb x y = true <-> (x < y)%Q.
Proof.
  unfold Qltb. rewrite negb_true_iff. split.
  - intros H. apply Qnot_le_lt. intros L. apply Qle_bool_iff in L.
    congruence.
  - intros H. destruct (Qle_bool y x) eqn:E; [|reflexivity].
    apply Qle_bool_iff in E. exfalso. exact (Qlt_not_le _ _ H E).
Qed.

(** [Math.min(x, m)] is never above [m], [Math.max(lo, x)] never below
    [lo]. *)
Lemma min_not_above (x m : num) : (JS.min x m >? m)%num = false.
Proof.
  unfold JS.gtb, JS.min.
  destruct x as [x| | |], m as [m| | |]; try reflexivity.
  - unfold JS.leb. destruct (Qle_bool x m) eqn:E; unfold JS.ltb.
    + apply Qltb_false. apply Qle_bool_iff. exact E.
    + apply Qltb_false. apply Qle_refl.
  - simpl. apply Qltb_false. apply Qle_refl.
Qed.

Lemma max_not_below (lo x : num) : (JS.max lo x <? lo)%num = false.
Proof.
  unfold JS.max.
  destruct lo as [a| | |], x as [x| | |]; try reflexivity.
  - unfold JS.leb. destruct (Qle_bool a x) eqn:E; unfold JS.ltb.
    + apply Qltb_false. apply Qle_bool_iff. exact E.
    + apply Qltb_false. apply Qle_refl.
  - simpl. apply Qltb_false. apply Qle_refl.
Qed.

Lemma Qred_inject_Z (z : Z) : Qred (inject_Z z) = inject_Z z.
Proof.
  unfold Qred, inject_Z.
  pose proof (Z.ggcd_gcd z 1) as G.
  pose proof (Z.ggcd_correct_divisors z 1) as D.
  destruct (Z.ggcd z 1) as [g [aa bb]]. simpl in *.
  rewrite Z.gcd_1_r in G. subst g. destruct D as [D1 D2].
  rewrite Z.mul_1_l in D1, D2. subst. reflexivity.
Qed.

Lemma add_of_Z (a b : Z) : (of_Z a + of_Z b)%num = of_Z (a + b).
Proof.
  unfold JS.add, of_Z, fin. f_equal.
  rewrite <- (Qred_inject_Z (a + b)). apply Qred_complete.
  rewrite inject_Z_plus. reflexivity.
Qed.

Lemma gtb_of_Z (a b : Z) : (of_Z a >? of_Z b)%num = (b <? a).
Proof.
  unfold JS.gtb, JS.ltb, of_Z, Qltb. rewrite Z.ltb_antisym. f_equal.
  change (Qle_bool (inject_Z a) (inject_Z b)) with (JS.leb (of_Z a) (of_Z b)).
  apply leb_of_Z.
Qed.

Lemma floor_fin (q : Q) : JS.floor (Fin q) = of_Z (Qfloor q).
Proof. reflexivity. Qed.

Lemma sum_finite (l : list num) (q : Q) :
  forallb is_finite l = true -> is_finite (fold_left JS.add l (Fin q)) = true.
Proof.
  revert q. induction l as [|x l IH]; intros q H; simpl; [reflexivity|].
  simpl in H. apply andb_true_iff in H. destruct H as [Hx Hl].
  apply is_finite_spec in Hx. destruct Hx as [y ->]. simpl. apply IH, Hl.
Qed.

Lemma clamp_0_50 (q : Q) :
  within 0 50 (JS.min 50 (JS.max 0 (Fin q))) = true.
Proof.
  apply within_spec.
  unfold JS.max. change (of_Z 0) with (Fin (inject_Z 0)). cbv beta iota.
  unfold JS.leb at 1.
  destruct (Qle_bool (inject_Z 0) q) eqn:E0.
  - apply Qle_bool_iff in E0. unfold JS.min.
    change (of_Z 50) with (Fin (inject_Z 50)). cbv beta iota.
    unfold JS.leb. destruct (Qle_bool (inject_Z 50) q) eqn:E1.
    + exists (inject_Z 50). repeat split; discriminate.
    + exists q. repeat split; auto.
      destruct (Qlt_le_dec q (inject_Z 50)) as [H|H];
        [apply Qlt_le_weak; exact H|].
      apply Qle_bool_iff in H. congruence.
  - exists (inject_Z 0). split; [reflexivity|]. split; discriminate.
Qed.

Lemma Qred_le_l (x y : Q) : (x <= y)%Q -> (Qred x <= y)%Q.
Proof.
  intros H. apply (Qle_trans _ x); [|exact H].
  apply Qle_lteq. right. exact (Qred_correct x).
Qed.

Lemma Qred_le_r (x y : Q) : (x <= y)%Q -> (x <= Qred y)%Q.
Proof.
  intros H. apply (Qle_trans _ y); [exact H|].
  apply Qle_lteq. right. symmetry. exact (Qred_correct y).
Qed.

Lemma sub_of_Z (a b : Z) : (of_Z a - of_Z b)%num = of_Z (a - b).
Proof.
  unfold JS.sub, JS.neg, JS.add, of_Z, fin. f_equal.
  rewrite <- (Qred_inject_Z (a - b)). apply Qred_complete.
  rewrite Qred_correct. unfold Z.sub.
  rewrite inject_Z_plus, inject_Z_opp. reflexivity.
Qed.

Lemma abs_of_Z (a : Z) : JS.abs (of_Z a) = of_Z (Z.abs a).
Proof.
  unfold JS.abs, of_Z, fin. f_equal.
  change (Qabs (inject_Z a)) with (inject_Z (Z.abs a)).
  apply Qred_inject_Z.
Qed.

(** Sums and means of bounded numbers. *)
Lemma sum_bounded (l : list num) (a0 M : Q) :
  Forall (fun x => exists v, x = Fin v /\ (0 <= v)%Q /\ (v <= M)%Q) l ->
  exists q, fold_left JS.add l (Fin a0) = Fin q
            /\ (a0 <= q)%Q
            /\ (q <= a0 + inject_Z (Z.of_nat (length l)) * M)%Q.
Proof.
  revert a0. induction l as [|x l IH]; intros a0 H.
  - exists a0. split; [reflexivity|]. split; [apply Qle_refl|].
    simpl. rewrite Qmult_0_l, Qplus_0_r. apply Qle_refl.
  - inversion H as [|? ? Hx Hl]; subst.
    destruct Hx as (v & -> & V0 & V1).
    destruct (IH (Qred (a0 + v)) Hl) as (q & E & Q0 & Q1).
    exists q. split; [exact E|]. split.
    + apply (Qle_trans _ (Qred (a0 + v))); [|exact Q0].
      apply Qred_le_r. rewrite <- (Qplus_0_r a0) at 1.
      apply Qplus_le_compat; [apply Qle_refl|exact V0].
    + eapply Qle_trans; [exact Q1|].
      change (length (Fin v :: l)) with (S (length l)).
      rewrite Nat2Z.inj_succ, <- Z.add_1_l, inject_Z_plus.
      rewrite Qmult_plus_distr_l, Qmult_1_l.
      rewrite Qplus_assoc. apply Qplus_le_compat; [|apply Qle_refl].
      apply Qred_le_l. apply Qplus_le_compat; [apply Qle_refl|exact V1].
Qed.

Lemma sum_within01 (l : list num) (a0 : Q) :
  Forall (fun x => within 0 1 x = true) l ->
  exists q, fold_left JS.add l (Fin a0) = Fin q
            /\ (a0 <= q)%Q
            /\ (q <= a0 + inject_Z (Z.of_nat (length l)))%Q.
Proof.
  intros H.
  destruct (sum_bounded l a0 1) as (q & E & Q0 & Q1).
  { eapply Forall_impl; [|exact H]. intros x Hx.
    apply within_spec in Hx. exact Hx. }
  exists q. rewrite Qmult_1_r in Q1. auto.
Qed.

(** [q / n] for [0 <= q <= n * M] and a positive count [n]. *)
Lemma div_count_bounded (q M : Q) (n : nat) :
  (0 < n)%nat -> (0 <= q)%Q -> (q <= inject_Z (Z.of_nat n) * M)%Q ->
  exists r, (Fin q / of_nat n)%num = Fin r /\ (0 <= r)%Q /\ (r <= M)%Q.
Proof.
  intros N Q0 Q1.
  assert (P : (0 < inject_Z (Z.of_nat n))%Q).
  { change 0%Q with (inject_Z 0). rewrite <- Zlt_Qlt. lia. }
  unfold JS.div, of_nat, of_Z.
  destruct (Qeq_bool (inject_Z (Z.of_nat n)) 0) eqn:Z.
  { apply Qeq_bool_eq in Z. rewrite Z in P. discriminate P. }
  eexists. split; [reflexivity|].
  split; [apply Qred_le_r|apply Qred_le_l].
  - apply Qle_shift_div_l; [exact P|]. rewrite Qmult_0_l. exact Q0.
  - apply Qle_shift_div_r; [exact P|]. rewrite Qmult_comm. exact Q1.
Qed.

(** ** A pause after each firing

    A method that records the time of its last firing and refuses to fire
    again before a gap has elapsed.  Both [detectBeat] (through
    [getAnalysisData]) and [vibrate] are instances. *)

Section Cooldown.

Context {S I O : Type}.
Variable step : I -> S -> O * S.
Variable time : I -> Z.
Variables last gap : S -> Z.
Variable fired : O -> bool.

Hypothesis gap_step : forall i s, gap (snd (step i s)) = gap s.
Hypothesis last_step :
  forall i s, 0 <= gap s -> last s <= last (snd (step i s)).
Hypothesis last_fired :
  forall i s, fired (fst (step i s)) = true -> last (snd (step i s)) = time i.

Lemma gap_after inputs s : gap (after step inputs s) = gap s.
Proof.
  revert s; induction inputs as [|i inputs IH]; intros s; [reflexivity|].
  unfold after in *. simpl. rewrite IH. apply gap_step.
Qed.

Lemma last_after inputs s :
  0 <= gap s -> last s <= last (after step inputs s).
Proof.
  revert s; induction inputs as [|i inputs IH]; intros s Hg.
  - unfold after; simpl; lia.
  - unfold after in *; simpl.
    specialize (IH (snd (step i s))). rewrite gap_step in IH.
    specialize (IH Hg). pose proof (last_step i s Hg). lia.
Qed.

(** After a call that fired at [time i], a later call made before
    [time i + gap] still finds itself inside the pause. *)
Lemma still_paused between i j s :
  0 <= gap s ->
  fired (fst (step i s)) = true ->
  time j < time i + gap s ->
  let s' := after step between (snd (step i s)) in
  time j - last s' < gap s'.
Proof.
  intros Hg Hf Ht s'. subst s'.
  rewrite gap_after, gap_step.
  pose proof (last_after between (snd (step i s))) as Hl.
  rewrite gap_step in Hl. specialize (Hl Hg).
  rewrite (last_fired _ _ Hf) in Hl. lia.
Qed.

End Cooldown.

(** ** The vibration controller *)

Module VCProofs.

Import VC.

(** *** Rate limiting *)

Lemma updateSyncStats_minInterval e c :
  minInterval (config (updateSyncStats e c)) = minInterval (config c).
Proof.
  unfold updateSyncStats. simpl.
  destruct (adaptiveSync (config c) && _); reflexivity.
Qed.

Lemma updateSyncStats_lastVibrationTime e c :
  lastVibrationTime (updateSyncStats e c) = lastVibrationTime c.
Proof.
  unfold updateSyncStats. simpl.
  destruct (adaptiveSync (config c) && _); reflexivity.
Qed.

(** Inside the interval [vibrate] gives up before it reaches the actuator. *)
Lemma vibrate_rejected e p c :
  e_now e - lastVibrationTime c < minInterval (config c) ->
  vibrate e p c = (false, c, []).
Proof.
  intros H. unfold vibrate.
  destruct (negb (isSupported c) || negb (isEnabled c)); [reflexivity|].
  apply Z.ltb_lt in H. rewrite H. reflexivity.
Qed.

Lemma command_minInterval x c :
  minInterval (config (snd (command x c))) = minInterval (config c).
Proof.
  unfold command, vibrate.
  destruct (negb (isSupported c) || negb (isEnabled c)); [reflexivity|].
  destruct (_ <? _); [reflexivity|].
  destruct (e_reply (fst x)) as [[|]|]; simpl; auto.
  rewrite updateSyncStats_minInterval. reflexivity.
Qed.

Lemma command_last x c :
  0 <= minInterval (config c) ->
  lastVibrationTime c <= lastVibrationTime (snd (command x c)).
Proof.
  intros Hm. unfold command, vibrate.
  destruct (negb (isSupported c) || negb (isEnabled c)); [simpl; lia|].
  destruct (_ <? _) eqn:Hlt; [simpl; lia|].
  apply Z.ltb_ge in Hlt.
  destruct (e_reply (fst x)) as [[|]|]; simpl; try lia.
  rewrite updateSyncStats_lastVibrationTime. simpl. lia.
Qed.

Lemma command_accepted x c :
  accepted (fst (command x c)) = true ->
  lastVibrationTime (snd (command x c)) = e_now (fst x).
Proof.
  unfold command, vibrate, accepted.
  destruct (negb (isSupported c) || negb (isEnabled c)); [discriminate|].
  destruct (_ <? _) eqn:Hlt; [discriminate|].
  destruct (e_reply (fst x)) as [[|]|]; simpl; try discriminate.
  intros _. rewrite updateSyncStats_lastVibrationTime. reflexivity.
Qed.

(** C2.  Once [vibrate] has actuated at time [e_now e], and whatever
    candidate commands [between] arrive afterwards, a command arriving
    before [e_now e + minInterval] is rejected: [vibrate] returns [false],
    leaves the object as it was and makes no call of the actuator.  Hence
    no two actuations are closer than [minInterval]. *)
Theorem vibrate_rate_limit (between : list (Call * Pattern)) (e e' : Call)
    (p p' : Pattern) (c : Controller) :
  0 <= minInterval (config c) ->
  fst (fst (vibrate e p c)) = true ->
  e_now e' < e_now e + minInterval (config c) ->
  vibrate e' p' (after command between (snd (command (e, p) c)))
  = (false, after command between (snd (command (e, p) c)), []).
Proof.
  intros Hm Hacc Hlt.
  apply vibrate_rejected.
  apply (still_paused command (fun x => e_now (fst x))
           lastVibrationTime (fun c => minInterval (config c)) accepted
           command_minInterval command_last command_accepted
           between (e, p) (e', p') c Hm); auto.
  unfold accepted, command; simpl.
  destruct (vibrate e p c) as [[r c'] out]; simpl in *; exact Hacc.
Qed.

Lemma vibrate_rate_limit_witness :
  0 <= minInterval (config enabledController)
  /\ fst (fst (vibrate (actuatorAccepts 1700000000000)
                       (PArr [of_Z 200; of_Z 50]) enabledController)) = true
  /\ 1700000000010
     < 1700000000000 + minInterval (config enabledController)
  /\ vibrate (actuatorAccepts 1700000000010) (PArr [of_Z 120; of_Z 30])
       (after command
          [(actuatorAccepts 1700000000005, PArr [of_Z 350; of_Z 50])]
          (snd (command (actuatorAccepts 1700000000000,
                         PArr [of_Z 200; of_Z 50]) enabledController)))
     = (false,
        after command
          [(actuatorAccepts 1700000000005, PArr [of_Z 350; of_Z 50])]
          (snd (command (actuatorAccepts 1700000000000,
                         PArr [of_Z 200; of_Z 50]) enabledController)),
        []).
Proof.
  split; [vm_compute; discriminate|].
  split; [reflexivity|].
  split; [reflexivity|].
  apply (vibrate_rate_limit
           [(actuatorAccepts 1700000000005, PArr [of_Z 350; of_Z 50])]
           (actuatorAccepts 1700000000000) (actuatorAccepts 1700000000010)
           (PArr [of_Z 200; of_Z 50]) (PArr [of_Z 120; of_Z 30])
           enabledController).
  - vm_compute; discriminate.
  - reflexivity.
  - reflexivity.
Defined.

(** *** The priority of the mapping *)







Lemma sync_without_beat k d c :
  beatPresent d = None ->
  syncVibrationWithAudio k d c = syncWithoutBeat k d c.
Proof.
  unfold beatPresent, syncVibrationWithAudio.
  destruct (a_beat d) as [b|]; [|reflexivity].
  destruct (b_detected b); [discriminate|reflexivity].
Qed.

(** The actuator is called exactly when the guards of [vibrate] pass,
    whatever it answers. *)
Lemma vibrate_calls_exact e p c :
  actuatorCalls (snd (vibrate e p c))
  = if reachesActuator e c then [applyLatencyCompensation c p] else [].
Proof.
  unfold vibrate, reachesActuator.
  destruct (isSupported c), (isEnabled c); try reflexivity.
  cbn [negb orb andb].
  destruct (_ <? _); [reflexivity|].
  destruct (e_reply e) as [[|]|]; reflexivity.
Qed.






(** On that tick the actuator receives the kick pattern, shortened by the
    latency compensation. *)
Example loud_tick_sends_kick_pattern :
  actuatorCalls
    (snd (syncVibrationWithAudio (tickAt 1700000000000) loudTick
            quietController))
  = [PArr [of_Z 280; of_Z 50]].
Proof. vm_compute. reflexivity. Qed.


(** The detectors decide on doubles: for treble levels [343/510] and
    [139/510], exactly [2/5] apart, the doubles differ by
    [0.4000000000000001], which is above the double [0.4], and a transient
    is reported. *)
Lemma transient_decided_on_doubles :
  fst (detectFrequencyChange 1700000000000
         (Some (mkFrequency 0 0 (fin (343 # 510)) 0 0 0 0 0))
         (set_lastFrequencyData
            (Some (mkFrequency 0 0 (fin (139 # 510)) 0 0 0 0 0))
            enabledController)) = true
  /\ (JS.abs (fin (343 # 510) - fin (139 # 510)) >? dec 4 10)%num = false.
Proof. split; vm_compute; reflexivity. Qed.

(** *** The pauses of the two detectors *)

(** C10.  Within 150 ms of the last actuation [detectFrequencyChange]
    returns [false], and within 200 ms [detectVolumeChange] returns
    [false].  When both the new and the stored value are present the object
    is left as it was: the stored value is not overwritten during the pause.
    Only when one of them is missing is the new value stored. *)
Theorem detectors_pause (now : Z) (fd : option FrequencyData)
    (vd : option VolumeData) (c : Controller) :
  (now - lastVibrationTime c < 150 ->
   fst (detectFrequencyChange now fd c) = false
   /\ snd (detectFrequencyChange now fd c)
      = match fd, lastFrequencyData c with
        | Some _, Some _ => c
        | _, _ => set_lastFrequencyData fd c
        end)
  /\ (now - lastVibrationTime c < 200 ->
      fst (detectVolumeChange now vd c) = false
      /\ snd (detectVolumeChange now vd c)
         = match vd, lastVolumeData c with
           | Some _, Some _ => c
           | _, _ => set_lastVolumeData vd c
           end).
Proof.
  split; intros H; apply Z.ltb_lt in H.
  - unfold detectFrequencyChange.
    destruct fd as [x|], (lastFrequencyData c) as [old|];
      try rewrite H; split; reflexivity.
  - unfold detectVolumeChange.
    destruct vd as [x|], (lastVolumeData c) as [old|];
      try rewrite H; split; reflexivity.
Qed.

Lemma detectors_pause_witness :
  1700000000100 - lastVibrationTime justActuated < 150
  /\ fst (detectFrequencyChange 1700000000100 (Some loudBand) justActuated)
     = false
  /\ snd (detectFrequencyChange 1700000000100 (Some loudBand) justActuated)
     = justActuated.
Proof.
  split; [reflexivity|].
  apply (proj1 (detectors_pause 1700000000100 (Some loudBand)
                  (Some loudVolume) justActuated)).
  reflexivity.
Defined.

(** During the pause the stored values stay the old ones: they are not
    replaced by the values of the tick. *)
Lemma detectors_keep_old_value_in_pause :
  fst (detectFrequencyChange 1700000000100 (Some loudBand) justActuated)
  = false
  /\ lastFrequencyData
       (snd (detectFrequencyChange 1700000000100 (Some loudBand)
               justActuated))
     = Some quietBand
  /\ lastFrequencyData
       (snd (detectFrequencyChange 1700000000100 (Some loudBand)
               justActuated))
     <> Some loudBand
  /\ fst (detectVolumeChange 1700000000100 (Some loudVolume) justActuated)
     = false
  /\ lastVolumeData
       (snd (detectVolumeChange 1700000000100 (Some loudVolume)
               justActuated))
     <> Some loudVolume.
Proof.
  split; [reflexivity|]. split; [reflexivity|].
  split; [vm_compute; discriminate|].
  split; [reflexivity|]. vm_compute; discriminate.
Qed.

(** *** A device without the vibration interface, a disabled controller *)

Lemma vibrate_off e p c :
  isSupported c = false \/ isEnabled c = false ->
  vibrate e p c = (false, c, []).
Proof.
  intros [H|H]; unfold vibrate; rewrite H; simpl; [reflexivity|].
  rewrite orb_true_r. reflexivity.
Qed.

Lemma vibrate_flags e p c :
  isSupported (snd (fst (vibrate e p c))) = isSupported c
  /\ isEnabled (snd (fst (vibrate e p c))) = isEnabled c.
Proof.
  unfold vibrate.
  destruct (negb (isSupported c) || negb (isEnabled c)); [split; reflexivity|].
  destruct (_ <? _); [split; reflexivity|].
  destruct (e_reply e) as [[|]|]; simpl; auto.
  unfold updateSyncStats; simpl.
  destruct (adaptiveSync (config c) && _); split; reflexivity.
Qed.

Lemma detectFrequencyChange_flags now fd c :
  isSupported (snd (detectFrequencyChange now fd c)) = isSupported c
  /\ isEnabled (snd (detectFrequencyChange now fd c)) = isEnabled c.
Proof.
  unfold detectFrequencyChange.
  destruct fd as [fd|], (lastFrequencyData c) as [l|];
    try (split; reflexivity).
  repeat match goal with
         | |- context [if ?b then _ else _] => destruct b
         end; split; reflexivity.
Qed.

Lemma detectVolumeChange_flags now vd c :
  isSupported (snd (detectVolumeChange now vd c)) = isSupported c
  /\ isEnabled (snd (detectVolumeChange now vd c)) = isEnabled c.
Proof.
  unfold detectVolumeChange.
  destruct vd as [vd|], (lastVolumeData c) as [l|]; try (split; reflexivity).
  repeat match goal with
         | |- context [if ?b then _ else _] => destruct b
         end; split; reflexivity.
Qed.

(** What a call of [syncWithoutBeat] or [syncVibrationWithAudio] sends out
    is what one call of [vibrate] sent, on an object with the same flags. *)
Lemma syncWithoutBeat_effects k d c :
  (snd (syncWithoutBeat k d c) = []
   \/ exists p c0,
        isSupported c0 = isSupported c /\ isEnabled c0 = isEnabled c
        /\ snd (syncWithoutBeat k d c) = snd (vibrate (t_vibrate k) p c0))
  /\ isSupported (fst (syncWithoutBeat k d c)) = isSupported c
  /\ isEnabled (fst (syncWithoutBeat k d c)) = isEnabled c.
Proof.
  unfold syncWithoutBeat.
  pose proof (detectFrequencyChange_flags (t_nowFrequency k)
                (a_frequency d) c) as [F1 F2].
  destruct (detectFrequencyChange (t_nowFrequency k) (a_frequency d) c)
    as [ch c1].
  simpl in F1, F2. destruct ch.
  - destruct (a_frequency d) as [fd|]; [|simpl; auto].
    unfold handleFrequencyVibration.
    destruct (frequencyPattern c1 fd) as [p|]; [|simpl; auto].
    pose proof (vibrate_flags (t_vibrate k) (PArr p) c1) as [G1 G2].
    destruct (vibrate (t_vibrate k) (PArr p) c1) as [[r c2] out] eqn:E.
    simpl in *. split; [|split; congruence].
    right. exists (PArr p), c1. rewrite E. auto.
  - pose proof (detectVolumeChange_flags (t_nowVolume k) (a_volume d) c1)
      as [V1 V2].
    destruct (detectVolumeChange (t_nowVolume k) (a_volume d) c1)
      as [sw c2].
    simpl in V1, V2. destruct sw; [|simpl; split; [auto|split; congruence]].
    destruct (a_volume d) as [vd|];
      [|simpl; split; [auto|split; congruence]].
    unfold handleVolumeVibration.
    destruct (volumePattern c2 (v_level vd)) as [p|];
      [|simpl; split; [auto|split; congruence]].
    pose proof (vibrate_flags (t_vibrate k) (PArr p) c2) as [G1 G2].
    destruct (vibrate (t_vibrate k) (PArr p) c2) as [[r c3] out] eqn:E.
    simpl in *. split; [|split; congruence].
    right. exists (PArr p), c2. rewrite E.
    split; [congruence|]. split; [congruence|reflexivity].
Qed.

Lemma sync_effects k d c :
  (snd (syncVibrationWithAudio k d c) = []
   \/ exists p c0,
        isSupported c0 = isSupported c /\ isEnabled c0 = isEnabled c
        /\ snd (syncVibrationWithAudio k d c)
           = snd (vibrate (t_vibrate k) p c0))
  /\ isSupported (fst (syncVibrationWithAudio k d c)) = isSupported c
  /\ isEnabled (fst (syncVibrationWithAudio k d c)) = isEnabled c.
Proof.
  unfold syncVibrationWithAudio.
  pose proof (syncWithoutBeat_effects k d c) as Hno.
  destruct (a_beat d) as [b|]; [|exact Hno].
  destruct (b_detected b) eqn:Hd; [|exact Hno].
  unfold handleBeatVibration. rewrite Hd. simpl.
  pose proof (vibrate_flags (t_vibrate k) (PArr (beatPattern c b)) c)
    as [G1 G2].
  destruct (vibrate (t_vibrate k) (PArr (beatPattern c b)) c)
    as [[r c2] out] eqn:E.
  simpl in *. split; [|split; congruence].
  right. exists (PArr (beatPattern c b)), c. rewrite E. auto.
Qed.

Lemma serve_unsupported r c :
  isSupported c = false ->
  fst (serve r c) = [] /\ isSupported (snd (serve r c)) = false.
Proof.
  intros H. destruct r as [|now r|e p|e p|e d|k d|]; simpl.
  - unfold enable. rewrite H. auto.
  - unfold disable, stopVibration. simpl. rewrite H. auto.
  - rewrite vibrate_off by auto. auto.
  - unfold customVibration. rewrite vibrate_off by auto. auto.
  - unfold continuousVibration. rewrite vibrate_off by auto. auto.
  - unfold processAudioData. destruct d as [d|]; [|auto].
    destruct (isEnabled c); [|auto].
    destruct (sync_effects k d c) as ([E|(p & c0 & S0 & _ & E)] & F1 & _);
      destruct (syncVibrationWithAudio k d c) as [c' out]; simpl in *.
    + split; congruence.
    + rewrite vibrate_off in E by (left; congruence). simpl in E.
      split; congruence.
  - auto.
Qed.

(** X1.  On a device without the vibration interface ([isSupported] is
    false) [enable] returns [false], and no sequence of [enable],
    [disable], [vibrate], [customVibration], [continuousVibration],
    [processAudioData] and timer callbacks ever calls
    [navigator.vibrate] or arms a timer; the object stays unsupported. *)
Theorem unsupported_device_never_vibrates (reqs : list Request)
    (c : Controller) :
  isSupported c = false ->
  fst (enable c) = false
  /\ concat (results serve reqs c) = []
  /\ isSupported (after serve reqs c) = false.
Proof.
  intros H. split; [unfold enable; rewrite H; reflexivity|].
  revert c H. induction reqs as [|r reqs IH]; intros c H.
  - split; [reflexivity|exact H].
  - destruct (serve_unsupported r c H) as [E1 E2].
    destruct (IH _ E2) as [I1 I2].
    cbn [results concat]. rewrite E1, I1. split; [reflexivity|].
    unfold after in *. simpl. exact I2.
Qed.

Lemma unsupported_device_never_vibrates_witness :
  isSupported (construct false) = false
  /\ fst (enable (construct false)) = false
  /\ concat (results serve (ReqEnable :: sessionOfRequests)
               (construct false)) = []
  /\ isSupported (after serve (ReqEnable :: sessionOfRequests)
                    (construct false)) = false.
Proof.
  split; [reflexivity|].
  apply (unsupported_device_never_vibrates (ReqEnable :: sessionOfRequests)
           (construct false)).
  reflexivity.
Defined.

Lemma serve_disabled r c :
  isEnabled c = false -> isEnableRequest r = false ->
  forallb isStopCall (fst (serve r c)) = true
  /\ isEnabled (snd (serve r c)) = false.
Proof.
  intros H Hr. destruct r as [|now r|e p|e p|e d|k d|]; simpl;
    try discriminate.
  - unfold disable, stopVibration. simpl.
    destruct (isSupported c); [|auto]. destruct r as [ok|]; simpl; auto.
  - rewrite vibrate_off by auto. auto.
  - unfold customVibration. rewrite vibrate_off by auto. auto.
  - unfold continuousVibration. rewrite vibrate_off by auto. auto.
  - unfold processAudioData. destruct d as [d|]; [|auto].
    rewrite H. auto.
  - auto.
Qed.

(** X2.  While the controller is disabled, and as long as [enable] is not
    called, the only calls of [navigator.vibrate] are the
    [navigator.vibrate(0)] of [disable]: [vibrate], [customVibration],
    [continuousVibration] and [processAudioData] send nothing and arm no
    timer, and the controller stays disabled. *)
Theorem disabled_controller_only_stops (reqs : list Request)
    (c : Controller) :
  isEnabled c = false ->
  forallb (fun r => negb (isEnableRequest r)) reqs = true ->
  forallb isStopCall (concat (results serve reqs c)) = true
  /\ isEnabled (after serve reqs c) = false.
Proof.
  revert c. induction reqs as [|r reqs IH]; intros c H Hr.
  - split; [reflexivity|exact H].
  - simpl in Hr. apply andb_true_iff in Hr. destruct Hr as [Hr1 Hr2].
    apply negb_true_iff in Hr1.
    destruct (serve_disabled r c H Hr1) as [E1 E2].
    destruct (IH _ E2 Hr2) as [I1 I2].
    cbn [results concat]. rewrite forallb_app, E1, I1.
    split; [reflexivity|]. unfold after in *. simpl. exact I2.
Qed.

Lemma disabled_controller_only_stops_witness :
  isEnabled (construct true) = false
  /\ forallb (fun r => negb (isEnableRequest r)) sessionOfRequests = true
  /\ forallb isStopCall
       (concat (results serve sessionOfRequests (construct true))) = true
  /\ isEnabled (after serve sessionOfRequests (construct true)) = false.
Proof.
  split; [reflexivity|]. split; [reflexivity|].
  apply (disabled_controller_only_stops sessionOfRequests (construct true));
    reflexivity.
Defined.

(** *** Patterns *)

(** X3.  [applyLatencyCompensation] on an array returns an array of the
    same length that differs from the argument at most in its first
    entry; when the compensation is active that entry is not below 10;
    when [adaptiveSync] is off or the compensation is [0] the pattern is
    returned as it is. *)
Theorem compensation_keeps_shape (c : Controller) (l : list num) :
  exists l',
    applyLatencyCompensation c (PArr l) = PArr l'
    /\ length l' = length l
    /\ tl l' = tl l
    /\ (forall d', hd_error l' = Some d' ->
        adaptiveSync (config c) = true ->
        is_zero (latencyCompensation (config c)) = false ->
        (d' <? 10)%num = false)
    /\ (adaptiveSync (config c) = false
        \/ is_zero (latencyCompensation (config c)) = true -> l' = l).
Proof.
  unfold applyLatencyCompensation.
  destruct (adaptiveSync (config c)); cbn [negb orb].
  - destruct (is_zero (latencyCompensation (config c))).
    + exists l. repeat split; auto; intros; discriminate.
    + destruct l as [|d rest].
      * exists []. repeat split; auto; intros; discriminate.
      * eexists. split; [reflexivity|]. repeat split.
        -- intros d' Hd _ _. cbn [hd_error] in Hd. injection Hd as <-.
           exact (max_not_below (of_Z 10)
                    (d - latencyCompensation (config c))%num).
        -- intros [H|H]; discriminate.
  - exists l. repeat split; auto; intros; discriminate.
Qed.

(** X4.  [customVibration] hands [vibrate] an array with one entry for a
    number and as many entries as the argument for an array, and none of
    them is above [maxDuration]. *)
Theorem custom_pattern_capped (e : Call) (p : Pattern) (c : Controller) :
  customVibration e p c = vibrate e (PArr (limitPattern c p)) c
  /\ length (limitPattern c p)
     = match p with
       | PArr l => length l
       | PNum _ => 1%nat
       end
  /\ Forall (fun d => (d >? maxDuration (config c))%num = false)
            (limitPattern c p).
Proof.
  split; [reflexivity|]. unfold limitPattern. split.
  - rewrite length_map. destruct p; reflexivity.
  - apply Forall_map, Forall_forall. intros x _. apply min_not_above.
Qed.

Lemma sumEven_cycles n a :
  sumEven (concat (repeat [of_Z 50; of_Z 50] n)) (of_Z a)
  = of_Z (a + 50 * Z.of_nat n).
Proof.
  revert a. induction n as [|n IH]; intros a.
  - simpl. f_equal. lia.
  - cbn [repeat concat app sumEven]. rewrite add_of_Z, IH. f_equal. lia.
Qed.

(** X5.  For a finite [duration], [continuousVibration] builds
    [2 * cycles] entries, all [50], where [cycles] is
    [floor(duration / 100)] (none for a negative duration); its pulses sum
    to [50 * cycles] and it lasts [100 * cycles], which is not more than a
    non-negative [duration]; below 100 ms it is empty.  The pattern is
    handed to [vibrate], which applies its latency compensation before
    the actuator is called: what is sent, exactly when the guards of
    [vibrate] pass, is the compensated pattern. *)
Theorem continuous_pattern_fits (e : Call) (duration : Q)
    (c : Controller) :
  let cycles := Z.to_nat (Qfloor (duration / 100)) in
  let pattern := continuousPattern duration in
  length pattern = (2 * cycles)%nat
  /\ Forall (eq (of_Z 50)) pattern
  /\ sumEven pattern 0 = of_Z (50 * Z.of_nat cycles)
  /\ ((0 <= duration)%Q ->
      (inject_Z (100 * Z.of_nat cycles) <= duration)%Q)
  /\ ((duration < 100)%Q -> pattern = [])
  /\ continuousVibration e (Some duration) c = vibrate e (PArr pattern) c
  /\ actuatorCalls (snd (continuousVibration e (Some duration) c))
     = sent e c (Some pattern).
Proof.
  intros cycles pattern. subst pattern.
  split; [|split; [|split; [|split; [|split; [|split]]]]];
    try (unfold continuousPattern; fold cycles).
  - induction cycles as [|n IH]; simpl; [reflexivity|]. rewrite IH. lia.
  - induction cycles as [|n IH]; simpl; [constructor|].
    repeat constructor. exact IH.
  - change (0 : num) with (of_Z 0).
    rewrite sumEven_cycles. f_equal.
  - intros H. subst cycles.
    assert (F : 0 <= Qfloor (duration / 100)).
    { change 0 with (Qfloor 0). apply Qfloor_resp_le.
      apply Qle_shift_div_l; [reflexivity|]. rewrite Qmult_0_l. exact H. }
    rewrite Z2Nat.id by exact F.
    rewrite inject_Z_mult.
    pose proof (Qfloor_le (duration / 100)) as L.
    apply (Qmult_le_l _ _ (inject_Z 100)) in L; [|reflexivity].
    rewrite Qmult_div_r in L by discriminate. exact L.
  - intros H. subst cycles.
    assert (F : Qfloor (duration / 100) <= 0).
    { assert (L : (duration / 100 < 1)%Q).
      { apply Qlt_shift_div_r; [reflexivity|]. rewrite Qmult_1_l. exact H. }
      pose proof (Qfloor_le (duration / 100)) as L2.
      assert (L3 : (inject_Z (Qfloor (duration / 100)) < inject_Z 1)%Q)
        by (eapply Qle_lt_trans; eauto).
      rewrite <- Zlt_Qlt in L3. lia. }
    destruct (Qfloor (duration / 100)); try lia; reflexivity.
  - reflexivity.
  - unfold continuousVibration. apply vibrate_calls_exact.
Qed.

(** With the configuration of the constructor, [continuousVibration(1000)]
    builds ten pulses of 50 ms, but the actuator receives a first pulse of
    30 ms and the timer is armed for 480 ms, not 500. *)
Example continuous_default_is_compensated :
  snd (continuousVibration (actuatorAccepts 1700000000000) None
         enabledController)
  = [NavigatorVibrate 1700000000000
       (PArr (of_Z 30 :: of_Z 50
              :: concat (repeat [of_Z 50; of_Z 50] 9)))
       (Returned true);
     SetTimeout (of_Z 480)].
Proof. vm_compute. reflexivity. Qed.

(** X6.  When [handleFrequencyVibration] vibrates, with a non-negative
    finite [maxDuration], its pattern is [[d, 100]] with [d] an integer
    above 50 and not above [maxDuration]. *)
Theorem transient_pulse_bounds (c : Controller) (fd : FrequencyData)
    (m : Q) (p : list num) :
  maxDuration (config c) = Fin m ->
  (0 <= m)%Q ->
  frequencyPattern c fd = Some p ->
  exists d, p = [of_Z d; of_Z 100] /\ 50 < d /\ (inject_Z d <= m)%Q.
Proof.
  intros Hm Hpos. unfold frequencyPattern. rewrite Hm.
  destruct (_ >? _)%num; [|discriminate].
  set (x := (f_bass fd * intensityMultiplier (config c))%num).
  assert (I : JS.min x 1 = NaN \/ JS.min x 1 = NInf
              \/ exists i, JS.min x 1 = Fin i /\ (i <= 1)%Q).
  { unfold JS.min. destruct x as [q| | |]; auto.
    - change (of_Z 1) with (Fin (inject_Z 1)). cbv beta iota.
      unfold JS.leb. destruct (Qle_bool q (inject_Z 1)) eqn:E.
      + right; right. exists q. split; [reflexivity|].
        apply Qle_bool_iff. exact E.
      + right; right. exists (inject_Z 1). split; [reflexivity|].
        apply Qle_refl.
    - right; right. exists (inject_Z 1).
      split; [reflexivity|apply Qle_refl]. }
  destruct I as [->|[->|(i & -> & Hi)]].
  - discriminate.
  - unfold JS.mul, signed_inf. destruct (m ?= 0)%Q eqn:C; try discriminate.
    apply Qlt_alt in C. exfalso. apply (Qlt_not_le _ _ C Hpos).
  - unfold JS.mul, fin. rewrite floor_fin, gtb_of_Z.
    destruct (Z.ltb_spec 50 (Qfloor (Qred (i * m)))) as [L|L];
      [|discriminate].
    intros [= <-]. eexists. split; [reflexivity|].
    split; [exact L|].
    eapply Qle_trans; [apply Qfloor_le|].
    apply (Qle_trans _ (i * m));
      [apply Qle_lteq; right; exact (Qred_correct (i * m))|].
    eapply Qle_trans; [apply (Qmult_le_compat_r _ _ m Hi Hpos)|].
    rewrite Qmult_1_l. apply Qle_refl.
Qed.

Lemma transient_pulse_bounds_witness :
  maxDuration (config enabledController) = Fin 800
  /\ (0 <= 800)%Q
  /\ frequencyPattern enabledController loudBand
     = Some [of_Z 800; of_Z 100]
  /\ exists d, [of_Z 800; of_Z 100] = [of_Z d; of_Z 100] /\ 50 < d
               /\ (inject_Z d <= 800)%Q.
Proof.
  split; [reflexivity|]. split; [unfold Qle; simpl; lia|].
  split; [reflexivity|].
  apply (transient_pulse_bounds enabledController loudBand 800
           [of_Z 800; of_Z 100]);
    [reflexivity|unfold Qle; simpl; lia|reflexivity].
Defined.

(** X7.  [handleVolumeVibration] vibrates only while [isVibrating] is
    false; for a finite level its pattern is [[d, 50]] with [d] an
    integer of at least 120, and at most 150 for a level of at most 1. *)
Theorem swell_pulse_bounds (c : Controller) (v : Q) (p : list num) :
  volumePattern c (Fin v) = Some p ->
  isVibrating c = false
  /\ exists d, p = [of_Z d; of_Z 50] /\ 120 <= d
               /\ ((v <= 1)%Q -> d <= 150).
Proof.
  unfold volumePattern.
  destruct (_ >? _)%num eqn:G; [|discriminate].
  destruct (isVibrating c); [discriminate|]. cbn [negb andb].
  change (Fin v * 150)%num with (fin (v * inject_Z 150)).
  unfold fin. rewrite floor_fin.
  intros E.
  assert (P : p = [of_Z (Qfloor (Qred (v * inject_Z 150))); of_Z 50])
    by congruence.
  clear E. split; [reflexivity|].
  eexists. split; [exact P|].
  unfold JS.gtb, JS.ltb, dec, fin in G. apply Qltb_true in G.
  assert (Hv : (8 # 10 < v)%Q).
  { eapply Qle_lt_trans; [|exact G].
    apply Qle_lteq. right. symmetry. exact (Qred_correct (8 # 10)). }
  split.
  - assert (L : (inject_Z 120 <= Qred (v * inject_Z 150))%Q).
    { apply (Qle_trans _ (v * inject_Z 150));
        [|apply Qle_lteq; right; symmetry;
          exact (Qred_correct (v * inject_Z 150))].
      apply Qlt_le_weak.
      apply (Qmult_lt_r _ _ (inject_Z 150)) in Hv; [|reflexivity].
      eapply Qle_lt_trans; [|exact Hv]. discriminate. }
    apply Qfloor_resp_le in L. rewrite Qfloor_Z in L. exact L.
  - intros H1.
    assert (L : (Qred (v * inject_Z 150) <= inject_Z 150)%Q).
    { apply (Qle_trans _ (v * inject_Z 150));
        [apply Qle_lteq; right; exact (Qred_correct (v * inject_Z 150))|].
      apply (Qle_trans _ (1 * inject_Z 150)); [|discriminate].
      apply Qmult_le_compat_r; [exact H1|discriminate]. }
    apply Qfloor_resp_le in L. rewrite Qfloor_Z in L. exact L.
Qed.

Lemma swell_pulse_bounds_witness :
  volumePattern enabledController (Fin (9 # 10))
  = Some [of_Z 135; of_Z 50]
  /\ isVibrating enabledController = false
  /\ exists d, [of_Z 135; of_Z 50] = [of_Z d; of_Z 50] /\ 120 <= d
               /\ ((9 # 10 <= 1)%Q -> d <= 150).
Proof.
  split; [reflexivity|].
  apply (swell_pulse_bounds enabledController (9 # 10)
           [of_Z 135; of_Z 50]).
  reflexivity.
Defined.

(** X8.  With the patterns of the constructor, the pattern
    [handleBeatVibration] hands to [vibrate] always has two entries: a
    vibration of 80, 120, 200, 300 or 350 ms and a pause of 30 or 50 ms;
    for a tempo whose beat interval is below 400 ms the vibration is
    80 ms. *)
Theorem beat_pattern_presets (c : Controller) (b : BeatEvent) :
  patterns c = defaultPatterns ->
  exists on off,
    beatPattern c b = [of_Z on; of_Z off]
    /\ In on [80; 120; 200; 300; 350]
    /\ In off [30; 50]
    /\ (truthy (b_bpm b) && (b_bpm b >? 0)%num
        && (60000 / b_bpm b <? 400)%num = true -> on = 80).
Proof.
  intros Hp. unfold beatPattern. rewrite Hp.
  cbn [p_strongBeat p_beat defaultPatterns].
  destruct (truthy (b_bpm b) && (b_bpm b >? 0)%num) eqn:T; cbn [andb].
  - destruct (60000 / b_bpm b <? 400)%num eqn:F.
    + destruct (b_type b) as [[|]|];
        repeat match goal with
               | |- context [if ?x then _ else _] => destruct x
               end;
        (eexists 80, _; split; [vm_compute; reflexivity|];
         simpl; intuition).
    + destruct (b_type b) as [[|]|];
        repeat match goal with
               | |- context [if ?x then _ else _] => destruct x
               end;
        (eexists _, _; split; [reflexivity|]; simpl;
         intuition discriminate).
  - destruct (b_type b) as [[|]|];
      repeat match goal with
             | |- context [if ?x then _ else _] => destruct x
             end;
      (eexists _, _; split; [reflexivity|]; simpl; intuition discriminate).
Qed.

Lemma beat_pattern_presets_witness :
  patterns enabledController = defaultPatterns
  /\ exists on off,
       beatPattern enabledController kickBeatEvent = [of_Z on; of_Z off]
       /\ In on [80; 120; 200; 300; 350]
       /\ In off [30; 50]
       /\ (truthy (b_bpm kickBeatEvent) && (b_bpm kickBeatEvent >? 0)%num
           && (60000 / b_bpm kickBeatEvent <? 400)%num = true -> on = 80).
Proof.
  split; [reflexivity|].
  apply (beat_pattern_presets enabledController kickBeatEvent).
  reflexivity.
Defined.

(** X9.  The first call of [syncVibrationWithAudio] without a detected
    beat (nothing remembered yet) never vibrates, however loud the tick:
    both detectors only store the data. *)
Theorem first_tick_never_vibrates (k : TickEnv) (d : AudioData)
    (c : Controller) :
  lastFrequencyData c = None ->
  lastVolumeData c = None ->
  beatPresent d = None ->
  syncVibrationWithAudio k d c
  = (set_lastVolumeData (a_volume d)
       (set_lastFrequencyData (a_frequency d) c), []).
Proof.
  intros Hf Hv Hb. rewrite (sync_without_beat k d c Hb).
  unfold syncWithoutBeat, detectFrequencyChange. rewrite Hf.
  destruct (a_frequency d); unfold detectVolumeChange; simpl; rewrite Hv;
    destruct (a_volume d); reflexivity.
Qed.

Lemma first_tick_never_vibrates_witness :
  lastFrequencyData enabledController = None
  /\ lastVolumeData enabledController = None
  /\ beatPresent (mkAudio None (Some loudBand) (Some loudVolume)) = None
  /\ syncVibrationWithAudio (tickAt 1700000000000)
       (mkAudio None (Some loudBand) (Some loudVolume)) enabledController
     = (set_lastVolumeData (Some loudVolume)
          (set_lastFrequencyData (Some loudBand) enabledController), []).
Proof.
  split; [reflexivity|]. split; [reflexivity|]. split; [reflexivity|].
  apply (first_tick_never_vibrates (tickAt 1700000000000)
           (mkAudio None (Some loudBand) (Some loudVolume))
           enabledController); reflexivity.
Defined.

(** *** The latency record *)

Lemma pushBounded_length cap x l :
  (length l <= cap)%nat -> (length (pushBounded cap x l) <= cap)%nat.
Proof.
  intros H. unfold pushBounded. rewrite length_app. simpl.
  destruct (Nat.ltb_spec cap (length l + 1)).
  - destruct l as [|y l]; simpl in *; [lia|]. rewrite length_app. simpl. lia.
  - rewrite length_app. simpl. lia.
Qed.

Lemma pushBounded_forallb (P : num -> bool) cap x l :
  P x = true -> forallb P l = true ->
  forallb P (pushBounded cap x l) = true.
Proof.
  intros Hx Hl. unfold pushBounded.
  assert (H : forallb P (l ++ [x]) = true).
  { rewrite forallb_app, Hl. simpl. rewrite Hx. reflexivity. }
  destruct (_ <? _)%nat; [|exact H].
  destruct (l ++ [x]); simpl in *; [reflexivity|].
  apply andb_true_iff in H. tauto.
Qed.

Lemma pushBounded_nonempty cap x l :
  (0 < cap)%nat -> (0 < length (pushBounded cap x l))%nat.
Proof.
  intros H. unfold pushBounded.
  destruct (Nat.ltb_spec cap (length (l ++ [x]))) as [L|L];
    rewrite length_app in *; simpl in *.
  - destruct l as [|y l]; simpl in *; [lia|]. rewrite length_app. simpl. lia.
  - lia.
Qed.

Lemma latencyBounded_spec c :
  latencyBounded c = true
  <-> (length (latencyHistory (syncState c)) <= 20)%nat
      /\ forallb is_finite (latencyHistory (syncState c)) = true
      /\ within 0 50 (latencyCompensation (config c)) = true.
Proof.
  unfold latencyBounded. rewrite !andb_true_iff, Nat.leb_le. tauto.
Qed.

Lemma updateSyncStats_bounded e c :
  is_finite (e_perfStart e) = true -> is_finite (e_perfEnd e) = true ->
  latencyBounded c = true -> latencyBounded (updateSyncStats e c) = true.
Proof.
  intros Ha Hb H. apply latencyBounded_spec in H. destruct H as (H1 & H2 & H3).
  apply is_finite_spec in Ha, Hb. destruct Ha as [a Ha], Hb as [b Hb].
  set (hist := pushBounded 20 (e_perfEnd e - e_perfStart e)%num
                 (latencyHistory (syncState c))).
  assert (L : (length hist <= 20)%nat) by (apply pushBounded_length; exact H1).
  assert (F : forallb is_finite hist = true).
  { apply pushBounded_forallb; [|exact H2]. rewrite Ha, Hb. reflexivity. }
  assert (N : (0 < length hist)%nat) by (apply pushBounded_nonempty; lia).
  apply latencyBounded_spec.
  unfold updateSyncStats. fold hist. cbv zeta.
  destruct (adaptiveSync _ && _); simpl; (split; [exact L|split; [exact F|]]).
  - pose proof (sum_finite hist (inject_Z 0) F) as S.
    apply is_finite_spec in S. destruct S as [s Hs].
    unfold JS.sum. change (of_Z 0) with (Fin (inject_Z 0)). rewrite Hs.
    destruct (div_fin_of_nat s (length hist) N) as [r ->].
    apply clamp_0_50.
  - exact H3.
Qed.

Lemma command_bounded x c :
  finiteClock x = true -> latencyBounded c = true ->
  latencyBounded (snd (command x c)) = true.
Proof.
  intros F H. unfold finiteClock in F. apply andb_true_iff in F.
  destruct F as [Fa Fb]. unfold command, vibrate.
  destruct (negb (isSupported c) || negb (isEnabled c)); [exact H|].
  destruct (_ <? _); [exact H|].
  destruct (e_reply (fst x)) as [[|]|]; simpl; try exact H.
  apply updateSyncStats_bounded; auto.
Qed.

(** X10.  As long as the [performance.now()] reads are finite, and
    whatever the patterns and the answers of the actuator, [vibrate]
    keeps at most 20 latencies, all finite, and a latency compensation
    between 0 and 50. *)
Theorem latency_state_bounded (cmds : list (Call * Pattern))
    (c : Controller) :
  forallb finiteClock cmds = true ->
  latencyBounded c = true ->
  latencyBounded (after command cmds c) = true.
Proof.
  revert c. induction cmds as [|x cmds IH]; intros c Hf Hc; [exact Hc|].
  simpl in Hf. apply andb_true_iff in Hf. destruct Hf as [Hx Hf].
  unfold after in *. simpl. apply IH; [assumption|].
  apply command_bounded; assumption.
Qed.

Lemma latency_state_bounded_witness :
  forallb finiteClock
    [(actuatorAccepts 1700000000000, PNum 200);
     (actuatorAccepts 1700000000100, PNum 200)] = true
  /\ latencyBounded enabledController = true
  /\ latencyBounded
       (after command
          [(actuatorAccepts 1700000000000, PNum 200);
           (actuatorAccepts 1700000000100, PNum 200)]
          enabledController) = true.
Proof.
  split; [reflexivity|]. split; [reflexivity|].
  apply (latency_state_bounded
           [(actuatorAccepts 1700000000000, PNum 200);
            (actuatorAccepts 1700000000100, PNum 200)] enabledController);
    reflexivity.
Defined.

(** *** [generateMusicVibration] *)

(** X11.  For an energy and a danceability between 0 and 1 and a tempo
    between 60 and 200, [generateMusicVibration] returns a vibration of 0
    to 150 ms and a pause of 75 to 250 ms, both integers. *)
Theorem music_pattern_bounds (f : MusicFeatures) :
  within 0 1 (m_energy f) = true ->
  within 0 1 (m_danceability f) = true ->
  within 60 200 (m_tempo f) = true ->
  exists d p,
    generateMusicVibration f = [of_Z d; of_Z p]
    /\ 0 <= d <= 150 /\ 75 <= p <= 250.
Proof.
  intros He Hd Ht. apply within_spec in He, Hd, Ht.
  destruct He as (e & Ee & He0 & He1), Hd as (d & Ed & Hd0 & Hd1),
           Ht as (t & Et & Ht0 & Ht1).
  unfold generateMusicVibration. rewrite Ee, Ed, Et.
  assert (Tz : Qeq_bool t 0 = false).
  { destruct (Qeq_bool t 0) eqn:Z; [|reflexivity].
    apply Qeq_bool_eq in Z. rewrite Z in Ht0. exfalso. apply Ht0.
    reflexivity. }
  assert (Tpos : (0 < t)%Q) by (eapply Qlt_le_trans; [|exact Ht0]; reflexivity).
  unfold dec, JS.mul, JS.add, JS.div, fin, of_Z. rewrite Tz.
  change (Qeq_bool (inject_Z 4) 0) with false. cbv iota.
  rewrite !floor_fin.
  eexists _, _. split; [reflexivity|]. split.
  - split.
    + change 0 with (Qfloor 0). apply Qfloor_resp_le.
      apply Qred_le_r. apply Qmult_le_0_compat; [|discriminate].
      apply Qred_le_r.
      rewrite <- (Qplus_0_r 0).
      apply Qplus_le_compat; apply Qred_le_r;
        (apply Qmult_le_0_compat; [assumption|apply Qred_le_r; discriminate]).
    + change 150 with (Qfloor (inject_Z 150)). apply Qfloor_resp_le.
      apply Qred_le_l.
      apply (Qle_trans _ (1 * inject_Z 150)); [|discriminate].
      apply Qmult_le_compat_r; [|discriminate].
      apply Qred_le_l.
      apply (Qle_trans _ ((8 # 10) + (2 # 10))); [|discriminate].
      apply Qplus_le_compat; apply Qred_le_l.
      * apply (Qle_trans _ (1 * Qred (8 # 10))); [|discriminate].
        apply Qmult_le_compat_r; [exact He1|discriminate].
      * apply (Qle_trans _ (1 * Qred (2 # 10))); [|discriminate].
        apply Qmult_le_compat_r; [exact Hd1|discriminate].
  - split.
    + change 75 with (Qfloor (inject_Z 75)). apply Qfloor_resp_le.
      apply Qred_le_r.
      apply Qle_shift_div_l; [reflexivity|].
      apply Qred_le_r.
      apply Qle_shift_div_l; [exact Tpos|].
      apply (Qle_trans _ (inject_Z 75 * inject_Z 4 * inject_Z 200));
        [|discriminate].
      apply Qmult_le_l; [reflexivity|exact Ht1].
    + change 250 with (Qfloor (inject_Z 250)). apply Qfloor_resp_le.
      apply Qred_le_l.
      apply Qle_shift_div_r; [reflexivity|].
      apply Qred_le_l.
      apply Qle_shift_div_r; [exact Tpos|].
      apply (Qle_trans _ (inject_Z 250 * inject_Z 4 * inject_Z 60));
        [discriminate|].
      apply Qmult_le_l; [reflexivity|exact Ht0].
Qed.

Lemma music_pattern_bounds_witness :
  within 0 1 (m_energy (mkFeatures 120 (dec 8 10) (dec 5 10) (dec 6 10)))
  = true
  /\ within 0 1
       (m_danceability (mkFeatures 120 (dec 8 10) (dec 5 10) (dec 6 10)))
     = true
  /\ within 60 200
       (m_tempo (mkFeatures 120 (dec 8 10) (dec 5 10) (dec 6 10))) = true
  /\ exists d p,
       generateMusicVibration
         (mkFeatures 120 (dec 8 10) (dec 5 10) (dec 6 10))
       = [of_Z d; of_Z p]
       /\ 0 <= d <= 150 /\ 75 <= p <= 250.
Proof.
  split; [reflexivity|]. split; [reflexivity|]. split; [reflexivity|].
  apply (music_pattern_bounds
           (mkFeatures 120 (dec 8 10) (dec 5 10) (dec 6 10)));
    reflexivity.
Defined.

End VCProofs.

(** ** The audio analyzer *)

Module AAProofs.

Import AA.

(** *** The object before and after a computation *)

Section Relates.

Variable R : Analyzer -> Analyzer -> Prop.
Hypothesis R_refl : forall s, R s s.
Hypothesis R_trans : forall a b c, R a b -> R b c -> R a c.

Lemma relates_ret {A} (a : A) : relates R (ret a).
Proof. intros s; apply R_refl. Qed.

Lemma relates_throw {A} : relates R (@throw A).
Proof. intros s; apply R_refl. Qed.

Lemma relates_get : relates R get.
Proof. intros s; apply R_refl. Qed.

Lemma relates_deref {A} (o : option A) : relates R (deref o).
Proof. destruct o; [apply relates_ret|apply relates_throw]. Qed.

Lemma relates_bind {A B} (m : M A) (f : A -> M B) :
  relates R m -> (forall a, relates R (f a)) -> relates R (bind m f).
Proof.
  intros Hm Hf s. unfold bind. specialize (Hm s).
  destruct (m s) as [[a|] s1]; simpl in *; [|exact Hm].
  eapply R_trans; [exact Hm|apply Hf].
Qed.

Lemma relates_modify (f : Analyzer -> Analyzer) :
  (forall s, R s (f s)) -> relates R (modify f).
Proof. intros H s; apply H. Qed.

Lemma relates_tryCatch {A} (body handler : M A) :
  relates R body -> relates R handler -> relates R (tryCatch body handler).
Proof.
  intros Hb Hh s. unfold tryCatch. specialize (Hb s).
  destruct (body s) as [[a|] s1]; simpl in *; [exact Hb|].
  eapply R_trans; [exact Hb|apply Hh].
Qed.

End Relates.

Lemma relates_weaken (R R' : Analyzer -> Analyzer -> Prop) {A} (m : M A) :
  (forall a b, R a b -> R' a b) -> relates R m -> relates R' m.
Proof. intros H Hm s. apply H, Hm. Qed.

Lemma bind_Normal {A B} (m : M A) (f : A -> M B) s b s' :
  bind m f s = (Normal b, s') ->
  exists a s1, m s = (Normal a, s1) /\ f a s1 = (Normal b, s').
Proof.
  unfold bind. destruct (m s) as [[a|] s1]; [eauto|discriminate].
Qed.

Lemma sameBeat_refl s : sameBeat s s.
Proof. reflexivity. Qed.

Lemma sameBeat_trans a b c : sameBeat a b -> sameBeat b c -> sameBeat a c.
Proof. unfold sameBeat; congruence. Qed.

Lemma pauseGrows_refl s : pauseGrows s s.
Proof. split; [reflexivity|lia]. Qed.

Lemma pauseGrows_trans a b c :
  pauseGrows a b -> pauseGrows b c -> pauseGrows a c.
Proof.
  intros [H1 H2] [H3 H4]. split; [congruence|].
  intros H. rewrite H1 in H4. specialize (H2 H). specialize (H4 H). lia.
Qed.

Lemma sameBeat_pauseGrows s s' : sameBeat s s' -> pauseGrows s s'.
Proof. unfold sameBeat; intros H; split; rewrite H; [reflexivity|lia]. Qed.

Lemma sameBeat_relates_pauseGrows {A} (m : M A) :
  relates sameBeat m -> relates pauseGrows m.
Proof. apply relates_weaken. exact sameBeat_pauseGrows. Qed.

Lemma sameDevice_refl s : sameDevice s s.
Proof. repeat split. Qed.

Lemma sameDevice_trans a b c :
  sameDevice a b -> sameDevice b c -> sameDevice a c.
Proof.
  unfold sameDevice. intros (?&?&?&?) (?&?&?&?). repeat split; congruence.
Qed.

(** Walks through a computation built from the monad's operations. *)
Ltac relates_with refl trans :=
  repeat first
    [ apply (relates_bind _ trans); [ | intros ? ]
    | apply (relates_ret _ refl)
    | apply (relates_throw _ refl)
    | apply (relates_get _ refl)
    | apply (relates_deref _ refl)
    | apply relates_modify; intros ? ].

(** *** Which methods touch the beat-detection record *)

Lemma getByteFrequencyData_sameBeat frame :
  relates sameBeat (getByteFrequencyData frame).
Proof.
  unfold getByteFrequencyData.
  relates_with sameBeat_refl sameBeat_trans; reflexivity.
Qed.

Lemma getByteTimeDomainData_sameBeat frame :
  relates sameBeat (getByteTimeDomainData frame).
Proof.
  unfold getByteTimeDomainData.
  relates_with sameBeat_refl sameBeat_trans; reflexivity.
Qed.

Lemma calculateVolume_sameBeat sqrt : relates sameBeat (calculateVolume sqrt).
Proof.
  unfold calculateVolume. relates_with sameBeat_refl sameBeat_trans.
Qed.

Lemma analyzeFrequency_sameBeat : relates sameBeat analyzeFrequency.
Proof.
  unfold analyzeFrequency.
  relates_with sameBeat_refl sameBeat_trans; reflexivity.
Qed.

Lemma updateHistory_sameBeat : relates sameBeat updateHistory.
Proof.
  unfold updateHistory. relates_with sameBeat_refl sameBeat_trans.
  destruct (_ <? _)%nat; relates_with sameBeat_refl sameBeat_trans;
    reflexivity.
Qed.

Lemma calculateSpectralFlux_sameBeat : relates sameBeat calculateSpectralFlux.
Proof.
  unfold calculateSpectralFlux. relates_with sameBeat_refl sameBeat_trans.
  destruct (previousFrequencyData _);
    relates_with sameBeat_refl sameBeat_trans.
Qed.

Lemma estimateBPM_sameBeat now : relates sameBeat (estimateBPM now).
Proof.
  unfold estimateBPM.
  relates_with sameBeat_refl sameBeat_trans; reflexivity.
Qed.

Lemma estimateBPM_normal now s :
  exists b s', estimateBPM now s = (Normal b, s').
Proof. unfold estimateBPM, bind, get, modify, ret. simpl. eauto. Qed.

Lemma calculateEnergy_state s : snd (calculateEnergy s) = s.
Proof.
  apply (relates_bind (fun a b => b = a)); [congruence| |].
  - intros s0. reflexivity.
  - intros a. apply (relates_bind (fun a b => b = a)); [congruence| |].
    + apply relates_deref. reflexivity.
    + intros data. apply (relates_bind (fun a b => b = a)); [congruence| |].
      * apply relates_deref. reflexivity.
      * intros ctx s0. reflexivity.
Qed.

Lemma calculateEnergy_cases s :
  calculateEnergy s = (Thrown, s)
  \/ exists ed, calculateEnergy s = (Normal ed, s).
Proof.
  pose proof (calculateEnergy_state s) as H.
  destruct (calculateEnergy s) as [[ed|] s1]; simpl in H; subst s1; eauto.
Qed.

(** *** [detectBeat] *)

Lemma updateStatistics_pause d :
  minInterval (updateStatistics d) = minInterval d
  /\ lastBeatTime (updateStatistics d) = lastBeatTime d.
Proof.
  unfold updateStatistics. destruct (_ <=? _)%nat; split; reflexivity.
Qed.

Lemma recordEnergy_pause e d :
  minInterval (recordEnergy e d) = minInterval d
  /\ lastBeatTime (recordEnergy e d) = lastBeatTime d.
Proof.
  unfold recordEnergy.
  destruct (updateStatistics_pause
              (set_energyHistory
                 (pushEnergy (historySize d) e (energyHistory d)) d))
    as [H1 H2].
  rewrite H1, H2. split; reflexivity.
Qed.

(** The outcomes of one call: the pause, an exception from
    [calculateEnergy], a detected beat (which restarts the pause at [now]),
    or no beat. *)
Lemma detectBeat_cases now bpmTime s :
  let d := beatDetection s in
  (now - lastBeatTime d < minInterval d
   /\ detectBeat now bpmTime s = (Normal pausedEvent, s))
  \/ (minInterval d <= now - lastBeatTime d
      /\ (detectBeat now bpmTime s = (Thrown, s)
          \/ exists b s',
               detectBeat now bpmTime s = (Normal b, s')
               /\ minInterval (beatDetection s') = minInterval d
               /\ (b_detected b = true
                   /\ lastBeatTime (beatDetection s') = now
                   \/ b_detected b = false
                      /\ lastBeatTime (beatDetection s') = lastBeatTime d))).
Proof.
  intros d. subst d. unfold detectBeat, bind, get, modify, ret.
  destruct (_ <? _) eqn:Hlt.
  - left. apply Z.ltb_lt in Hlt. split; [exact Hlt|reflexivity].
  - right. apply Z.ltb_ge in Hlt. split; [exact Hlt|].
    destruct (calculateEnergy_cases s) as [E|[ed E]]; rewrite E;
      [left; reflexivity|right].
    destruct (recordEnergy_pause (en_total ed) (beatDetection s)) as [Hm Hl].
    set (d := recordEnergy (en_total ed) (beatDetection s)) in *.
    destruct (energyBeat d (en_total ed) || kickBeat d (en_kick ed)).
    + match goal with
      | |- context [estimateBPM bpmTime ?x] =>
          destruct (estimateBPM_normal bpmTime x) as (bpm & s' & E');
          pose proof (estimateBPM_sameBeat bpmTime x) as Hs;
          rewrite E' in *
      end.
      unfold sameBeat in Hs. simpl in Hs.
      eexists _, s'. split; [reflexivity|]. rewrite Hs.
      split; [exact Hm|left; auto].
    + eexists _, _. split; [reflexivity|]. simpl.
      split; [exact Hm|right; auto].
Qed.

Lemma detectBeat_paused now bpmTime s :
  now - lastBeatTime (beatDetection s) < minInterval (beatDetection s) ->
  detectBeat now bpmTime s = (Normal pausedEvent, s).
Proof.
  intros H. destruct (detectBeat_cases now bpmTime s) as [[_ E]|[H' _]];
    [exact E|lia].
Qed.

Lemma detectBeat_pauseGrows now bpmTime :
  relates pauseGrows (detectBeat now bpmTime).
Proof.
  intros s.
  destruct (detectBeat_cases now bpmTime s)
    as [[_ E]|[H [E|(b & s' & E & Hm & [[_ Hl]|[_ Hl]])]]];
    rewrite E; simpl; try apply pauseGrows_refl;
    split; auto; intros; lia.
Qed.

Lemma detectBeat_detected now bpmTime s b s' :
  detectBeat now bpmTime s = (Normal b, s') ->
  b_detected b = true ->
  lastBeatTime (beatDetection s') = now.
Proof.
  intros E Hd.
  destruct (detectBeat_cases now bpmTime s)
    as [[_ E']|[H [E'|(b' & s'' & E' & Hm & [[Hd' Hl]|[Hd' Hl]])]]];
    rewrite E' in E; inversion E; subst; auto; try discriminate.
  congruence.
Qed.

(** While the history is filling, the statistics stay at their initial
    value and the broadband-energy path cannot fire. *)
Lemma energy_path_waits (d : BeatDetection) (e x : num) :
  variance d = of_Z 0 ->
  (length (energyHistory d) + 1 < historySize d)%nat ->
  energyBeat (recordEnergy e d) x = false
  /\ variance (recordEnergy e d) = of_Z 0
  /\ average (recordEnergy e d) = average d.
Proof.
  intros Hv Hl.
  assert (E : recordEnergy e d
              = set_energyHistory (energyHistory d ++ [e]) d).
  { unfold recordEnergy, updateStatistics, pushEnergy. simpl.
    rewrite length_app. simpl.
    destruct (Nat.ltb_spec (historySize d) (length (energyHistory d) + 1));
      [lia|].
    rewrite length_app. simpl.
    destruct (Nat.leb_spec (historySize d) (length (energyHistory d) + 1));
      [lia|reflexivity]. }
  rewrite E. unfold energyBeat. simpl. rewrite Hv.
  split; [apply andb_false_r|]. split; reflexivity.
Qed.

(** *** One call of [getAnalysisData] *)

Section Ticks.

Variable sqrt : num -> num.

Lemma getAnalysisData_unfold e s :
  getAnalysisData sqrt e s
  = if negb (isInitialized s)
       || match analyserNode s with None => true | Some _ => false end
    then (Normal None, s)
    else match analysisPass sqrt e s with
         | (Normal r, s') => (Normal (Some (fst r)), s')
         | (Thrown, s') => (Normal None, s')
         end.
Proof.
  unfold getAnalysisData, bind, get, tryCatch, ret.
  destruct (_ || _); [reflexivity|].
  destruct (analysisPass sqrt e s) as [[r|] s']; reflexivity.
Qed.

Lemma getAnalysisData_cases e s :
  (getAnalysisData sqrt e s = (Normal None, s)
   /\ (isInitialized s = false \/ analyserNode s = None))
  \/ (isInitialized s = true /\ analyserNode s <> None
      /\ ((exists s', analysisPass sqrt e s = (Thrown, s')
                      /\ getAnalysisData sqrt e s = (Normal None, s'))
          \/ exists r f s', analysisPass sqrt e s = (Normal (r, f), s')
               /\ getAnalysisData sqrt e s = (Normal (Some r), s'))).
Proof.
  rewrite getAnalysisData_unfold.
  destruct (isInitialized s); simpl.
  2:{ left; split; [reflexivity|left; reflexivity]. }
  destruct (analyserNode s) as [n|]; simpl.
  2:{ left; split; [reflexivity|right; reflexivity]. }
  right. split; [reflexivity|]. split; [discriminate|].
  destruct (analysisPass sqrt e s) as [[[r f]|] s'].
  - right. exists r, f, s'. split; reflexivity.
  - left. exists s'. split; reflexivity.
Qed.

(** The beat of a result is what [detectBeat] returned, on a beat-detection
    record no earlier step has touched and no later step touches. *)
Lemma analysisPass_beat e s r f s' :
  analysisPass sqrt e s = (Normal (r, f), s') ->
  exists s3 s4,
    sameBeat s s3
    /\ detectBeat (e_nowBeat e) (e_nowBpm e) s3 = (Normal (r_beat r), s4)
    /\ sameBeat s4 s'.
Proof.
  unfold analysisPass. intros H.
  apply bind_Normal in H. destruct H as ([] & s1 & H1 & H).
  apply bind_Normal in H. destruct H as ([] & s2 & H2 & H).
  apply bind_Normal in H. destruct H as (volume & s2' & H3 & H).
  apply bind_Normal in H. destruct H as (frequency & s3 & H4 & H).
  apply bind_Normal in H. destruct H as (beat & s4 & H5 & H).
  apply bind_Normal in H. destruct H as ([] & s5 & H6 & H).
  apply bind_Normal in H. destruct H as (flux & s6 & H7 & H).
  unfold ret in H. inversion H; subst; clear H. simpl.
  exists s3, s4. split; [|split; [exact H5|]].
  - pose proof (getByteFrequencyData_sameBeat (e_frequencyFrame e) s) as R1.
    pose proof (getByteTimeDomainData_sameBeat (e_timeFrame e) s1) as R2.
    pose proof (calculateVolume_sameBeat sqrt s2) as R3.
    pose proof (analyzeFrequency_sameBeat s2') as R4.
    rewrite H1 in R1. rewrite H2 in R2. rewrite H3 in R3. rewrite H4 in R4.
    unfold sameBeat in *. simpl in *. congruence.
  - pose proof (updateHistory_sameBeat s4) as R6.
    pose proof (calculateSpectralFlux_sameBeat s5) as R7.
    rewrite H6 in R6. rewrite H7 in R7.
    unfold sameBeat in *. simpl in *. congruence.
Qed.

Lemma analysisPass_pauseGrows e : relates pauseGrows (analysisPass sqrt e).
Proof.
  unfold analysisPass.
  apply (relates_bind _ pauseGrows_trans); [|intros _].
  { apply sameBeat_relates_pauseGrows, getByteFrequencyData_sameBeat. }
  apply (relates_bind _ pauseGrows_trans); [|intros _].
  { apply sameBeat_relates_pauseGrows, getByteTimeDomainData_sameBeat. }
  apply (relates_bind _ pauseGrows_trans); [|intros volume].
  { apply sameBeat_relates_pauseGrows, calculateVolume_sameBeat. }
  apply (relates_bind _ pauseGrows_trans); [|intros frequency].
  { apply sameBeat_relates_pauseGrows, analyzeFrequency_sameBeat. }
  apply (relates_bind _ pauseGrows_trans); [|intros beat].
  { apply detectBeat_pauseGrows. }
  apply (relates_bind _ pauseGrows_trans); [|intros _].
  { apply sameBeat_relates_pauseGrows, updateHistory_sameBeat. }
  apply (relates_bind _ pauseGrows_trans); [|intros flux].
  { apply sameBeat_relates_pauseGrows, calculateSpectralFlux_sameBeat. }
  apply (relates_ret _ pauseGrows_refl).
Qed.

Lemma getAnalysisData_pauseGrows e :
  relates pauseGrows (getAnalysisData sqrt e).
Proof.
  unfold getAnalysisData.
  apply (relates_bind _ pauseGrows_trans);
    [apply (relates_get _ pauseGrows_refl)|intros s].
  destruct (_ || _); [apply (relates_ret _ pauseGrows_refl)|].
  apply (relates_tryCatch _ pauseGrows_trans);
    [|apply (relates_ret _ pauseGrows_refl)].
  apply (relates_bind _ pauseGrows_trans);
    [apply analysisPass_pauseGrows|intros r].
  apply (relates_ret _ pauseGrows_refl).
Qed.

Lemma getAnalysisData_detected e s :
  beatDetected (fst (getAnalysisData sqrt e s)) = true ->
  lastBeatTime (beatDetection (snd (getAnalysisData sqrt e s))) = e_nowBeat e.
Proof.
  destruct (getAnalysisData_cases e s)
    as [[E _]|(_ & _ & [(s' & _ & E)|(r & f & s' & P & E)])];
    rewrite E; unfold beatDetected; simpl; try discriminate.
  intros Hd. apply analysisPass_beat in P.
  destruct P as (s3 & s4 & R1 & D & R2).
  rewrite R2. eapply detectBeat_detected; eauto.
Qed.

Lemma getAnalysisData_paused e s :
  e_nowBeat e - lastBeatTime (beatDetection s)
  < minInterval (beatDetection s) ->
  beatDetected (fst (getAnalysisData sqrt e s)) = false.
Proof.
  intros Hp.
  destruct (getAnalysisData_cases e s)
    as [[E _]|(_ & _ & [(s' & _ & E)|(r & f & s' & P & E)])];
    rewrite E; unfold beatDetected; simpl; try reflexivity.
  apply analysisPass_beat in P.
  destruct P as (s3 & s4 & R1 & D & R2).
  rewrite detectBeat_paused in D by (rewrite R1; exact Hp).
  inversion D. reflexivity.
Qed.

(** C1.  In a session of ticks, once a tick at time [e_nowBeat e] has
    returned a beat with [detected = true], and whatever ticks [between]
    follow, a tick whose [detectBeat] runs before
    [e_nowBeat e + minInterval] returns no detected beat.  Hence no two
    detected beats are closer than [minInterval]. *)
Theorem beat_minimum_interval (between : list Tick) (e e' : Tick)
    (s : Analyzer) :
  0 <= minInterval (beatDetection s) ->
  beatDetected (fst (getAnalysisData sqrt e s)) = true ->
  e_nowBeat e' < e_nowBeat e + minInterval (beatDetection s) ->
  beatDetected
    (fst (getAnalysisData sqrt e'
            (after (getAnalysisData sqrt) between
                   (snd (getAnalysisData sqrt e s)))))
  = false.
Proof.
  intros Hm Hd Ht.
  apply getAnalysisData_paused.
  apply (still_paused (getAnalysisData sqrt) e_nowBeat
           (fun s => lastBeatTime (beatDetection s))
           (fun s => minInterval (beatDetection s)) beatDetected); auto.
  - intros i x. apply (getAnalysisData_pauseGrows i x).
  - intros i x Hx. apply (getAnalysisData_pauseGrows i x). exact Hx.
  - intros i x. apply getAnalysisData_detected.
Qed.

End Ticks.

Lemma beat_minimum_interval_witness :
  0 <= minInterval (beatDetection (initialized 44100 1024))
  /\ beatDetected
       (fst (getAnalysisData sqrtLower (tickWith kickFrame 1700000000000)
               (initialized 44100 1024))) = true
  /\ 1700000000200
     < 1700000000000 + minInterval (beatDetection (initialized 44100 1024))
  /\ beatDetected
       (fst (getAnalysisData sqrtLower (tickWith kickFrame 1700000000200)
               (after (getAnalysisData sqrtLower)
                  [tickWith quietFrame 1700000000100]
                  (snd (getAnalysisData sqrtLower
                          (tickWith kickFrame 1700000000000)
                          (initialized 44100 1024))))))
     = false.
Proof.
  split; [vm_compute; discriminate|].
  split; [vm_compute; reflexivity|].
  split; [reflexivity|].
  apply (beat_minimum_interval sqrtLower
           [tickWith quietFrame 1700000000100]
           (tickWith kickFrame 1700000000000)
           (tickWith kickFrame 1700000000200)
           (initialized 44100 1024)).
  - vm_compute; discriminate.
  - vm_compute; reflexivity.
  - reflexivity.
Defined.

(** C6.  On a freshly initialised analyzer the first tick whose frame has
    energy in the kick band returns a detected beat of type [Kick], of
    strength [1] (the threshold it is measured against is [0]), although
    the energy history then holds one sample of the 43 it needs before the
    statistics are computed. *)
Theorem kick_fires_on_first_tick (sqrt : num -> num) :
  beatOf (fst (getAnalysisData sqrt (tickWith kickFrame 1700000000000)
                 (initialized 44100 1024)))
  = Some {| b_detected := true; b_strength := 1; b_bpm := 0;
            b_confidence := 0;
            b_energy := Some (dec 1 185); b_kickEnergy := Some (dec 1 3);
            b_type := Some Kick |}
  /\ length (energyHistory
               (beatDetection
                  (snd (getAnalysisData sqrt
                          (tickWith kickFrame 1700000000000)
                          (initialized 44100 1024))))) = 1%nat
  /\ historySize (beatDetection (initialized 44100 1024)) = 43%nat.
Proof.
  split; [vm_compute; reflexivity|].
  split; [vm_compute; reflexivity|reflexivity].
Qed.

(** *** Tempo *)

Lemma insertSorted_length x l : length (insertSorted x l) = S (length l).
Proof.
  induction l as [|y l IH]; simpl; [reflexivity|].
  destruct (x <=? y); simpl; congruence.
Qed.

Lemma sortAscending_length l : length (sortAscending l) = length l.
Proof.
  induction l as [|x l IH]; simpl; [reflexivity|].
  rewrite insertSorted_length. congruence.
Qed.

Lemma insertSorted_perm x l : Permutation (x :: l) (insertSorted x l).
Proof.
  induction l as [|y l IH]; simpl; [reflexivity|].
  destruct (x <=? y); [reflexivity|].
  rewrite perm_swap. apply perm_skip. exact IH.
Qed.

(** [sortAscending] rearranges its argument... *)
Lemma sortAscending_perm l : Permutation l (sortAscending l).
Proof.
  induction l as [|x l IH]; simpl; [reflexivity|].
  rewrite <- insertSorted_perm. apply perm_skip. exact IH.
Qed.

Lemma insertSorted_sorted x l :
  Sorted Z.le l -> Sorted Z.le (insertSorted x l).
Proof.
  induction l as [|y l IH]; intros Hs; simpl.
  - repeat constructor.
  - destruct (Z.leb_spec x y).
    + constructor; [exact Hs|constructor; exact H].
    + inversion Hs as [|? ? Hs' Hd]; subst.
      constructor; [apply IH; exact Hs'|].
      destruct l as [|z l]; simpl.
      * constructor; lia.
      * destruct (x <=? z); constructor; try lia.
        inversion Hd; subst; assumption.
Qed.

(** ... into ascending order. *)
Lemma sortAscending_sorted l : Sorted Z.le (sortAscending l).
Proof.
  induction l as [|x l IH]; simpl; [constructor|].
  apply insertSorted_sorted. exact IH.
Qed.

Lemma lit_fin n d : exists q, lit n d = Fin q.
Proof. eexists. reflexivity. Qed.

Lemma sumIntervals_fin l : exists q, sumIntervals l = Fin q.
Proof.
  unfold sumIntervals. change (of_Z 0) with (Fin (inject_Z 0)).
  generalize (inject_Z 0).
  induction l as [|x l IH]; intros q; simpl; [eauto|].
  apply IH.
Qed.

Lemma bpmOf_rounded l : (4 <= length l)%nat -> bpmOf l = roundedBPM l.
Proof.
  intros H.
  unfold bpmOf, roundedBPM, clamp, blendedInterval, upperMedian, meanInterval.
  apply Nat.leb_le in H. rewrite H. rewrite sortAscending_length. reflexivity.
Qed.

Lemma blendedInterval_fin l :
  (0 < length l)%nat -> exists q, blendedInterval l = Fin q.
Proof.
  intros H. unfold blendedInterval, upperMedian, meanInterval.
  destruct (nth_error (sortAscending l) (length l / 2)) as [m|] eqn:E.
  - destruct (sumIntervals_fin l) as [q ->].
    destruct (div_fin_of_nat q (length l) H) as [r ->].
    destruct (lit_fin 7 10) as [a ->]. destruct (lit_fin 3 10) as [b ->].
    eexists. reflexivity.
  - apply nth_error_None in E. rewrite sortAscending_length in E.
    pose proof (Nat.div_lt (length l) 2 H ltac:(lia)). lia.
Qed.

Lemma bpmOf_range l :
  (4 <= length l)%nat -> exists z, 60 <= z <= 200 /\ bpmOf l = of_Z z.
Proof.
  intros H. rewrite (bpmOf_rounded l H). unfold roundedBPM, clamp.
  apply clamp_round_range.
  destruct (blendedInterval_fin l ltac:(lia)) as [q ->].
  unfold JS.div. change (of_Z 60000) with (Fin (inject_Z 60000)).
  cbv beta iota.
  destruct (Qeq_bool q 0); [|unfold fin; discriminate].
  unfold signed_inf. simpl. discriminate.
Qed.

Lemma estimateBPM_eval now s :
  estimateBPM now s
  = (Normal (bpmOf (recordInterval (minInterval (beatDetection s)) now
                      (lastBeatTimestamp s) (storedIntervals s))),
     set_lastBeatTimestamp (Some now)
       (set_beatIntervals
          (Some (recordInterval (minInterval (beatDetection s)) now
                   (lastBeatTimestamp s) (storedIntervals s))) s)).
Proof. reflexivity. Qed.

Lemma recordInterval_accept m now last l :
  last <> 0 -> m <= now - last <= 2000 -> (length l < 20)%nat ->
  recordInterval m now (Some last) l = l ++ [now - last].
Proof.
  intros H0 [H1 H2] Hl. unfold recordInterval.
  destruct (Z.eqb_spec last 0); [contradiction|].
  apply Z.leb_le in H1, H2. rewrite H1, H2. simpl.
  rewrite length_app. simpl.
  destruct (Nat.ltb_spec 20 (length l + 1)); [lia|reflexivity].
Qed.

Lemma recordInterval_reject m now last l :
  now - last < m \/ 2000 < now - last ->
  recordInterval m now (Some last) l = l.
Proof.
  intros H. unfold recordInterval.
  destruct (last =? 0); [reflexivity|].
  destruct (Z.leb_spec m (now - last)), (Z.leb_spec (now - last) 2000);
    simpl; try reflexivity; lia.
Qed.

(** C3.  [estimateBPM] returns the value computed from the intervals it
    holds after recording the current one.  An interval outside
    [[minInterval, 2000]] is not recorded.  With fewer than 4 intervals the
    value is [0].  With 4 or more it is
    [round(60000 / (0.7 * median + 0.3 * mean))] clamped to [[60, 200]],
    the formula being evaluated in binary64 arithmetic ([roundedBPM]) and
    the median being the element at index [floor(n / 2)] of the sorted
    intervals; this is an integer between 60 and 200. *)
Theorem tempo_estimate (now : Z) (s : Analyzer) :
  let old := storedIntervals s in
  let stored :=
    recordInterval (minInterval (beatDetection s)) now (lastBeatTimestamp s)
                   old in
  fst (estimateBPM now s) = Normal (bpmOf stored)
  /\ beatIntervals (snd (estimateBPM now s)) = Some stored
  /\ (forall last,
        lastBeatTimestamp s = Some last ->
        now - last < minInterval (beatDetection s) \/ 2000 < now - last ->
        stored = old)
  /\ ((length stored < 4)%nat -> bpmOf stored = of_Z 0)
  /\ ((4 <= length stored)%nat ->
      bpmOf stored = roundedBPM stored
      /\ exists z, 60 <= z <= 200 /\ bpmOf stored = of_Z z).
Proof.
  intros old stored. rewrite estimateBPM_eval. simpl.
  fold old. fold stored.
  split; [reflexivity|]. split; [reflexivity|].
  split; [|split].
  - intros last Hl Hr. subst stored. rewrite Hl.
    apply recordInterval_reject. exact Hr.
  - intros H. unfold bpmOf.
    destruct (Nat.leb_spec 4 (length stored)); [lia|reflexivity].
  - intros H. split; [apply bpmOf_rounded|apply bpmOf_range]; exact H.
Qed.

(** Five beats 510 ms apart: the estimator holds four intervals of 510 and
    returns 118, while [60000 / 510] clamped is [2000 / 17]. *)
Lemma tempo_is_rounded :
  storedIntervals
    (snd (estimateBPM 1700000002040
            (after estimateBPM
               [1700000000000; 1700000000510; 1700000001020; 1700000001530]
               create)))
  = [510; 510; 510; 510]
  /\ fst (estimateBPM 1700000002040
            (after estimateBPM
               [1700000000000; 1700000000510; 1700000001020; 1700000001530]
               create))
     = Normal (of_Z 118)
  /\ claimedBPM [510; 510; 510; 510] = Fin (2000 # 17)
  /\ fst (estimateBPM 1700000002040
            (after estimateBPM
               [1700000000000; 1700000000510; 1700000001020; 1700000001530]
               create))
     <> Normal (claimedBPM [510; 510; 510; 510]).
Proof.
  split; [vm_compute; reflexivity|].
  split; [vm_compute; reflexivity|].
  split; [vm_compute; reflexivity|].
  vm_compute. discriminate.
Qed.

(** The rounding is that of the double quotient.  With the nine intervals
    480, 480, 500, 500 and five times 540 the formula is exactly 112.5,
    which [Math.round] would take to 113; the doubles give
    112.49999999999999, and the estimator returns 112. *)
Lemma tempo_rounds_the_double :
  fst (estimateBPM 1700000004660
         (after estimateBPM
            [1700000000000; 1700000000480; 1700000000960; 1700000001460;
             1700000001960; 1700000002500; 1700000003040; 1700000003580;
             1700000004120]
            create))
  = Normal (of_Z 112)
  /\ storedIntervals
       (snd (estimateBPM 1700000004660
               (after estimateBPM
                  [1700000000000; 1700000000480; 1700000000960;
                   1700000001460; 1700000001960; 1700000002500;
                   1700000003040; 1700000003580; 1700000004120]
                  create)))
     = [480; 480; 500; 500; 540; 540; 540; 540; 540]
  /\ claimedBPM [480; 480; 500; 500; 540; 540; 540; 540; 540]
     = Fin (225 # 2)
  /\ JS.round (Fin (225 # 2)) = of_Z 113.
Proof. repeat split; vm_compute; reflexivity. Qed.

(** [binary64] on known doubles: [0.1] is [3602879701896397 / 2^55],
    [0.1 + 0.2] is [0.30000000000000004], that is
    [5404319552844596 / 2^54], and [2^53 + 1] rounds to [2^53]. *)
Lemma binary64_examples :
  lit 1 10 = fin (3602879701896397 # 36028797018963968)
  /\ rounded (lit 1 10 + lit 2 10)
     = fin (5404319552844596 # 18014398509481984)
  /\ rounded (of_Z 9007199254740993) = of_Z 9007199254740992
  /\ rounded (lit 1 10) = lit 1 10.
Proof. repeat split; vm_compute; reflexivity. Qed.

(** C8.  From an estimator that has seen no beat, beats 500 ms apart give
    [0] on the first four calls (at most three intervals are held) and
    [120] on the fifth. *)
Theorem five_beats_at_500ms (t0 : Z) (s : Analyzer) :
  0 < t0 ->
  beatIntervals s = None ->
  lastBeatTimestamp s = None ->
  minInterval (beatDetection s) <= 500 ->
  results estimateBPM
          [t0; t0 + 500; t0 + 1000; t0 + 1500; t0 + 2000] s
  = [Normal (of_Z 0); Normal (of_Z 0); Normal (of_Z 0); Normal (of_Z 0);
     Normal (of_Z 120)].
Proof.
  intros Ht Hi Hl Hm.
  cbn [results]. rewrite !estimateBPM_eval. cbn [fst snd].
  cbn [lastBeatTimestamp beatIntervals set_lastBeatTimestamp
       set_beatIntervals beatDetection storedIntervals].
  rewrite Hl. unfold storedIntervals at 1 2 3 4 5. rewrite Hi.
  change (recordInterval (minInterval (beatDetection s)) t0 None [])
    with (@nil Z).
  rewrite (recordInterval_accept _ (t0 + 500) t0 []) by (simpl; lia).
  rewrite (recordInterval_accept _ (t0 + 1000) (t0 + 500)) by (simpl; lia).
  rewrite (recordInterval_accept _ (t0 + 1500) (t0 + 1000)) by (simpl; lia).
  rewrite (recordInterval_accept _ (t0 + 2000) (t0 + 1500)) by (simpl; lia).
  replace (t0 + 500 - t0) with 500 by lia.
  replace (t0 + 1000 - (t0 + 500)) with 500 by lia.
  replace (t0 + 1500 - (t0 + 1000)) with 500 by lia.
  replace (t0 + 2000 - (t0 + 1500)) with 500 by lia.
  reflexivity.
Qed.

Lemma five_beats_at_500ms_witness :
  0 < 1700000000000
  /\ beatIntervals create = None
  /\ lastBeatTimestamp create = None
  /\ minInterval (beatDetection create) <= 500
  /\ results estimateBPM
       [1700000000000; 1700000000000 + 500; 1700000000000 + 1000;
        1700000000000 + 1500; 1700000000000 + 2000] create
     = [Normal (of_Z 0); Normal (of_Z 0); Normal (of_Z 0); Normal (of_Z 0);
        Normal (of_Z 120)].
Proof.
  split; [reflexivity|]. split; [reflexivity|]. split; [reflexivity|].
  split; [vm_compute; discriminate|].
  apply (five_beats_at_500ms 1700000000000 create).
  - reflexivity.
  - reflexivity.
  - reflexivity.
  - vm_compute; discriminate.
Defined.

(** Four beats 500 ms apart: the fourth call holds three intervals and
    returns [0], not [120]. *)
Lemma four_beats_report_zero :
  results estimateBPM
    [1700000000000; 1700000000500; 1700000001000; 1700000001500] create
  = [Normal (of_Z 0); Normal (of_Z 0); Normal (of_Z 0); Normal (of_Z 0)]
  /\ storedIntervals
       (after estimateBPM
          [1700000000000; 1700000000500; 1700000001000; 1700000001500]
          create)
     = [500; 500; 500]
  /\ nth_error
       (results estimateBPM
          [1700000000000; 1700000000500; 1700000001000; 1700000001500]
          create) 3
     <> Some (Normal (of_Z 120)).
Proof.
  split; [vm_compute; reflexivity|].
  split; [vm_compute; reflexivity|].
  vm_compute. discriminate.
Qed.

(** *** Spectral flux *)

Lemma fluxStep_same current previous flux i :
  magnitude previous i = magnitude current i ->
  fluxStep current previous flux i = flux.
Proof.
  intros H. unfold fluxStep. rewrite H, sub_self_not_positive. reflexivity.
Qed.

Lemma magnitude_app data rest i :
  i < Z.of_nat (length data) ->
  magnitude (data ++ rest) i = magnitude data i.
Proof.
  intros H. unfold magnitude.
  destruct (Z.ltb_spec i 0); [reflexivity|].
  rewrite nth_error_app1 by lia. reflexivity.
Qed.

Lemma in_range lo hi i : In i (range lo hi) <-> lo <= i < hi.
Proof.
  unfold range. rewrite in_map_iff. split.
  - intros (k & <- & Hk). apply in_seq in Hk. lia.
  - intros H. exists (Z.to_nat (i - lo)). split; [lia|].
    apply in_seq. lia.
Qed.

(** Against a copy of itself a frame has no flux ([NaN] when the band of
    bins is empty and the sum is divided by [0]). *)
Lemma spectralFluxOf_copy rate current rest :
  spectralFluxOf rate current (current ++ rest) = of_Z 0
  \/ spectralFluxOf rate current (current ++ rest) = NaN.
Proof.
  unfold spectralFluxOf.
  rewrite fold_left_unchanged.
  - apply zero_div.
  - intros x i Hi. apply in_range in Hi.
    apply fluxStep_same, magnitude_app. lia.
Qed.

Lemma updateHistory_Normal s s' :
  updateHistory s = (Normal tt, s') ->
  exists current previous,
    frequencyData (buffers s') = Some current
    /\ previousFrequencyData (buffers s')
       = Some (current ++ skipn (length current) previous).
Proof.
  unfold updateHistory, bind, get, deref, modify, ret, throw.
  destruct (previousFrequencyData (buffers s)) as [previous|]; [|discriminate].
  destruct (frequencyData (buffers s)) as [current|] eqn:E; [|discriminate].
  destruct (_ <? _)%nat; [discriminate|].
  intros H. inversion H; subst; clear H. simpl.
  exists current, previous. rewrite E. auto.
Qed.

Lemma calculateSpectralFlux_Normal s f s' current previous :
  frequencyData (buffers s) = Some current ->
  previousFrequencyData (buffers s) = Some previous ->
  calculateSpectralFlux s = (Normal f, s') ->
  exists ctx, audioContext s = Some ctx
              /\ f = spectralFluxOf (sampleRate ctx) current previous.
Proof.
  intros Hc Hp. unfold calculateSpectralFlux, bind, get, deref, ret, throw.
  rewrite Hp, Hc.
  destruct (audioContext s) as [ctx|]; [|discriminate].
  intros H. inversion H; subst. eauto.
Qed.

(** Whatever the frames of this tick and of the ticks before it, the flux
    computed by [getAnalysisData] is [0] (or [NaN]): [updateHistory] has
    already copied the current frame over the previous one when
    [calculateSpectralFlux] runs. *)
Lemma tick_flux_is_zero sqrt e s f :
  tickSpectralFlux sqrt e s = Some f -> f = of_Z 0 \/ f = NaN.
Proof.
  unfold tickSpectralFlux.
  destruct (analysisPass sqrt e s) as [[[r f']|] s'] eqn:H; [|discriminate].
  simpl. intros E; inversion E; subst f'; clear E.
  unfold analysisPass in H.
  apply bind_Normal in H. destruct H as ([] & s1 & H1 & H).
  apply bind_Normal in H. destruct H as ([] & s2 & H2 & H).
  apply bind_Normal in H. destruct H as (volume & s2' & H3 & H).
  apply bind_Normal in H. destruct H as (frequency & s3 & H4 & H).
  apply bind_Normal in H. destruct H as (beat & s4 & H5 & H).
  apply bind_Normal in H. destruct H as ([] & s5 & H6 & H).
  apply bind_Normal in H. destruct H as (flux & s6 & H7 & H).
  unfold ret in H. inversion H; subst; clear H.
  apply updateHistory_Normal in H6.
  destruct H6 as (current & previous & Hc & Hp).
  destruct (calculateSpectralFlux_Normal _ _ _ _ _ Hc Hp H7) as (ctx & _ & ->).
  apply spectralFluxOf_copy.
Qed.

(** C5.  A silent frame followed by a frame with one full-scale bin in the
    20-4000 Hz range: the flux of the second frame against the first is
    [1/185], but the flux computed in the second tick is [0]. *)
Theorem flux_of_onset_tick_is_zero (sqrt : num -> num) :
  tickSpectralFlux sqrt (tickWith onsetFrame 1700000000016)
    (snd (getAnalysisData sqrt (tickWith quietFrame 1700000000000)
            (initialized 44100 1024)))
  = Some (of_Z 0)
  /\ spectralFluxOf 44100 onsetFrame quietFrame = dec 1 185.
Proof.
  split; vm_compute; reflexivity.
Qed.

(** *** Band energies *)

Section Bands.

Variables (fa : FrequencyAnalysis) (rate : positive) (data : list Z).

Lemma bandStep_fields a i :
  let step :=
    bandStep fa data (of_Z (Zpos rate) / (2 * of_nat (length data)))%num in
  let value := magnitude data i in
  bassSum (step a i)
  = (if isBass fa rate data i then (bassSum a + value)%num else bassSum a)
  /\ bassCount (step a i)
     = (if isBass fa rate data i then S (bassCount a) else bassCount a)
  /\ midSum (step a i)
     = (if isMid fa rate data i then (midSum a + value)%num else midSum a)
  /\ midCount (step a i)
     = (if isMid fa rate data i then S (midCount a) else midCount a)
  /\ trebleSum (step a i)
     = (if isTreble fa rate data i then (trebleSum a + value)%num
        else trebleSum a)
  /\ trebleCount (step a i)
     = (if isTreble fa rate data i then S (trebleCount a)
        else trebleCount a).
Proof.
  unfold bandStep, isBass, isMid, isTreble, binFrequency.
  set (binSize := (of_Z (Zpos rate) / (2 * of_nat (length data)))%num).
  cbv zeta.
  destruct (inRange (of_Z i * binSize)%num (bassRange fa));
    [|destruct (inRange (of_Z i * binSize)%num (midRange fa));
      [|destruct (inRange (of_Z i * binSize)%num (trebleRange fa))]];
    cbn [negb andb];
    match goal with |- context [if ?c then _ else _] => destruct c end;
    cbn; repeat split; reflexivity.
Qed.

Lemma fold_bandStep l a :
  let step :=
    bandStep fa data (of_Z (Zpos rate) / (2 * of_nat (length data)))%num in
  let r := fold_left step l a in
  let mags p := map (magnitude data) (filter p l) in
  bassSum r = fold_left JS.add (mags (isBass fa rate data)) (bassSum a)
  /\ bassCount r = (bassCount a + length (filter (isBass fa rate data) l))%nat
  /\ midSum r = fold_left JS.add (mags (isMid fa rate data)) (midSum a)
  /\ midCount r = (midCount a + length (filter (isMid fa rate data) l))%nat
  /\ trebleSum r
     = fold_left JS.add (mags (isTreble fa rate data)) (trebleSum a)
  /\ trebleCount r
     = (trebleCount a + length (filter (isTreble fa rate data) l))%nat.
Proof.
  revert a. induction l as [|i l IH]; intros a; cbv zeta.
  - simpl. repeat split; lia.
  - cbn [fold_left filter].
    destruct (IH (bandStep fa data
                    (of_Z (Zpos rate) / (2 * of_nat (length data)))%num a i))
      as (H1 & H2 & H3 & H4 & H5 & H6).
    destruct (bandStep_fields a i) as (F1 & F2 & F3 & F4 & F5 & F6).
    cbv zeta in H1, H2, H3, H4, H5, H6, F1, F2, F3, F4, F5, F6.
    rewrite H1, H2, H3, H4, H5, H6, F1, F2, F3, F4, F5, F6.
    destruct (isBass fa rate data i), (isMid fa rate data i),
      (isTreble fa rate data i); cbn [map fold_left length];
      repeat split; lia.
Qed.

End Bands.

(** The bound of the loop: a visited bin lies below 5000 Hz. *)
Lemma maxBin_bound (n : nat) (rate : positive) (i : Z) :
  i < maxBinOf n rate -> i * Zpos rate < 10000 * Z.of_nat n.
Proof.
  unfold maxBinOf, binOf. intros H.
  set (r := inject_Z (Zpos rate)) in *.
  set (m := inject_Z (Z.of_nat n)) in *.
  assert (Hr : (0 < r / 2)%Q).
  { unfold r, Qdiv, Qlt, Qmult, Qinv, inject_Z. simpl. lia. }
  assert (Hm : (0 <= m)%Q).
  { unfold m, Qle, inject_Z. simpl. lia. }
  assert (Hx : (inject_Z i < Qmin 5000 (r / 2) * m / (r / 2))%Q).
  { eapply Qlt_le_trans; [|apply Qfloor_le].
    rewrite <- Zlt_Qlt. exact H. }
  assert (Hy : (Qmin 5000 (r / 2) * m / (r / 2) <= 5000 * m / (r / 2))%Q).
  { unfold Qdiv at 1 3. apply Qmult_le_compat_r.
    - apply Qmult_le_compat_r; [apply Q.le_min_l|exact Hm].
    - apply Qinv_le_0_compat. apply Qlt_le_weak. exact Hr. }
  pose proof (Qlt_le_trans _ _ _ Hx Hy) as Hz.
  apply (Qmult_lt_compat_r _ _ (r / 2) Hr) in Hz.
  unfold Qdiv at 2 in Hz. rewrite <- Qmult_assoc in Hz.
  rewrite (Qmult_comm (/ (r / 2))) in Hz. rewrite Qmult_inv_r in Hz.
  2:{ intros E. rewrite E in Hr. discriminate. }
  revert Hz. unfold r, m.
  cbv [Qlt Qmult Qdiv Qinv inject_Z Qnum Qden]. lia.
Qed.

Lemma visited_below_5000 (rate : positive) (data : list Z) (i : Z) :
  In i (visitedBins rate data) ->
  (binFrequency rate (length data) i <? 5000)%num = true.
Proof.
  unfold visitedBins. intros H. apply in_range in H. destruct H as [H1 H2].
  apply maxBin_bound in H2.
  assert (Hn : 0 < Z.of_nat (length data)) by lia.
  unfold binFrequency, JS.mul, JS.div, of_nat, of_Z, fin.
  destruct (Qeq_bool
              (Qred (inject_Z 2 * inject_Z (Z.of_nat (length data)))) 0)
    eqn:E.
  { apply Qeq_bool_eq in E. rewrite Qred_correct in E.
    cbv [Qeq Qmult inject_Z Qnum Qden] in E. lia. }
  unfold JS.ltb, Qltb. apply negb_true_iff.
  destruct (Qle_bool _ _) eqn:L; [|reflexivity].
  apply Qle_bool_iff in L. rewrite !Qred_correct in L.
  exfalso. revert L.
  destruct (Z.of_nat (length data)) as [|p|p] eqn:Ep; try lia.
  cbv [Qle Qmult Qdiv Qinv inject_Z Qnum Qden].
  change (2 * Z.pos p) with (Z.pos p~0). cbv beta iota. lia.
Qed.

(** C7.  Each band energy returned by [analyzeFrequency] is the arithmetic
    mean ([0] when there is none) of the magnitudes of the visited bins
    that fall in the band, a bin being counted in the first of bass, mid,
    treble that contains its frequency
    [binIndex * sampleRate / (2 * binCount)].  The visited bins are those
    with [1 <= binIndex < maxBin], where [maxBin] is
    [floor(min(5000, sampleRate / 2) * binCount / (sampleRate / 2))]: all
    of them lie below 5000 Hz. *)
Theorem band_energies (s : Analyzer) (ctx : AudioContext) (data : list Z) :
  audioContext s = Some ctx ->
  frequencyData (buffers s) = Some data ->
  let fa := frequencyAnalysis s in
  let visited := visitedBins (sampleRate ctx) data in
  (forall i, In i visited ->
     (binFrequency (sampleRate ctx) (length data) i <? 5000)%num = true)
  /\ exists fd,
       fst (analyzeFrequency s) = Normal fd
       /\ f_bass fd
          = meanMagnitude data
              (filter (isBass fa (sampleRate ctx) data) visited)
       /\ f_mid fd
          = meanMagnitude data
              (filter (isMid fa (sampleRate ctx) data) visited)
       /\ f_treble fd
          = meanMagnitude data
              (filter (isTreble fa (sampleRate ctx) data) visited).
Proof.
  intros Hc Hd fa visited.
  split; [intros i; apply visited_below_5000|].
  unfold analyzeFrequency, bind, get, deref, modify, ret. rewrite Hc, Hd.
  eexists. split; [reflexivity|]. cbn [f_bass f_mid f_treble].
  fold fa. fold (visitedBins (sampleRate ctx) data). fold visited.
  destruct (fold_bandStep fa (sampleRate ctx) data visited noSums)
    as (H1 & H2 & H3 & H4 & H5 & H6).
  cbv zeta in H1, H2, H3, H4, H5, H6.
  rewrite H1, H2, H3, H4, H5, H6.
  unfold meanMagnitude, JS.sum.
  repeat split; reflexivity.
Qed.

Lemma band_energies_witness :
  audioContext (snd (getByteFrequencyData highFrame (initialized 44100 1024)))
  = Some {| sampleRate := 44100 |}
  /\ frequencyData
       (buffers (snd (getByteFrequencyData highFrame
                        (initialized 44100 1024))))
     = Some highFrame
  /\ (forall i, In i (visitedBins 44100 highFrame) ->
        (binFrequency 44100 (length highFrame) i <? 5000)%num = true)
  /\ exists fd,
       fst (analyzeFrequency
              (snd (getByteFrequencyData highFrame (initialized 44100 1024))))
       = Normal fd
       /\ f_bass fd
          = meanMagnitude highFrame
              (filter (isBass defaultFrequencyAnalysis 44100 highFrame)
                      (visitedBins 44100 highFrame))
       /\ f_mid fd
          = meanMagnitude highFrame
              (filter (isMid defaultFrequencyAnalysis 44100 highFrame)
                      (visitedBins 44100 highFrame))
       /\ f_treble fd
          = meanMagnitude highFrame
              (filter (isTreble defaultFrequencyAnalysis 44100 highFrame)
                      (visitedBins 44100 highFrame)).
Proof.
  split; [reflexivity|]. split; [vm_compute; reflexivity|].
  apply (band_energies
           (snd (getByteFrequencyData highFrame (initialized 44100 1024)))
           {| sampleRate := 44100 |} highFrame).
  - reflexivity.
  - vm_compute; reflexivity.
Defined.

(** A frame whose only energy is at 10.8 kHz: the mean over all the bins
    from 4000 Hz to 20000 Hz is [1/743], the treble energy returned is
    [0]. *)
Lemma treble_skips_high_bins :
  claimedBand 44100 highFrame (trebleRange defaultFrequencyAnalysis)
  = dec 1 743
  /\ fst (analyzeFrequency
            (snd (getByteFrequencyData highFrame (initialized 44100 1024))))
     = Normal {| f_bass := 0; f_mid := 0; f_treble := 0; f_peak := 0;
                 f_peakValue := 0; f_totalEnergy := 0;
                 f_spectralCentroid := 0; f_brightness := 0 |}
  /\ of_Z 0 <> claimedBand 44100 highFrame
                 (trebleRange defaultFrequencyAnalysis).
Proof.
  split; [vm_compute; reflexivity|].
  split; [vm_compute; reflexivity|].
  vm_compute. discriminate.
Qed.

(** *** Exceptions *)

Lemma sameDevice_ready s s' : sameDevice s s' -> ready s' = ready s.
Proof.
  intros (H1 & H2 & H3 & H4). unfold ready. rewrite H1, H2, H3, H4.
  reflexivity.
Qed.

Lemma ready_fields s :
  ready s = true ->
  isInitialized s = true
  /\ exists node ctx f td p,
       analyserNode s = Some node /\ audioContext s = Some ctx
       /\ frequencyData (buffers s) = Some f
       /\ timeData (buffers s) = Some td
       /\ previousFrequencyData (buffers s) = Some p
       /\ (length f <= length p)%nat.
Proof.
  unfold ready. intros H. apply andb_true_iff in H. destruct H as [Hi H].
  split; [exact Hi|].
  destruct (analyserNode s) as [node|]; [|discriminate].
  destruct (audioContext s) as [ctx|]; [|discriminate].
  destruct (frequencyData (buffers s)) as [f|]; [|discriminate].
  destruct (timeData (buffers s)) as [td|]; [|discriminate].
  destruct (previousFrequencyData (buffers s)) as [p|]; [|discriminate].
  apply Nat.leb_le in H. exists node, ctx, f, td, p. repeat split; auto.
Qed.

Lemma fill_length array frame : length (fill array frame) = length array.
Proof.
  unfold fill. rewrite length_app, length_firstn, length_skipn. lia.
Qed.

Lemma getByteFrequencyData_ready frame s :
  ready s = true ->
  exists s', getByteFrequencyData frame s = (Normal tt, s')
             /\ ready s' = true.
Proof.
  intros H. apply ready_fields in H.
  destruct H as (Hi & node & ctx & f & td & p & Hn & Hc & Hf & Ht & Hp & Hl).
  unfold getByteFrequencyData, bind, get, deref, modify, ret.
  rewrite Hf. eexists. split; [reflexivity|].
  unfold ready. simpl. rewrite Hi, Hn, Hc, Ht, Hp. simpl.
  rewrite fill_length. apply Nat.leb_le. exact Hl.
Qed.

Lemma getByteTimeDomainData_ready frame s :
  ready s = true ->
  exists s', getByteTimeDomainData frame s = (Normal tt, s')
             /\ ready s' = true.
Proof.
  intros H. apply ready_fields in H.
  destruct H as (Hi & node & ctx & f & td & p & Hn & Hc & Hf & Ht & Hp & Hl).
  unfold getByteTimeDomainData, bind, get, deref, modify, ret.
  rewrite Ht. eexists. split; [reflexivity|].
  unfold ready. simpl. rewrite Hi, Hn, Hc, Hf, Hp. simpl.
  apply Nat.leb_le. exact Hl.
Qed.

Lemma calculateVolume_ready sqrt s :
  ready s = true -> exists v, calculateVolume sqrt s = (Normal v, s).
Proof.
  intros H. apply ready_fields in H.
  destruct H as (Hi & node & ctx & f & td & p & Hn & Hc & Hf & Ht & Hp & Hl).
  unfold calculateVolume, bind, get, deref, ret. rewrite Ht. eauto.
Qed.

Lemma analyzeFrequency_ready s :
  ready s = true ->
  exists fd s', analyzeFrequency s = (Normal fd, s') /\ ready s' = true.
Proof.
  intros H. pose proof H as H0. apply ready_fields in H.
  destruct H as (Hi & node & ctx & f & td & p & Hn & Hc & Hf & Ht & Hp & Hl).
  unfold analyzeFrequency, bind, get, deref, modify, ret. rewrite Hc, Hf.
  eexists _, _. split; [reflexivity|]. exact H0.
Qed.

Lemma detectBeat_sameDevice now bpmTime :
  relates sameDevice (detectBeat now bpmTime).
Proof.
  intros s. unfold detectBeat, bind, get, modify, ret.
  destruct (_ <? _); [apply sameDevice_refl|].
  destruct (calculateEnergy_cases s) as [E|[ed E]]; rewrite E;
    [apply sameDevice_refl|].
  destruct (_ || _); [|repeat split].
  unfold estimateBPM, bind, get, modify, ret. repeat split.
Qed.

Lemma detectBeat_ready now bpmTime s :
  ready s = true ->
  exists b s', detectBeat now bpmTime s = (Normal b, s') /\ ready s' = true.
Proof.
  intros H. pose proof (detectBeat_sameDevice now bpmTime s) as Hd.
  apply sameDevice_ready in Hd.
  destruct (detectBeat_cases now bpmTime s)
    as [[_ E]|[_ [E|(b & s' & E & _)]]]; rewrite E in Hd |- *; simpl in Hd.
  - eauto.
  - exfalso. apply ready_fields in H.
    destruct H as (Hi & node & ctx & f & td & p & Hn & Hc & Hf & Ht & Hp & Hl).
    revert E. unfold detectBeat, bind, get, modify, ret.
    destruct (_ <? _); [discriminate|].
    unfold calculateEnergy, bind, get, deref, ret. rewrite Hf, Hc.
    destruct (_ || _); [|discriminate].
    unfold estimateBPM, bind, get, modify, ret. discriminate.
  - exists b, s'. split; [reflexivity|congruence].
Qed.

Lemma updateHistory_ready s :
  ready s = true ->
  exists s', updateHistory s = (Normal tt, s') /\ ready s' = true.
Proof.
  intros H. apply ready_fields in H.
  destruct H as (Hi & node & ctx & f & td & p & Hn & Hc & Hf & Ht & Hp & Hl).
  unfold updateHistory, bind, get, deref, modify, ret, throw. rewrite Hp, Hf.
  destruct (Nat.ltb_spec (length p) (length f)); [lia|].
  eexists. split; [reflexivity|].
  unfold ready. simpl. rewrite Hi, Hn, Hc, Hf, Ht. simpl.
  apply Nat.leb_le. rewrite length_app. lia.
Qed.

Lemma calculateSpectralFlux_ready s :
  ready s = true -> exists f, calculateSpectralFlux s = (Normal f, s).
Proof.
  intros H. apply ready_fields in H.
  destruct H as (Hi & node & ctx & f & td & p & Hn & Hc & Hf & Ht & Hp & Hl).
  unfold calculateSpectralFlux, bind, get, deref, ret. rewrite Hp, Hf, Hc.
  eauto.
Qed.

(** On a ready object no step raises, whatever the frames. *)
Lemma analysisPass_ready sqrt e s :
  ready s = true ->
  exists r f s',
    analysisPass sqrt e s = (Normal (r, f), s')
    /\ r_timestamp r = e_nowStamp e
    /\ ready s' = true.
Proof.
  intros H. unfold analysisPass.
  destruct (getByteFrequencyData_ready (e_frequencyFrame e) s H)
    as (s1 & E1 & H1).
  destruct (getByteTimeDomainData_ready (e_timeFrame e) s1 H1)
    as (s2 & E2 & H2).
  destruct (calculateVolume_ready sqrt s2 H2) as (v & E3).
  destruct (analyzeFrequency_ready s2 H2) as (fd & s3 & E4 & H4).
  destruct (detectBeat_ready (e_nowBeat e) (e_nowBpm e) s3 H4)
    as (b & s4 & E5 & H5).
  destruct (updateHistory_ready s4 H5) as (s5 & E6 & H6).
  destruct (calculateSpectralFlux_ready s5 H6) as (f & E7).
  unfold bind. rewrite E1, E2, E3, E4, E5, E6, E7. unfold ret.
  eexists _, _, _. split; [reflexivity|]. split; [reflexivity|exact H6].
Qed.

(** C9.  [getAnalysisData] never raises.  It returns [null], leaving the
    object untouched, when the analyzer is not initialised or has no
    analyser node; it returns [null] as well whenever a step of the
    analysis raises; these are the only cases of [null].  On a ready object it
    returns a result, with all four properties, for every pair of frames,
    and the object stays ready. *)
Theorem getAnalysisData_never_raises (sqrt : num -> num) (e : Tick)
    (s : Analyzer) :
  exists r s',
    getAnalysisData sqrt e s = (Normal r, s')
    /\ (isInitialized s = false \/ analyserNode s = None ->
        r = None /\ s' = s)
    /\ (r = None <->
        isInitialized s = false \/ analyserNode s = None
        \/ fst (analysisPass sqrt e s) = Thrown)
    /\ (ready s = true ->
        ready s' = true
        /\ exists result, r = Some result
                          /\ r_timestamp result = e_nowStamp e).
Proof.
  destruct (getAnalysisData_cases sqrt e s)
    as [[E H]|(Hi & Hn & [(s' & P & E)|(r & f & s' & P & E)])];
    rewrite E; eexists _, _; (split; [reflexivity|]).
  - split; [auto|]. split; [tauto|].
    intros Hr. apply ready_fields in Hr.
    destruct Hr as (Hi & node & _ & _ & _ & _ & Hn & _).
    destruct H; congruence.
  - split; [intros [H|H]; congruence|].
    split; [split; [intros _; right; right; rewrite P|]; reflexivity|].
    intros Hr. destruct (analysisPass_ready sqrt e s Hr) as (?&?&?&P'&_).
    congruence.
  - split; [intros [H|H]; congruence|].
    split.
    { split; [discriminate|]. rewrite P.
      intros [H|[H|H]]; [congruence|congruence|discriminate]. }
    intros Hr.
    destruct (analysisPass_ready sqrt e s Hr) as (r'&f'&s''&P'&T&R).
    rewrite P in P'. inversion P'; subst. split; [exact R|eauto].
Qed.

(** Called on the object the constructor builds, before [init],
    [getAnalysisData] returns [null]. *)
Lemma uninitialized_returns_null :
  getAnalysisData sqrtLower (tickWith quietFrame 1700000000000) create
  = (Normal None, create).
Proof. reflexivity. Qed.

(** *** The histories of the beat detector *)

Lemma keeps_refl P s : keeps P s s.
Proof. intros H; exact H. Qed.

Lemma keeps_trans P a b c : keeps P a b -> keeps P b c -> keeps P a c.
Proof. unfold keeps. auto. Qed.

Lemma sameRhythm_refl s : sameRhythm s s.
Proof. repeat split. Qed.

Lemma sameRhythm_trans a b c :
  sameRhythm a b -> sameRhythm b c -> sameRhythm a c.
Proof. unfold sameRhythm. intuition congruence. Qed.

Lemma getByteFrequencyData_sameRhythm frame :
  relates sameRhythm (getByteFrequencyData frame).
Proof.
  unfold getByteFrequencyData.
  relates_with sameRhythm_refl sameRhythm_trans; repeat split.
Qed.

Lemma getByteTimeDomainData_sameRhythm frame :
  relates sameRhythm (getByteTimeDomainData frame).
Proof.
  unfold getByteTimeDomainData.
  relates_with sameRhythm_refl sameRhythm_trans; repeat split.
Qed.

Lemma calculateVolume_sameRhythm sqrt :
  relates sameRhythm (calculateVolume sqrt).
Proof.
  unfold calculateVolume.
  relates_with sameRhythm_refl sameRhythm_trans.
Qed.

Lemma analyzeFrequency_sameRhythm : relates sameRhythm analyzeFrequency.
Proof.
  unfold analyzeFrequency.
  relates_with sameRhythm_refl sameRhythm_trans; repeat split.
Qed.

Lemma updateHistory_sameRhythm : relates sameRhythm updateHistory.
Proof.
  unfold updateHistory.
  relates_with sameRhythm_refl sameRhythm_trans.
  destruct (_ <? _)%nat;
    relates_with sameRhythm_refl sameRhythm_trans; repeat split.
Qed.

Lemma calculateSpectralFlux_sameRhythm :
  relates sameRhythm calculateSpectralFlux.
Proof.
  unfold calculateSpectralFlux.
  relates_with sameRhythm_refl sameRhythm_trans.
  destruct (previousFrequencyData _);
    relates_with sameRhythm_refl sameRhythm_trans.
Qed.

Lemma sameRhythm_bounded s s' :
  sameRhythm s s' -> historiesBounded s' = historiesBounded s.
Proof.
  intros (H1 & H2 & H3). unfold historiesBounded, storedIntervals.
  rewrite H1, H2. reflexivity.
Qed.

Lemma sameRhythm_keeps {A} (m : M A) :
  relates sameRhythm m -> relates (keeps historiesBounded) m.
Proof.
  apply relates_weaken. intros a b H Ha.
  rewrite (sameRhythm_bounded _ _ H). exact Ha.
Qed.

Lemma pushEnergy_length size e h :
  (length h <= size)%nat -> (length (pushEnergy size e h) <= size)%nat.
Proof.
  intros H. unfold pushEnergy. rewrite length_app. simpl.
  destruct (Nat.ltb_spec size (length h + 1)).
  - destruct h as [|y h]; simpl in *; [lia|]. rewrite length_app. simpl. lia.
  - rewrite length_app. simpl. lia.
Qed.

Lemma recordEnergy_history e d :
  historySize (recordEnergy e d) = historySize d
  /\ energyHistory (recordEnergy e d)
     = pushEnergy (historySize d) e (energyHistory d).
Proof.
  unfold recordEnergy, updateStatistics. simpl.
  destruct (_ <=? _)%nat; split; reflexivity.
Qed.

Lemma recordInterval_bounded m now last l :
  (length l <= 20)%nat ->
  forallb (fun i => (m <=? i) && (i <=? 2000)) l = true ->
  (length (recordInterval m now last l) <= 20)%nat
  /\ forallb (fun i => (m <=? i) && (i <=? 2000))
             (recordInterval m now last l) = true.
Proof.
  intros Hl Hf. unfold recordInterval.
  destruct last as [t|]; [|auto].
  destruct (t =? 0); [auto|].
  destruct ((m <=? now - t) && (now - t <=? 2000)) eqn:E; [|auto].
  assert (F : forallb (fun i => (m <=? i) && (i <=? 2000))
                      (l ++ [now - t]) = true).
  { rewrite forallb_app, Hf. simpl. rewrite E. reflexivity. }
  destruct (Nat.ltb_spec 20 (length (l ++ [now - t]))) as [L|L].
  - rewrite length_app in L. simpl in L.
    destruct (l ++ [now - t]) as [|y r] eqn:R.
    + split; [simpl; lia|reflexivity].
    + assert (Len : length (y :: r) = (length l + 1)%nat)
        by (rewrite <- R, length_app; reflexivity).
      simpl in *. apply andb_true_iff in F. split; [lia|tauto].
  - split; assumption.
Qed.

Lemma detectBeat_keeps now bpmTime :
  relates (keeps historiesBounded) (detectBeat now bpmTime).
Proof.
  intros s H. unfold detectBeat, bind, get, modify, ret.
  destruct (_ <? _); [exact H|].
  destruct (calculateEnergy_cases s) as [E|[ed E]]; rewrite E; [exact H|].
  unfold historiesBounded in H. rewrite !andb_true_iff, !Nat.leb_le in H.
  destruct H as [[H1 H2] H3].
  destruct (recordEnergy_history (en_total ed) (beatDetection s)) as [R1 R2].
  pose proof (recordEnergy_pause (en_total ed) (beatDetection s)) as [R3 _].
  destruct (_ || _).
  - rewrite estimateBPM_eval. simpl.
    unfold historiesBounded, storedIntervals. simpl.
    rewrite R1, R2, R3.
    destruct (recordInterval_bounded (minInterval (beatDetection s)) bpmTime
                (lastBeatTimestamp s)
                (match beatIntervals s with Some l => l | None => [] end)
                H2 H3) as [B1 B2].
    rewrite !andb_true_iff, !Nat.leb_le.
    split; [split|]; [apply pushEnergy_length; exact H1|exact B1|exact B2].
  - simpl. unfold historiesBounded, storedIntervals. simpl.
    rewrite R1, R2, R3. rewrite !andb_true_iff, !Nat.leb_le.
    split; [split|]; [apply pushEnergy_length; exact H1|exact H2|exact H3].
Qed.

Lemma analysisPass_keeps sqrt e :
  relates (keeps historiesBounded) (analysisPass sqrt e).
Proof.
  unfold analysisPass.
  apply (relates_bind _ (keeps_trans _));
    [apply sameRhythm_keeps, getByteFrequencyData_sameRhythm|intros _].
  apply (relates_bind _ (keeps_trans _));
    [apply sameRhythm_keeps, getByteTimeDomainData_sameRhythm|intros _].
  apply (relates_bind _ (keeps_trans _));
    [apply sameRhythm_keeps, calculateVolume_sameRhythm|intros v].
  apply (relates_bind _ (keeps_trans _));
    [apply sameRhythm_keeps, analyzeFrequency_sameRhythm|intros fd].
  apply (relates_bind _ (keeps_trans _));
    [apply detectBeat_keeps|intros b].
  apply (relates_bind _ (keeps_trans _));
    [apply sameRhythm_keeps, updateHistory_sameRhythm|intros _].
  apply (relates_bind _ (keeps_trans _));
    [apply sameRhythm_keeps, calculateSpectralFlux_sameRhythm|intros f].
  apply (relates_ret _ (keeps_refl _)).
Qed.

Lemma getAnalysisData_keeps sqrt e :
  relates (keeps historiesBounded) (getAnalysisData sqrt e).
Proof.
  intros s. rewrite getAnalysisData_unfold.
  destruct (_ || _); [apply keeps_refl|].
  pose proof (analysisPass_keeps sqrt e s) as H.
  destruct (analysisPass sqrt e s) as [[r|] s']; exact H.
Qed.

(** X12.  Over any sequence of calls of [getAnalysisData], whatever the
    frames and the clock, the energy history never holds more than
    [historySize] values, and the interval list never more than 20
    intervals, each between [minInterval] and 2000 ms. *)
Theorem histories_stay_bounded (sqrt : num -> num) (ticks : list Tick)
    (s : Analyzer) :
  historiesBounded s = true ->
  historiesBounded (after (getAnalysisData sqrt) ticks s) = true.
Proof.
  revert s. induction ticks as [|e ticks IH]; intros s H; [exact H|].
  unfold after in *. simpl. apply IH.
  exact (getAnalysisData_keeps sqrt e s H).
Qed.

Lemma histories_stay_bounded_witness :
  historiesBounded (initialized 44100 1024) = true
  /\ historiesBounded
       (after (getAnalysisData sqrtLower)
          [tickWith kickFrame 1700000000000;
           tickWith quietFrame 1700000000100;
           tickWith kickFrame 1700000000500]
          (initialized 44100 1024)) = true.
Proof.
  split; [reflexivity|].
  apply (histories_stay_bounded sqrtLower
           [tickWith kickFrame 1700000000000;
            tickWith quietFrame 1700000000100;
            tickWith kickFrame 1700000000500]
           (initialized 44100 1024)).
  reflexivity.
Defined.

(** *** The beat object *)

Lemma bpmOf_values l :
  ((length l < 4)%nat /\ bpmOf l = of_Z 0)
  \/ ((4 <= length l)%nat /\ exists z, 60 <= z <= 200 /\ bpmOf l = of_Z z).
Proof.
  destruct (Nat.leb_spec 4 (length l)) as [H|H].
  - right. split; [exact H|]. apply bpmOf_range. exact H.
  - left. split; [exact H|]. unfold bpmOf.
    destruct (Nat.leb_spec 4 (length l)); [lia|reflexivity].
Qed.

Lemma detectBeat_event now bpmTime s b s' :
  detectBeat now bpmTime s = (Normal b, s') ->
  (b_detected b = false
   /\ b_strength b = of_Z 0 /\ b_bpm b = of_Z 0 /\ b_confidence b = of_Z 0
   /\ b_type b = None)
  \/ (b_detected b = true
      /\ b_type b <> None
      /\ (b_strength b >? 1)%num = false
      /\ (b_confidence b >? 1)%num = false
      /\ b_bpm b = bpmOf (storedIntervals s')).
Proof.
  unfold detectBeat, bind, get, modify, ret.
  destruct (_ <? _).
  - intros [= <- <-]. left. repeat split.
  - destruct (calculateEnergy_cases s) as [E|[ed E]]; rewrite E;
      [discriminate|].
    destruct (_ || _).
    + rewrite estimateBPM_eval. intros [= <- <-]. right.
      split; [reflexivity|]. split; [discriminate|].
      split; [apply min_not_above|]. split; [apply min_not_above|].
      reflexivity.
    + intros [= <- <-]. left. repeat split.
Qed.

Lemma analysisPass_rhythm sqrt e s r f s' :
  analysisPass sqrt e s = (Normal (r, f), s') ->
  exists s3 s4,
    sameRhythm s s3
    /\ detectBeat (e_nowBeat e) (e_nowBpm e) s3 = (Normal (r_beat r), s4)
    /\ sameRhythm s4 s'.
Proof.
  unfold analysisPass. intros H.
  apply bind_Normal in H. destruct H as ([] & s1 & H1 & H).
  apply bind_Normal in H. destruct H as ([] & s2 & H2 & H).
  apply bind_Normal in H. destruct H as (volume & s2' & H3 & H).
  apply bind_Normal in H. destruct H as (frequency & s3 & H4 & H).
  apply bind_Normal in H. destruct H as (beat & s4 & H5 & H).
  apply bind_Normal in H. destruct H as ([] & s5 & H6 & H).
  apply bind_Normal in H. destruct H as (flux & s6 & H7 & H).
  unfold ret in H. inversion H; subst; clear H. simpl.
  exists s3, s4. split; [|split; [exact H5|]].
  - pose proof (getByteFrequencyData_sameRhythm (e_frequencyFrame e) s)
      as R1.
    pose proof (getByteTimeDomainData_sameRhythm (e_timeFrame e) s1) as R2.
    pose proof (calculateVolume_sameRhythm sqrt s2) as R3.
    pose proof (analyzeFrequency_sameRhythm s2') as R4.
    rewrite H1 in R1. rewrite H2 in R2. rewrite H3 in R3. rewrite H4 in R4.
    simpl in *.
    exact (sameRhythm_trans _ _ _
             (sameRhythm_trans _ _ _ (sameRhythm_trans _ _ _ R1 R2) R3) R4).
  - pose proof (updateHistory_sameRhythm s4) as R6.
    pose proof (calculateSpectralFlux_sameRhythm s5) as R7.
    rewrite H6 in R6. rewrite H7 in R7. simpl in *.
    exact (sameRhythm_trans _ _ _ R6 R7).
Qed.

(** X13.  The [beat] property of every result of [getAnalysisData]: when
    no beat is detected, [strength], [bpm] and [confidence] are [0] and
    there is no [type]; when one is detected it has a [type], [strength]
    and [confidence] are not above 1, and [bpm] is the tempo of the
    intervals stored after the call: [0] while fewer than four are
    stored, an integer from 60 to 200 otherwise. *)
Theorem beat_event_shape (sqrt : num -> num) (e : Tick) (s : Analyzer)
    (b : BeatEvent) :
  beatOf (fst (getAnalysisData sqrt e s)) = Some b ->
  let stored := storedIntervals (snd (getAnalysisData sqrt e s)) in
  (b_detected b = false ->
   b_strength b = of_Z 0 /\ b_bpm b = of_Z 0 /\ b_confidence b = of_Z 0
   /\ b_type b = None)
  /\ (b_detected b = true ->
      b_type b <> None
      /\ (b_strength b >? 1)%num = false
      /\ (b_confidence b >? 1)%num = false
      /\ b_bpm b = bpmOf stored
      /\ ((length stored < 4)%nat -> b_bpm b = of_Z 0)
      /\ ((4 <= length stored)%nat ->
          exists z, 60 <= z <= 200 /\ b_bpm b = of_Z z)).
Proof.
  intros Hb stored. subst stored.
  destruct (getAnalysisData_cases sqrt e s)
    as [[E H]|(Hi & Hn & [(s' & P & E)|(r & f & s' & P & E)])];
    rewrite E in Hb |- *; simpl in Hb; try discriminate.
  injection Hb as <-. simpl.
  destruct (analysisPass_rhythm sqrt e s r f s' P)
    as (s3 & s4 & _ & D & (_ & R & _)).
  assert (S4 : storedIntervals s' = storedIntervals s4)
    by (unfold storedIntervals; rewrite R; reflexivity).
  rewrite S4.
  destruct (detectBeat_event _ _ _ _ _ D)
    as [(D1 & D2 & D3 & D4 & D5)|(D1 & D2 & D3 & D4 & D5)].
  - split; [auto|]. intros T. congruence.
  - split; [intros T; congruence|]. intros _.
    repeat (split; [assumption|]).
    rewrite D5.
    destruct (bpmOf_values (storedIntervals s4)) as [[L Z]|[L Z]];
      split; intros; try lia; assumption.
Qed.

Lemma beat_event_shape_witness :
  beatOf (fst (getAnalysisData sqrtLower (tickWith kickFrame 1700000000000)
                 (initialized 44100 1024)))
  = Some VC.kickBeatEvent
  /\ (b_detected VC.kickBeatEvent = false ->
      b_strength VC.kickBeatEvent = of_Z 0 /\ b_bpm VC.kickBeatEvent = of_Z 0
      /\ b_confidence VC.kickBeatEvent = of_Z 0
      /\ b_type VC.kickBeatEvent = None)
  /\ (b_detected VC.kickBeatEvent = true ->
      b_type VC.kickBeatEvent <> None
      /\ (b_strength VC.kickBeatEvent >? 1)%num = false
      /\ (b_confidence VC.kickBeatEvent >? 1)%num = false
      /\ b_bpm VC.kickBeatEvent
         = bpmOf (storedIntervals
                    (snd (getAnalysisData sqrtLower
                            (tickWith kickFrame 1700000000000)
                            (initialized 44100 1024))))
      /\ ((length
             (storedIntervals
                (snd (getAnalysisData sqrtLower
                        (tickWith kickFrame 1700000000000)
                        (initialized 44100 1024)))) < 4)%nat ->
          b_bpm VC.kickBeatEvent = of_Z 0)
      /\ ((4 <= length
                  (storedIntervals
                     (snd (getAnalysisData sqrtLower
                             (tickWith kickFrame 1700000000000)
                             (initialized 44100 1024)))))%nat ->
          exists z, 60 <= z <= 200 /\ b_bpm VC.kickBeatEvent = of_Z z)).
Proof.
  assert (H : beatOf (fst (getAnalysisData sqrtLower
                             (tickWith kickFrame 1700000000000)
                             (initialized 44100 1024)))
              = Some VC.kickBeatEvent)
    by (vm_compute; reflexivity).
  split; [exact H|].
  exact (beat_event_shape sqrtLower (tickWith kickFrame 1700000000000)
           (initialized 44100 1024) VC.kickBeatEvent H).
Defined.

(** *** Ranges of the measures *)

Lemma magnitude_byte data i :
  bytes data = true ->
  0 <= i < Z.of_nat (length data) ->
  within 0 1 (magnitude data i) = true.
Proof.
  intros Hb Hi. unfold magnitude.
  destruct (Z.ltb_spec i 0); [lia|].
  destruct (nth_error data (Z.to_nat i)) as [b|] eqn:E.
  - assert (B : isByte b = true).
    { unfold bytes in Hb. rewrite forallb_forall in Hb. apply Hb.
      eapply nth_error_In. exact E. }
    unfold isByte in B. apply andb_true_iff in B.
    rewrite !Z.leb_le in B. destruct B as [B0 B1].
    unfold JS.div, of_Z. change (Qeq_bool (inject_Z 255) 0) with false.
    cbv iota. apply within_spec. eexists. split; [reflexivity|].
    split; [apply Qred_le_r|apply Qred_le_l];
      cbv [Qle Qdiv Qmult Qinv inject_Z Qnum Qden]; lia.
  - apply nth_error_None in E. lia.
Qed.

Lemma mean_within01 (l : list num) :
  Forall (fun x => within 0 1 x = true) l ->
  within 0 1 (meanOrZero (JS.sum l) (length l)) = true.
Proof.
  intros H. unfold meanOrZero.
  destruct (Nat.ltb_spec 0 (length l)) as [N|N]; [|reflexivity].
  destruct (sum_within01 l (inject_Z 0) H) as (q & E & Q0 & Q1).
  unfold JS.sum. change (of_Z 0) with (Fin (inject_Z 0)). rewrite E.
  rewrite Qplus_0_l in Q1.
  destruct (div_count_bounded q 1 (length l) N Q0) as (r & -> & R0 & R1).
  { rewrite Qmult_1_r. exact Q1. }
  apply within_spec. eauto.
Qed.

Lemma maxBin_le_length (n : nat) (rate : positive) :
  maxBinOf n rate <= Z.of_nat n.
Proof.
  unfold maxBinOf, binOf.
  set (r := inject_Z (Zpos rate)).
  set (m := inject_Z (Z.of_nat n)).
  assert (Hr : (0 < r / 2)%Q).
  { unfold r, Qdiv, Qlt, Qmult, Qinv, inject_Z. simpl. lia. }
  assert (Hm : (0 <= m)%Q).
  { unfold m, Qle, inject_Z. simpl. lia. }
  rewrite <- (Qfloor_Z (Z.of_nat n)). apply Qfloor_resp_le. fold m.
  apply Qle_shift_div_r; [exact Hr|].
  rewrite (Qmult_comm m). apply Qmult_le_compat_r; [|exact Hm].
  apply Q.le_min_r.
Qed.

Lemma visited_within (rate : positive) (data : list Z) (p : Z -> bool) :
  bytes data = true ->
  Forall (fun x => within 0 1 x = true)
         (map (magnitude data) (filter p (visitedBins rate data))).
Proof.
  intros Hb. apply Forall_map, Forall_forall. intros i Hi.
  apply filter_In in Hi. destruct Hi as [Hi _].
  unfold visitedBins in Hi. apply in_range in Hi.
  pose proof (maxBin_le_length (length data) rate).
  apply magnitude_byte; [exact Hb|lia].
Qed.

Lemma bandStep_peak fa data binSize a i :
  within 0 1 (magnitude data i) = true ->
  within 0 1 (peakValue a) = true ->
  within 0 1 (peakValue (bandStep fa data binSize a i)) = true.
Proof.
  intros Hv Ha. unfold bandStep.
  repeat match goal with
         | |- context [if ?b then _ else _] => destruct b
         end; simpl; assumption.
Qed.

Lemma fold_bandStep_peak fa data binSize l a :
  Forall (fun i => within 0 1 (magnitude data i) = true) l ->
  within 0 1 (peakValue a) = true ->
  within 0 1 (peakValue (fold_left (bandStep fa data binSize) l a)) = true.
Proof.
  revert a. induction l as [|i l IH]; intros a Hl Ha; [exact Ha|].
  inversion Hl; subst. simpl. apply IH; [assumption|].
  apply bandStep_peak; assumption.
Qed.

(** X14.  On a buffer of bytes [analyzeFrequency] returns band energies
    [bass], [mid] and [treble] and a [peakValue] that are all finite
    numbers between 0 and 1, whatever the sample rate and the bands. *)
Theorem band_levels_within_unit (s : Analyzer) (ctx : AudioContext)
    (data : list Z) :
  audioContext s = Some ctx ->
  frequencyData (buffers s) = Some data ->
  bytes data = true ->
  exists fd,
    fst (analyzeFrequency s) = Normal fd
    /\ within 0 1 (f_bass fd) = true
    /\ within 0 1 (f_mid fd) = true
    /\ within 0 1 (f_treble fd) = true
    /\ within 0 1 (f_peakValue fd) = true.
Proof.
  intros Hc Hd Hb.
  unfold analyzeFrequency, bind, get, deref, modify, ret. rewrite Hc, Hd.
  eexists. split; [reflexivity|]. cbn [f_bass f_mid f_treble f_peakValue].
  fold (visitedBins (sampleRate ctx) data).
  set (fa := frequencyAnalysis s).
  set (visited := visitedBins (sampleRate ctx) data).
  destruct (fold_bandStep fa (sampleRate ctx) data visited noSums)
    as (H1 & H2 & H3 & H4 & H5 & H6).
  cbv zeta in H1, H2, H3, H4, H5, H6.
  rewrite H1, H2, H3, H4, H5, H6.
  assert (M : forall p,
             within 0 1
               (meanOrZero
                  (fold_left JS.add (map (magnitude data) (filter p visited))
                             (of_Z 0))
                  (0 + length (filter p visited))) = true).
  { intros p.
    pose proof (mean_within01 _ (visited_within (sampleRate ctx) data p Hb))
      as W.
    rewrite length_map in W. exact W. }
  split; [apply M|]. split; [apply M|]. split; [apply M|].
  - apply fold_bandStep_peak; [|reflexivity].
    apply Forall_forall. intros i Hi. unfold visited, visitedBins in Hi.
    apply in_range in Hi.
    pose proof (maxBin_le_length (length data) (sampleRate ctx)).
    apply magnitude_byte; [exact Hb|lia].
Qed.

Lemma band_levels_within_unit_witness :
  audioContext onsetAnalyzer = Some {| sampleRate := 44100 |}
  /\ frequencyData (buffers onsetAnalyzer) = Some onsetFrame
  /\ bytes onsetFrame = true
  /\ exists fd,
       fst (analyzeFrequency onsetAnalyzer) = Normal fd
       /\ within 0 1 (f_bass fd) = true
       /\ within 0 1 (f_mid fd) = true
       /\ within 0 1 (f_treble fd) = true
       /\ within 0 1 (f_peakValue fd) = true.
Proof.
  split; [reflexivity|]. split; [reflexivity|]. split; [reflexivity|].
  apply (band_levels_within_unit onsetAnalyzer {| sampleRate := 44100 |}
           onsetFrame); reflexivity.
Defined.

Lemma volume_value (b : Z) :
  isByte b = true ->
  exists v, (JS.abs (of_Z b - 128) / 128)%num = Fin v
            /\ (0 <= v)%Q /\ (v <= 1)%Q.
Proof.
  intros B. unfold isByte in B. apply andb_true_iff in B.
  rewrite !Z.leb_le in B.
  rewrite sub_of_Z, abs_of_Z. unfold JS.div, of_Z.
  change (Qeq_bool (inject_Z 128) 0) with false. cbv iota.
  eexists. split; [reflexivity|].
  split; [apply Qred_le_r|apply Qred_le_l];
    cbv [Qle Qdiv Qmult Qinv inject_Z Qnum Qden]; lia.
Qed.

Lemma max_fin (m v : Q) :
  exists m', JS.max (Fin m) (Fin v) = Fin m'
             /\ (m <= m')%Q /\ (v <= m')%Q /\ (m' == m \/ m' == v)%Q.
Proof.
  unfold JS.max, JS.leb. destruct (Qle_bool m v) eqn:E.
  - apply Qle_bool_iff in E. exists v.
    repeat split; [exact E|apply Qle_refl|right; reflexivity].
  - exists m. repeat split; [apply Qle_refl| |left; reflexivity].
    destruct (Qlt_le_dec m v) as [L|L]; [|exact L].
    apply Qlt_le_weak in L. apply Qle_bool_iff in L. congruence.
Qed.

Lemma fold_volumeStep (data : list Z) (a m : Q) :
  bytes data = true -> (0 <= m)%Q -> (m <= 1)%Q ->
  exists q m',
    fold_left volumeStep data (Fin a, Fin m) = (Fin q, Fin m')
    /\ (a <= q)%Q
    /\ (q <= a + inject_Z (Z.of_nat (length data)) * m')%Q
    /\ (m <= m')%Q /\ (m' <= 1)%Q.
Proof.
  revert a m. induction data as [|b data IH]; intros a m Hb M0 M1.
  - exists a, m. split; [reflexivity|].
    simpl. rewrite Qmult_0_l, Qplus_0_r.
    repeat split; try apply Qle_refl; assumption.
  - simpl in Hb. apply andb_true_iff in Hb. destruct Hb as [B Hb].
    destruct (volume_value b B) as (v & Ev & V0 & V1).
    destruct (max_fin m v) as (m1 & Em & L1 & L2 & L3).
    assert (M1' : (m1 <= 1)%Q).
    { destruct L3 as [L3|L3]; rewrite L3; assumption. }
    assert (M0' : (0 <= m1)%Q) by (eapply Qle_trans; eauto).
    destruct (IH (Qred (a + v)) m1 Hb M0' M1')
      as (q & m' & E & Q0 & Q1 & Q2 & Q3).
    exists q, m'. split.
    + cbn [fold_left]. unfold volumeStep at 2. cbn [fst snd].
      rewrite Ev, Em. exact E.
    + split; [|split; [|split]].
      * apply (Qle_trans _ (Qred (a + v))); [|exact Q0].
        apply Qred_le_r. rewrite <- (Qplus_0_r a) at 1.
        apply Qplus_le_compat; [apply Qle_refl|exact V0].
      * eapply Qle_trans; [exact Q1|].
        change (length (b :: data)) with (S (length data)).
        rewrite Nat2Z.inj_succ, <- Z.add_1_l, inject_Z_plus.
        rewrite Qmult_plus_distr_l, Qmult_1_l.
        rewrite Qplus_assoc. apply Qplus_le_compat; [|apply Qle_refl].
        apply Qred_le_l. apply Qplus_le_compat; [apply Qle_refl|].
        eapply Qle_trans; [exact L2|exact Q2].
      * eapply Qle_trans; [exact L1|exact Q2].
      * exact Q3.
Qed.

(** X15.  On a non-empty time-domain buffer of bytes [calculateVolume]
    returns, without changing the object, an [average] and a [max] that
    are finite numbers between 0 and 1, the average not above the
    maximum; its [level] is never above 1, whatever the square root. *)
Theorem volume_bounded (sqrt : num -> num) (s : Analyzer) (data : list Z) :
  timeData (buffers s) = Some data ->
  bytes data = true ->
  (0 < length data)%nat ->
  exists v,
    calculateVolume sqrt s = (Normal v, s)
    /\ within 0 1 (v_average v) = true
    /\ within 0 1 (v_max v) = true
    /\ (v_average v <=? v_max v)%num = true
    /\ (v_level v >? 1)%num = false.
Proof.
  intros Hd Hb Hn.
  unfold calculateVolume, bind, get, deref, ret. rewrite Hd.
  eexists. split; [reflexivity|].
  cbn [v_average v_max v_level].
  destruct (fold_volumeStep data (inject_Z 0) (inject_Z 0) Hb)
    as (q & m & E & Q0 & Q1 & M0 & M1); try discriminate.
  change (of_Z 0, of_Z 0) with (Fin (inject_Z 0), Fin (inject_Z 0)).
  rewrite E. cbn [fst snd]. rewrite Qplus_0_l in Q1.
  destruct (div_count_bounded q m (length data) Hn Q0 Q1)
    as (r & -> & R0 & R1).
  split; [|split; [|split]].
  - apply within_spec. exists r. repeat split; [exact R0|].
    eapply Qle_trans; [exact R1|exact M1].
  - apply within_spec. exists m. repeat split; assumption.
  - apply Qle_bool_iff. exact R1.
  - apply min_not_above.
Qed.

Lemma volume_bounded_witness :
  timeData (buffers (snd (getByteTimeDomainData (repeat 200 1024)
                            (initialized 44100 1024))))
  = Some (repeat 200 1024)
  /\ bytes (repeat 200 1024) = true
  /\ (0 < length (repeat 200 1024))%nat
  /\ exists v,
       calculateVolume sqrtLower
         (snd (getByteTimeDomainData (repeat 200 1024)
                 (initialized 44100 1024)))
       = (Normal v,
          snd (getByteTimeDomainData (repeat 200 1024)
                 (initialized 44100 1024)))
       /\ within 0 1 (v_average v) = true
       /\ within 0 1 (v_max v) = true
       /\ (v_average v <=? v_max v)%num = true
       /\ (v_level v >? 1)%num = false.
Proof.
  split; [reflexivity|]. split; [reflexivity|].
  split; [apply Nat.ltb_lt; reflexivity|].
  apply (volume_bounded sqrtLower
           (snd (getByteTimeDomainData (repeat 200 1024)
                   (initialized 44100 1024)))
           (repeat 200 1024));
    [reflexivity|reflexivity|apply Nat.ltb_lt; reflexivity].
Defined.

(** *** The spectral flux *)

Lemma magnitude_byte_or_NaN data i :
  bytes data = true ->
  magnitude data i = NaN \/ within 0 1 (magnitude data i) = true.
Proof.
  intros Hb.
  destruct (Z.ltb_spec i 0) as [L|L].
  - left. unfold magnitude. destruct (Z.ltb_spec i 0); [reflexivity|lia].
  - destruct (Z.ltb_spec i (Z.of_nat (length data))) as [U|U].
    + right. apply magnitude_byte; [exact Hb|lia].
    + left. unfold magnitude. destruct (Z.ltb_spec i 0); [reflexivity|].
      destruct (nth_error data (Z.to_nat i)) eqn:E; [|reflexivity].
      assert (N : nth_error data (Z.to_nat i) <> None) by congruence.
      apply nth_error_Some in N. lia.
Qed.

Lemma fluxStep_bounded current previous a i :
  within 0 1 (magnitude current i) = true ->
  magnitude previous i = NaN \/ within 0 1 (magnitude previous i) = true ->
  exists a', fluxStep current previous (Fin a) i = Fin a'
             /\ (a <= a')%Q /\ (a' <= a + 1)%Q.
Proof.
  intros Hc Hp. unfold fluxStep.
  apply within_spec in Hc. destruct Hc as (c & -> & C0 & C1).
  destruct Hp as [->|Hp].
  - exists a. split; [reflexivity|]. split; [apply Qle_refl|].
    rewrite <- (Qplus_0_r a) at 1.
    apply Qplus_le_compat; [apply Qle_refl|discriminate].
  - apply within_spec in Hp. destruct Hp as (p & -> & P0 & P1).
    unfold JS.sub, JS.neg, JS.add, fin.
    destruct (Fin (Qred (c + Qred (- p))) >? 0)%num eqn:G.
    + eexists. split; [reflexivity|].
      unfold JS.gtb, JS.ltb, of_Z in G. apply Qltb_true in G.
      split; [apply Qred_le_r|apply Qred_le_l].
      * rewrite <- (Qplus_0_r a) at 1.
        apply Qplus_le_compat; [apply Qle_refl|].
        apply Qlt_le_weak. exact G.
      * apply Qplus_le_compat; [apply Qle_refl|].
        apply Qred_le_l.
        apply (Qle_trans _ (1 + 0)); [|discriminate].
        apply Qplus_le_compat; [exact C1|].
        apply Qred_le_l.
        apply (Qopp_le_compat 0 p). exact P0.
    + exists a. split; [reflexivity|]. split; [apply Qle_refl|].
      rewrite <- (Qplus_0_r a) at 1.
      apply Qplus_le_compat; [apply Qle_refl|discriminate].
Qed.

Lemma fold_fluxStep current previous l a :
  bytes current = true -> bytes previous = true ->
  (forall i, In i l -> 0 <= i < Z.of_nat (length current)) ->
  exists f, fold_left (fluxStep current previous) l (Fin a) = Fin f
            /\ (a <= f)%Q /\ (f <= a + inject_Z (Z.of_nat (length l)))%Q.
Proof.
  intros Hc Hp. revert a. induction l as [|i l IH]; intros a Hl.
  - exists a. split; [reflexivity|]. split; [apply Qle_refl|].
    simpl. rewrite Qplus_0_r. apply Qle_refl.
  - destruct (fluxStep_bounded current previous a i) as (a' & E & A0 & A1).
    { apply magnitude_byte; [exact Hc|]. apply Hl. left; reflexivity. }
    { apply magnitude_byte_or_NaN. exact Hp. }
    destruct (IH a') as (f & F & F0 & F1).
    { intros j Hj. apply Hl. right; exact Hj. }
    exists f. cbn [fold_left]. rewrite E. split; [exact F|].
    split; [eapply Qle_trans; eauto|].
    eapply Qle_trans; [exact F1|].
    change (length (i :: l)) with (S (length l)).
    rewrite Nat2Z.inj_succ, <- Z.add_1_l, inject_Z_plus.
    rewrite Qplus_assoc. apply Qplus_le_compat; [exact A1|apply Qle_refl].
Qed.

Lemma binOf_nonneg (hz : Q) (n : nat) (rate : positive) :
  (0 <= hz)%Q -> 0 <= binOf hz n rate.
Proof.
  intros H. unfold binOf. change 0 with (Qfloor 0). apply Qfloor_resp_le.
  apply Qle_shift_div_l.
  - unfold Qdiv, Qlt, Qmult, Qinv, inject_Z. simpl. lia.
  - rewrite Qmult_0_l. apply Qmult_le_0_compat; [exact H|].
    unfold Qle, inject_Z. simpl. lia.
Qed.

Lemma range_length lo hi : length (range lo hi) = Z.to_nat (hi - lo).
Proof. unfold range. rewrite length_map, length_seq. reflexivity. Qed.

Lemma noIncrease_nth current previous i c p :
  forallb (fun x => fst x <=? snd x) (combine current previous) = true ->
  nth_error current i = Some c -> nth_error previous i = Some p ->
  c <= p.
Proof.
  revert previous i. induction current as [|x current IH];
    intros previous i H Hc Hp.
  - destruct i; discriminate.
  - destruct previous as [|y previous]; [destruct i; discriminate|].
    simpl in H. apply andb_true_iff in H. destruct H as [H1 H2].
    destruct i as [|i]; simpl in Hc, Hp.
    + injection Hc as <-. injection Hp as <-. apply Z.leb_le. exact H1.
    + exact (IH previous i H2 Hc Hp).
Qed.

Lemma fluxStep_noIncrease current previous flux i :
  noIncrease current previous = true ->
  fluxStep current previous flux i = flux.
Proof.
  intros H. unfold noIncrease in H. apply andb_true_iff in H.
  destruct H as [L H]. apply Nat.eqb_eq in L.
  unfold fluxStep, magnitude.
  destruct (i <? 0); [reflexivity|].
  destruct (nth_error current (Z.to_nat i)) as [c|] eqn:Ec; [|reflexivity].
  destruct (nth_error previous (Z.to_nat i)) as [p|] eqn:Ep; [|reflexivity].
  pose proof (noIncrease_nth _ _ _ _ _ H Ec Ep) as Hcp.
  match goal with
  | |- (if ?b then _ else _) = _ => destruct b eqn:G
  end; [|reflexivity].
  exfalso. revert G. unfold JS.div, of_Z.
  change (Qeq_bool (inject_Z 255) 0) with false. cbv iota.
  unfold JS.sub, JS.neg, JS.add, fin, JS.gtb, JS.ltb.
  intros G. apply Qltb_true in G.
  apply Qlt_not_le in G. apply G.
  apply Qred_le_l.
  apply (Qle_trans _ (inject_Z c / inject_Z 255
                      + - (inject_Z p / inject_Z 255))).
  - apply Qplus_le_compat; apply Qred_le_l; [apply Qle_refl|].
    apply Qopp_le_compat. apply Qred_le_r. apply Qle_refl.
  - cbv [Qle Qplus Qopp Qdiv Qmult Qinv inject_Z Qnum Qden]. lia.
Qed.

(** X16.  The flux of a frame of bytes against another is [NaN] when the
    band from 20 Hz to 4000 Hz holds no bin and a finite number between
    0 and 1 otherwise; a fall of the magnitudes does not count: when no
    byte has risen the flux is [0] (or [NaN] for an empty band). *)
Theorem flux_counts_only_increases (rate : positive)
    (current previous : list Z) :
  bytes current = true ->
  bytes previous = true ->
  let startBin := binOf 20 (length current) rate in
  let endBin := binOf 4000 (length current) rate in
  (endBin <= startBin -> spectralFluxOf rate current previous = NaN)
  /\ (startBin < endBin ->
      within 0 1 (spectralFluxOf rate current previous) = true
      /\ (noIncrease current previous = true ->
          spectralFluxOf rate current previous = of_Z 0)).
Proof.
  intros Hc Hp startBin endBin.
  assert (S0 : 0 <= startBin) by (apply binOf_nonneg; discriminate).
  unfold spectralFluxOf. fold startBin. fold endBin.
  set (l := range startBin (Z.min endBin (Z.of_nat (length current)))).
  assert (Hl : forall i, In i l -> 0 <= i < Z.of_nat (length current)).
  { intros i Hi. apply in_range in Hi. lia. }
  destruct (fold_fluxStep current previous l (inject_Z 0) Hc Hp Hl)
    as (f & F & F0 & F1).
  change (fold_left (fluxStep current previous) l (of_Z 0))
    with (fold_left (fluxStep current previous) l (Fin (inject_Z 0))).
  rewrite F. rewrite Qplus_0_l in F1.
  split.
  - intros Hle.
    assert (El : l = []).
    { unfold l, range.
      replace (Z.to_nat (Z.min endBin (Z.of_nat (length current))
                         - startBin)) with 0%nat by lia.
      reflexivity. }
    rewrite El in F. simpl in F. injection F as <-.
    assert (Hs : startBin <= endBin).
    { unfold startBin, endBin, binOf. apply Qfloor_resp_le.
      unfold Qdiv. apply Qmult_le_compat_r.
      - apply Qmult_le_compat_r; [discriminate|].
        unfold Qle, inject_Z. simpl. lia.
      - apply Qinv_le_0_compat.
        unfold Qle, Qmult, Qinv, inject_Z. simpl. lia. }
    replace (endBin - startBin) with 0 by lia. reflexivity.
  - intros Hlt. split.
    + assert (K : (0 < Z.to_nat (endBin - startBin))%nat) by lia.
      assert (B : (f <= inject_Z (Z.of_nat (Z.to_nat (endBin - startBin)))
                        * 1)%Q).
      { rewrite Qmult_1_r. eapply Qle_trans; [exact F1|].
        rewrite <- Zle_Qle. unfold l. rewrite range_length. lia. }
      destruct (div_count_bounded f 1 _ K F0 B) as (r & E & R0 & R1).
      unfold of_nat in E. rewrite Z2Nat.id in E by lia.
      rewrite E.
      apply within_spec. eauto.
    + intros Hn.
      assert (Z0 : fold_left (fluxStep current previous) l
                             (Fin (inject_Z 0)) = Fin (inject_Z 0)).
      { apply fold_left_unchanged. intros x b _.
        apply fluxStep_noIncrease. exact Hn. }
      rewrite Z0 in F. injection F as <-.
      unfold JS.div, of_Z.
      destruct (Qeq_bool (inject_Z (endBin - startBin)) 0) eqn:Z.
      { apply Qeq_bool_eq in Z. revert Z.
        cbv [Qeq inject_Z Qnum Qden]. lia. }
      reflexivity.
Qed.

Lemma flux_counts_only_increases_witness :
  bytes quietFrame = true
  /\ bytes onsetFrame = true
  /\ (binOf 4000 (length quietFrame) 44100
      <= binOf 20 (length quietFrame) 44100 ->
      spectralFluxOf 44100 quietFrame onsetFrame = NaN)
  /\ (binOf 20 (length quietFrame) 44100
      < binOf 4000 (length quietFrame) 44100 ->
      within 0 1 (spectralFluxOf 44100 quietFrame onsetFrame) = true
      /\ (noIncrease quietFrame onsetFrame = true ->
          spectralFluxOf 44100 quietFrame onsetFrame = of_Z 0)).
Proof.
  split; [reflexivity|]. split; [reflexivity|].
  apply (flux_counts_only_increases 44100 quietFrame onsetFrame);
    reflexivity.
Defined.

(** *** [getFrequencyData], [getTimeData] and [cleanup] *)

Lemma fill_idempotent (array frame : list Z) :
  fill (fill array frame) frame = fill array frame.
Proof.
  unfold fill at 1. rewrite fill_length. unfold fill.
  f_equal. rewrite skipn_app, length_firstn.
  destruct (Nat.le_gt_cases (length frame) (length array)) as [L|L].
  - rewrite firstn_all2 by exact L. rewrite skipn_all.
    replace (length frame - Nat.min (length array) (length frame))%nat
      with 0%nat by lia.
    reflexivity.
  - rewrite (skipn_all2 array) by lia.
    rewrite skipn_nil, app_nil_r. apply skipn_all2.
    rewrite length_firstn. lia.
Qed.

Lemma fill_same_length (array frame : list Z) :
  length frame = length array -> fill array frame = frame.
Proof.
  intros H. unfold fill. rewrite <- H, firstn_all, H, skipn_all.
  apply app_nil_r.
Qed.

Lemma getFrequencyData_ready frame s f :
  ready s = true ->
  frequencyData (buffers s) = Some f ->
  let sf :=
    set_buffers (set_frequencyData (Some (fill f frame)) (buffers s)) s in
  getFrequencyData frame s = (Normal (Some (fill f frame)), sf)
  /\ ready sf = true.
Proof.
  intros H Hf sf. pose proof H as H'. apply ready_fields in H'.
  destruct H' as (Hi & node & ctx & f0 & td & p & Hn & Hc & Hf0 & Ht & Hp
                  & Hl).
  rewrite Hf in Hf0. injection Hf0 as <-.
  split.
  - unfold getFrequencyData, getByteFrequencyData, bind, get, deref,
      modify, ret.
    rewrite Hi. cbn. rewrite Hn. cbn. rewrite Hf. reflexivity.
  - unfold ready, sf. cbn. rewrite Hi, Hn, Hc, Ht, Hp.
    rewrite fill_length. apply Nat.leb_le. exact Hl.
Qed.

Lemma getTimeData_ready frame s t :
  ready s = true ->
  timeData (buffers s) = Some t ->
  let st := set_buffers (set_timeData (Some (fill t frame)) (buffers s)) s in
  getTimeData frame s = (Normal (Some (fill t frame)), st)
  /\ ready st = true.
Proof.
  intros H Ht st. pose proof H as H'. apply ready_fields in H'.
  destruct H' as (Hi & node & ctx & f & td & p & Hn & Hc & Hf & Ht0 & Hp
                  & Hl).
  rewrite Ht in Ht0. injection Ht0 as <-.
  split.
  - unfold getTimeData, getByteTimeDomainData, bind, get, deref, modify, ret.
    rewrite Hi. cbn. rewrite Hn. cbn. rewrite Ht. reflexivity.
  - unfold ready, st. cbn. rewrite Hi, Hn, Hc, Hf, Hp.
    apply Nat.leb_le. exact Hl.
Qed.

(** X17.  On a ready object [getFrequencyData] and [getTimeData] return
    the buffer after the analyser has written the frame into it: an
    array of the length of the buffer, equal to the frame when the
    lengths agree.  Calling again with the same frame returns the same
    array and leaves the object as it is.  Before [init] both return
    [null]. *)
Theorem buffer_getters (frame : list Z) (s : Analyzer) :
  (isInitialized s = false ->
   getFrequencyData frame s = (Normal None, s)
   /\ getTimeData frame s = (Normal None, s))
  /\ (ready s = true ->
      exists f t sf st,
        frequencyData (buffers s) = Some f
        /\ timeData (buffers s) = Some t
        /\ getFrequencyData frame s = (Normal (Some (fill f frame)), sf)
        /\ getTimeData frame s = (Normal (Some (fill t frame)), st)
        /\ length (fill f frame) = length f
        /\ length (fill t frame) = length t
        /\ (length frame = length f -> fill f frame = frame)
        /\ (length frame = length t -> fill t frame = frame)
        /\ getFrequencyData frame sf = (Normal (Some (fill f frame)), sf)
        /\ getTimeData frame st = (Normal (Some (fill t frame)), st)).
Proof.
  split.
  - intros H. unfold getFrequencyData, getTimeData, bind, get, ret.
    rewrite H. split; reflexivity.
  - intros H. pose proof H as H'. apply ready_fields in H'.
    destruct H' as (Hi & node & ctx & f & td & p & Hn & Hc & Hf & Ht & Hp
                    & Hl).
    destruct (getFrequencyData_ready frame s f H Hf) as [F1 F2].
    destruct (getTimeData_ready frame s td H Ht) as [T1 T2].
    exists f, td. eexists _, _.
    split; [exact Hf|]. split; [exact Ht|].
    split; [exact F1|]. split; [exact T1|].
    split; [apply fill_length|]. split; [apply fill_length|].
    split; [apply fill_same_length|]. split; [apply fill_same_length|].
    split.
    + destruct (getFrequencyData_ready frame _ (fill f frame) F2
                  eq_refl) as [G _].
      rewrite fill_idempotent in G. exact G.
    + destruct (getTimeData_ready frame _ (fill td frame) T2 eq_refl)
        as [G _].
      rewrite fill_idempotent in G. exact G.
Qed.

(** X18.  After [cleanup] the object is shut down for good:
    [getAnalysisData] returns [null] on every later call, whatever the
    frames, and leaves the object as it is, and [getFrequencyData] and
    [getTimeData] return [null]; the buffers and the whole state of the
    beat detector are kept as they were. *)
Theorem cleanup_is_final (sqrt : num -> num) (contextClosed : bool)
    (ticks : list Tick) (frame : list Z) (s : Analyzer) :
  let s' := cleanup contextClosed s in
  results (getAnalysisData sqrt) ticks s'
  = map (fun _ => Normal None) ticks
  /\ after (getAnalysisData sqrt) ticks s' = s'
  /\ getFrequencyData frame s' = (Normal None, s')
  /\ getTimeData frame s' = (Normal None, s')
  /\ buffers s' = buffers s
  /\ sameRhythm s s'.
Proof.
  intros s'.
  assert (G : forall e, getAnalysisData sqrt e s' = (Normal None, s')).
  { intros e. rewrite getAnalysisData_unfold. reflexivity. }
  split; [|split; [|repeat split]].
  - induction ticks as [|e ticks IH]; [reflexivity|].
    cbn [results map]. rewrite G. cbn [fst snd]. f_equal. exact IH.
  - induction ticks as [|e ticks IH]; [reflexivity|].
    unfold after in *. cbn [fold_left]. rewrite G. exact IH.
Qed.

(** *** [detectBeatWithSpectralFlux] *)

Lemma calculateSpectralFlux_state s : snd (calculateSpectralFlux s) = s.
Proof.
  unfold calculateSpectralFlux, bind, get, deref, ret.
  destruct (previousFrequencyData (buffers s)); [|reflexivity].
  destruct (frequencyData (buffers s)); [|reflexivity].
  destruct (audioContext s); reflexivity.
Qed.

Lemma pushEnergy_grows size e h :
  (length (pushEnergy size e h) <= length h + 1)%nat.
Proof.
  unfold pushEnergy. destruct (_ <? _)%nat.
  - destruct h as [|y h]; simpl; [lia|]. rewrite length_app. simpl. lia.
  - rewrite length_app. simpl. lia.
Qed.

(** One call: the history, the answer and the beat detector. *)
Lemma detectBeatWithSpectralFlux_step t x :
  let o := fst (detectBeatWithSpectralFlux t x) in
  let x' := snd (detectBeatWithSpectralFlux t x) in
  ((length (fluxHistory x) <= 43)%nat ->
   (length (fluxHistory x') <= 43)%nat)
  /\ (length (fluxHistory x') <= length (fluxHistory x) + 1)%nat
  /\ ((length (fluxHistory x) + 1 < 10)%nat -> noFluxReport o = true)
  /\ (fluxDetected o = false ->
      beatDetection (analyzer x') = beatDetection (analyzer x))
  /\ (fluxDetected o = true ->
      minInterval (beatDetection (analyzer x))
      < t - lastBeatTime (beatDetection (analyzer x))
      /\ beatDetection (analyzer x')
         = set_lastBeatTime t (beatDetection (analyzer x))).
Proof.
  unfold detectBeatWithSpectralFlux, fluxHistory.
  pose proof (calculateSpectralFlux_state (analyzer x)) as S.
  destruct (calculateSpectralFlux (analyzer x)) as [[flux|] s]; simpl in S;
    subst s.
  - set (h := match spectralFluxHistory x with
              | Some h => h
              | None => []
              end).
    pose proof (pushEnergy_length 43 flux h) as L1.
    pose proof (pushEnergy_grows 43 flux h) as L2.
    destruct (Nat.ltb_spec (length (pushEnergy 43 flux h)) 10) as [W|W].
    + cbn. repeat split; auto; discriminate.
    + destruct (_ >? _)%num; cbn [andb].
      * destruct (Z.ltb_spec (minInterval (beatDetection (analyzer x)))
                    (t - lastBeatTime (beatDetection (analyzer x))))
          as [P|P]; cbn.
        -- repeat split; auto; try discriminate. intros; lia.
        -- repeat split; auto; try discriminate. intros; lia.
      * cbn. repeat split; auto; try discriminate. intros; lia.
  - cbn. repeat split; auto; try discriminate. lia.
Qed.

(** X19.  [detectBeatWithSpectralFlux] keeps at most 43 values in its
    history, and returns [false] (or raises), without touching the beat
    detector, until the history holds ten values: on a new object the
    first nine calls report nothing. *)
Theorem flux_detector_warms_up (times : list Z) (x : FluxAnalyzer) :
  ((length (fluxHistory x) <= 43)%nat ->
   (length (fluxHistory (after detectBeatWithSpectralFlux times x))
    <= 43)%nat)
  /\ ((length (fluxHistory x) + length times < 10)%nat ->
      forallb noFluxReport (results detectBeatWithSpectralFlux times x)
      = true
      /\ beatDetection
           (analyzer (after detectBeatWithSpectralFlux times x))
         = beatDetection (analyzer x)).
Proof.
  split.
  - revert x. induction times as [|t times IH]; intros x H; [exact H|].
    unfold after in *. cbn [fold_left]. apply IH.
    apply (detectBeatWithSpectralFlux_step t x). exact H.
  - revert x. induction times as [|t times IH]; intros x H.
    + split; reflexivity.
    + destruct (detectBeatWithSpectralFlux_step t x)
        as (_ & L & W & U & _).
      cbn [length] in H.
      assert (N : noFluxReport (fst (detectBeatWithSpectralFlux t x))
                  = true) by (apply W; lia).
      destruct (IH (snd (detectBeatWithSpectralFlux t x))) as [I1 I2];
        [lia|].
      cbn [results forallb]. rewrite N, I1. split; [reflexivity|].
      unfold after in *. cbn [fold_left]. rewrite I2. apply U.
      destruct (fst (detectBeatWithSpectralFlux t x)) as [[|[|] ? ? ?]|];
        try reflexivity; discriminate.
Qed.

(** X20.  A beat reported by [detectBeatWithSpectralFlux] at time [t]
    comes strictly more than [minInterval] after the last beat and
    becomes the last beat; as both detectors share [lastBeatTime],
    [detectBeat] is then paused at every time before [t + minInterval],
    and the flux detector itself reports no beat up to and including
    [t + minInterval]. *)
Theorem flux_beat_shares_pause (t : Z) (x : FluxAnalyzer) :
  fluxDetected (fst (detectBeatWithSpectralFlux t x)) = true ->
  let x' := snd (detectBeatWithSpectralFlux t x) in
  let gap := minInterval (beatDetection (analyzer x)) in
  gap < t - lastBeatTime (beatDetection (analyzer x))
  /\ lastBeatTime (beatDetection (analyzer x')) = t
  /\ minInterval (beatDetection (analyzer x')) = gap
  /\ (forall t' bpmTime,
        t' < t + gap ->
        detectBeat t' bpmTime (analyzer x')
        = (Normal pausedEvent, analyzer x'))
  /\ (forall t',
        t' <= t + gap ->
        fluxDetected (fst (detectBeatWithSpectralFlux t' x')) = false).
Proof.
  intros H x' gap.
  destruct (detectBeatWithSpectralFlux_step t x) as (_ & _ & _ & _ & D).
  destruct (D H) as [D1 D2]. fold x' in D2.
  split; [exact D1|].
  assert (L : lastBeatTime (beatDetection (analyzer x')) = t)
    by (rewrite D2; reflexivity).
  assert (G : minInterval (beatDetection (analyzer x')) = gap)
    by (rewrite D2; reflexivity).
  split; [exact L|]. split; [exact G|]. split.
  - intros t' bpmTime Ht. apply detectBeat_paused. rewrite L, G. lia.
  - intros t' Ht.
    destruct (fluxDetected (fst (detectBeatWithSpectralFlux t' x')))
      eqn:E; [|reflexivity].
    destruct (detectBeatWithSpectralFlux_step t' x') as (_ & _ & _ & _ & D').
    destruct (D' E) as [D3 _]. rewrite L, G in D3. lia.
Qed.

Lemma flux_beat_shares_pause_witness :
  fluxDetected
    (fst (detectBeatWithSpectralFlux 1700000000000 warmFluxAnalyzer))
  = true
  /\ let x' :=
       snd (detectBeatWithSpectralFlux 1700000000000 warmFluxAnalyzer) in
     let gap := minInterval (beatDetection (analyzer warmFluxAnalyzer)) in
     gap < 1700000000000
           - lastBeatTime (beatDetection (analyzer warmFluxAnalyzer))
     /\ lastBeatTime (beatDetection (analyzer x')) = 1700000000000
     /\ minInterval (beatDetection (analyzer x')) = gap
     /\ (forall t' bpmTime,
           t' < 1700000000000 + gap ->
           detectBeat t' bpmTime (analyzer x')
           = (Normal pausedEvent, analyzer x'))
     /\ (forall t',
           t' <= 1700000000000 + gap ->
           fluxDetected (fst (detectBeatWithSpectralFlux t' x')) = false).
Proof.
  assert (H : fluxDetected
                (fst (detectBeatWithSpectralFlux 1700000000000
                        warmFluxAnalyzer)) = true)
    by (vm_compute; reflexivity).
  split; [exact H|].
  exact (flux_beat_shares_pause 1700000000000 warmFluxAnalyzer H).
Defined.

(** X21.  Conversely, after [detectBeat] has detected a beat at time
    [now], [detectBeatWithSpectralFlux] reports no beat up to and
    including [now + minInterval], whatever its history. *)
Theorem beat_pauses_flux_detector (now bpmTime t' : Z) (s s' : Analyzer)
    (b : BeatEvent) (h : option (list num)) :
  detectBeat now bpmTime s = (Normal b, s') ->
  b_detected b = true ->
  t' <= now + minInterval (beatDetection s) ->
  fluxDetected
    (fst (detectBeatWithSpectralFlux t' (mkFluxAnalyzer s' h))) = false.
Proof.
  intros D Hb Ht.
  pose proof (detectBeat_detected _ _ _ _ _ D Hb) as L.
  assert (G : minInterval (beatDetection s')
              = minInterval (beatDetection s)).
  { destruct (detectBeat_cases now bpmTime s)
      as [[_ E]|[_ [E|(b0 & s0 & E & M & _)]]]; rewrite E in D.
    - injection D as <- <-. discriminate.
    - discriminate.
    - injection D as <- <-. exact M. }
  destruct (fluxDetected
              (fst (detectBeatWithSpectralFlux t' (mkFluxAnalyzer s' h))))
    eqn:E; [|reflexivity].
  destruct (detectBeatWithSpectralFlux_step t' (mkFluxAnalyzer s' h))
    as (_ & _ & _ & _ & D').
  destruct (D' E) as [D3 _]. cbn [analyzer] in D3. rewrite L, G in D3. lia.
Qed.

Lemma beat_pauses_flux_detector_witness :
  detectBeat 1700000000000 1700000000000
    (snd (getByteFrequencyData kickFrame (initialized 44100 1024)))
  = (Normal VC.kickBeatEvent,
     snd (detectBeat 1700000000000 1700000000000
            (snd (getByteFrequencyData kickFrame
                    (initialized 44100 1024)))))
  /\ b_detected VC.kickBeatEvent = true
  /\ 1700000000300
     <= 1700000000000
        + minInterval
            (beatDetection
               (snd (getByteFrequencyData kickFrame
                       (initialized 44100 1024))))
  /\ fluxDetected
       (fst (detectBeatWithSpectralFlux 1700000000300
               (mkFluxAnalyzer
                  (snd (detectBeat 1700000000000 1700000000000
                          (snd (getByteFrequencyData kickFrame
                                  (initialized 44100 1024)))))
                  (Some (repeat (of_Z 0) 9))))) = false.
Proof.
  assert (H : detectBeat 1700000000000 1700000000000
                (snd (getByteFrequencyData kickFrame
                        (initialized 44100 1024)))
              = (Normal VC.kickBeatEvent,
                 snd (detectBeat 1700000000000 1700000000000
                        (snd (getByteFrequencyData kickFrame
                                (initialized 44100 1024))))))
    by (vm_compute; reflexivity).
  split; [exact H|]. split; [reflexivity|].
  split; [vm_compute; discriminate|].
  apply (beat_pauses_flux_detector 1700000000000 1700000000000
           1700000000300 _ _ VC.kickBeatEvent
           (Some (repeat (of_Z 0) 9)) H);
    [reflexivity|vm_compute; discriminate].
Defined.

End AAProofs.
